(** * Project records: server CRUD, form validation and dashboard statistics

    A shallow embedding of the project-management application:
    - [server/database.js]: the [dbOperations] over the SQLite table
      [projects] and the Express routes [/api/projects] that call them;
    - [components/ProjectForm.tsx]: the change handler, the duplicate check
      and [validateForm];
    - [components/Dashboard.tsx]: the statistics computed from the project
      list;
    - [App.tsx]: the handlers that keep the project list of the application;
    - [components/ProjectList.tsx]: the search, the filters, the sort and
      the options of the filters.

    Conventions of the embedding.
    - A JavaScript string is a [string]: a sequence of code units below 256
      (Latin-1).  White space, [trim], [toLowerCase] and the regular
      expression classes are those of ECMAScript restricted to that range.
    - A JavaScript number holding an employee count is a [Z]; only the
      gender percentages leave the integers, and they are computed in
      binary64, on the primitive floats, from the numbers that hold the
      integers ([Js.number]).
    - A JavaScript object on the server (a request body, a row returned by
      the driver) is a finite map from property names to values, so that the
      object spread and the column binding are those of the source.  A
      missing property reads as [undefined], which the driver leaves NULL.
      Values are strings, integers and [null]; SQLite stores a bound value
      under the affinity of its column ([affinity]).
    - The wall clock is an input: every [Date.now()] and [new Date()] of the
      source is an argument of the function that embeds it. *)

From Stdlib Require Import Ascii ZArith Floats.
From stdpp Require Import base strings list gmap fin_maps sorting pretty.

Local Open Scope string_scope.
Local Open Scope list_scope.
Local Open Scope Z_scope.

(** ** Part I. Definitions *)

(** *** JavaScript strings *)

Module Js.

Definition code (c : ascii) : N := N_of_ascii c.

(** ECMAScript [WhiteSpace] and [LineTerminator] code points below 256:
    TAB, LF, VT, FF, CR, SP and NBSP.  Both [String.prototype.trim] and the
    class [\s] use this set. *)
Definition isWhiteSpace (c : ascii) : bool :=
  let n := code c in
  ((9 <=? n) && (n <=? 13) || (n =? 32) || (n =? 160))%N.

Fixpoint trimStart (s : string) : string :=
  match s with
  | "" => ""
  | String c s' => if isWhiteSpace c then trimStart s' else s
  end.

Fixpoint trimEnd (s : string) : string :=
  match s with
  | "" => ""
  | String c s' =>
      match trimEnd s' with
      | "" => if isWhiteSpace c then "" else String c ""
      | r => String c r
      end
  end.

Definition trim (s : string) : string := trimEnd (trimStart s).

(** Truthiness of a string: [!s] holds exactly for the empty string. *)
Definition falsy (s : string) : bool :=
  match s with "" => true | _ => false end.

(** [toLowerCase] on Latin-1: A-Z and the accented capitals U+00C0-U+00DE
    (but the multiplication sign U+00D7) move up by 32.  On Latin-1 the
    conversion goes character by character; the mappings of ECMAScript that
    depend on the neighbours of a character (the final sigma) concern
    characters beyond this range. *)
Definition lowerChar (c : ascii) : ascii :=
  let n := code c in
  if ((65 <=? n) && (n <=? 90)
      || (192 <=? n) && (n <=? 222) && negb (n =? 215))%N
  then ascii_of_N (n + 32) else c.

Fixpoint toLowerCase (s : string) : string :=
  match s with
  | "" => ""
  | String c s' => String (lowerChar c) (toLowerCase s')
  end.

Fixpoint startsWith (p s : string) : bool :=
  match p, s with
  | "", _ => true
  | String a p', String b s' => if decide (a = b) then startsWith p' s' else false
  | String _ _, "" => false
  end.

(** [s.includes(p)]. *)
Fixpoint includes (p s : string) : bool :=
  startsWith p s ||
  match s with
  | "" => false
  | String _ s' => includes p s'
  end.

(** Regular expressions, matched by derivatives. *)
Inductive regex : Type :=
| Void
| Eps
| Class (p : ascii → bool)
| Cat (r1 r2 : regex)
| Alt (r1 r2 : regex)
| Star (r : regex).

Fixpoint nullable (r : regex) : bool :=
  match r with
  | Void => false
  | Eps => true
  | Class _ => false
  | Cat r1 r2 => nullable r1 && nullable r2
  | Alt r1 r2 => nullable r1 || nullable r2
  | Star _ => true
  end.

Fixpoint deriv (c : ascii) (r : regex) : regex :=
  match r with
  | Void => Void
  | Eps => Void
  | Class p => if p c then Eps else Void
  | Cat r1 r2 =>
      if nullable r1 then Alt (Cat (deriv c r1) r2) (deriv c r2)
      else Cat (deriv c r1) r2
  | Alt r1 r2 => Alt (deriv c r1) (deriv c r2)
  | Star r1 => Cat (deriv c r1) (Star r1)
  end.

(** The whole string is in the language of [r]. *)
Fixpoint fullMatch (r : regex) (s : string) : bool :=
  match s with
  | "" => nullable r
  | String c s' => fullMatch (deriv c r) s'
  end.

Definition Plus (r : regex) : regex := Cat r (Star r).
Definition Chr (a : ascii) : regex := Class (λ c, bool_decide (c = a)).
Definition Any : regex := Class (λ _, true).
Definition NonSpace : regex := Class (λ c, negb (isWhiteSpace c)).

(** Every character of [s] satisfies [p]. *)
Fixpoint every (p : ascii → bool) (s : string) : bool :=
  match s with
  | "" => true
  | String c s' => p c && every p s'
  end.

(** [r.test(s)] for a pattern without anchors: some substring matches. *)
Definition test (r : regex) (s : string) : bool :=
  fullMatch (Cat (Star Any) (Cat r (Star Any))) s.

(** The double quote, as a one-character string. *)
Definition quote : string := String (ascii_of_N 34) "".

(** The number that holds the integer [n]: the binary64 value nearest to
    [n], which is [n] itself between -2^53 and 2^53. *)
Definition number (n : Z) : float := SF2Prim (binary_normalize prec emax n 0 false).

(** [Number.prototype.toString] of an integer below 1e21 is its decimal
    numeral. *)
Definition toString (n : Z) : string := pretty n.

(** The decimal digit [d]. *)
Definition digit (d : Z) : ascii := ascii_of_N (Z.to_N (48 + d)).

(** The [w] low decimal digits of [n], the most significant first: for
    [0 <= n < 10 ^ w], the numeral of [n] padded with zeros to [w] digits. *)
Fixpoint digits (w : nat) (n : Z) : string :=
  match w with
  | O => ""
  | S w' => String (digit ((n `div` 10 ^ Z.of_nat w') `mod` 10)) (digits w' n)
  end.

(** The civil date of the day [days] after the epoch, in the proleptic
    Gregorian calendar; eras of 400 years start on the first of March. *)
Definition dayOfEra (days : Z) : Z := (days + 719468) `mod` 146097.
Definition eraOf (days : Z) : Z := (days + 719468) `div` 146097.
Definition yearOfEra (doe : Z) : Z :=
  (doe - doe `div` 1460 + doe `div` 36524 - doe `div` 146096) `div` 365.
Definition dayOfYear (doe : Z) : Z :=
  doe - (365 * yearOfEra doe + yearOfEra doe `div` 4 - yearOfEra doe `div` 100).
Definition monthIndex (doy : Z) : Z := (5 * doy + 2) `div` 153.
Definition dayOf (days : Z) : Z :=
  let doy := dayOfYear (dayOfEra days) in
  doy - (153 * monthIndex doy + 2) `div` 5 + 1.
Definition monthNumber (mp : Z) : Z := if mp <? 10 then mp + 3 else mp - 9.
Definition yearCarry (m : Z) : Z := if m <=? 2 then 1 else 0.
Definition monthOf (days : Z) : Z :=
  monthNumber (monthIndex (dayOfYear (dayOfEra days))).
Definition yearOf (days : Z) : Z :=
  yearOfEra (dayOfEra days) + eraOf days * 400 + yearCarry (monthOf days).

(** The year of an ISO timestamp: four digits from 0 to 9999, else a sign and
    six digits. *)
Definition yearText (y : Z) : string :=
  if (0 <=? y) && (y <=? 9999) then digits 4 y
  else if y <? 0 then "-" +:+ digits 6 (- y) else "+" +:+ digits 6 y.

(** [Date.prototype.toISOString] of the instant [ms] milliseconds after the
    epoch. *)
Definition toISOString (ms : Z) : string :=
  let days := ms `div` 86400000 in
  let rest := ms `mod` 86400000 in
  yearText (yearOf days) +:+ "-" +:+ digits 2 (monthOf days) +:+ "-"
    +:+ digits 2 (dayOf days) +:+ "T"
    +:+ digits 2 (rest `div` 3600000) +:+ ":"
    +:+ digits 2 ((rest `mod` 3600000) `div` 60000) +:+ ":"
    +:+ digits 2 ((rest `mod` 60000) `div` 1000) +:+ "."
    +:+ digits 3 (rest `mod` 1000) +:+ "Z".

End Js.

(** The language of a regular expression. *)
Inductive inLanguage : Js.regex → string → Prop :=
| in_eps : inLanguage Js.Eps ""
| in_class p c : p c = true → inLanguage (Js.Class p) (String c "")
| in_cat r1 r2 s1 s2 :
    inLanguage r1 s1 → inLanguage r2 s2 → inLanguage (Js.Cat r1 r2) (s1 +:+ s2)
| in_alt_l r1 r2 s : inLanguage r1 s → inLanguage (Js.Alt r1 r2) s
| in_alt_r r1 r2 s : inLanguage r2 s → inLanguage (Js.Alt r1 r2) s
| in_star_nil r : inLanguage (Js.Star r) ""
| in_star_cons r s1 s2 :
    inLanguage r s1 → inLanguage (Js.Star r) s2 → inLanguage (Js.Star r) (s1 +:+ s2).

(** A non-empty string without white space: what [\S+] stands for. *)
Definition nonSpaces (s : string) : Prop :=
  s ≠ "" ∧ Js.every (λ c, negb (Js.isWhiteSpace c)) s = true.

(** The instants whose year has four digits. *)
Definition fourDigitYear (ms : Z) : Prop := -62167219200000 <= ms <= 253402300799999.

(** Month, day and the carry into the next year, as one number, for the day
    [doy] of a year that starts in March. *)
Definition monthKey (doy : Z) : Z :=
  let mp := Js.monthIndex doy in
  Js.yearCarry (Js.monthNumber mp) * 10000 + Js.monthNumber mp * 100
  + (doy - (153 * mp + 2) `div` 5 + 1).

(** The civil date as one number: year, month and day in decimal. *)
Definition dateKey (days : Z) : Z :=
  Js.yearOf days * 10000 + Js.monthOf days * 100 + Js.dayOf days.

(** *** Server: [server/database.js] and the routes of [server/index.js] *)

(** A property value of a request body or of a row: a string, a number,
    which is an integer here, or [null]. *)
Inductive value : Type :=
| VStr (s : string)
| VNum (n : Z)
| VNull.

Global Instance value_eq_dec : EqDecision value.
Proof. solve_decision. Defined.

(** A JavaScript object; [o !! k = None] is [o.k === undefined]. *)
Abbreviation object := (gmap string value).

(** The table [projects]: its rows in insertion order.  A column that is
    NULL in a row is a key the row does not have. *)
Abbreviation table := (list (gmap string value)).

(** The outcome of a promise of the database layer. *)
Inductive sqlite_error : Type := SQLITE_CONSTRAINT.

Inductive settled (A : Type) : Type :=
| resolve (a : A)
| reject (err : sqlite_error).
Arguments resolve {A} a.
Arguments reject {A} err.

(** The promise was rejected: the [catch] branch of the route runs. *)
Definition rejected {A : Type} (p : settled A) : Prop := ∃ err, p = reject err.

(** The object defines every property of [props], and none of them is
    [null]. *)
Definition supplies (props : list string) (o : object) : Prop :=
  ∀ k, k ∈ props → is_Some (o !! k) ∧ o !! k ≠ Some VNull.

(** The spread [...src] inside an object literal: [dst] holds the properties
    the literal has set so far, and those of [src] overwrite them. *)
Definition spread (src dst : object) : object := src ∪ dst.

(** What SQLite does with a bound value whose type is not the one of the
    column.  A number bound to a column of TEXT affinity is stored as the
    text [textOf] of the number; a text bound to a column of INTEGER
    affinity is stored as [numericOf] of the text: the number the text reads
    as, when it reads as one, and the text itself otherwise.  Both
    conversions are SQLite's and are taken as given.  A text that reads as a
    number that is no integer is stored as that number, which [value] does
    not hold: nothing is stated below of what [numericOf] answers. *)
Class Sqlite : Type := {
  textOf : Z → string;
  numericOf : string → value
}.

(** The columns that [CREATE TABLE projects] declares INTEGER; every other
    column is declared TEXT. *)
Definition integerColumns : list string :=
  [ "employeesMale"; "employeesFemale"; "employeesTotal" ].

(** What the column [column] holds once [bound] is bound to it, [None]
    being NULL: an undefined property is not bound, which leaves the
    parameter NULL, [null] is bound as NULL, and a string or a number is
    stored under the affinity of the column. *)
Definition affinity `{Sqlite} (column : string) (bound : option value) : option value :=
  match bound with
  | None | Some VNull => None
  | Some (VStr s) =>
      if decide (column ∈ integerColumns) then Some (numericOf s) else Some (VStr s)
  | Some (VNum n) =>
      if decide (column ∈ integerColumns) then Some (VNum n) else Some (VStr (textOf n))
  end.

(** The value has the type that its column declares: a text for a column of
    TEXT affinity, an integer for one of INTEGER affinity. *)
Definition hasColumnType (column : string) (v : value) : Prop :=
  match v with
  | VStr _ => column ∉ integerColumns
  | VNum _ => column ∈ integerColumns
  | VNull => False
  end.

(** Binding [project.k] to the column [k] for every [k] of [cols]. *)
Definition bind `{Sqlite} (cols : list string) (project row : object) : object :=
  foldr (λ k acc, partial_alter (λ _, affinity k (project !! k)) k acc) row cols.

Module dbOperations.

(** The columns of [CREATE TABLE projects], in the order of the INSERT. *)
Definition columns : list string :=
  [ "id"; "companyName"; "sector"; "subSector"; "region"; "zone"; "woreda";
    "approvalDate"; "owner"; "advisorCompany"; "evaluator"; "grantedBy";
    "contactPerson"; "ownerPhone"; "companyEmail"; "companyWebsite";
    "projectStatus"; "employeesMale"; "employeesFemale"; "employeesTotal";
    "createdAt"; "updatedAt" ].

(** The columns declared NOT NULL. *)
Definition notNull : list string :=
  [ "companyName"; "sector"; "subSector"; "region"; "zone"; "woreda";
    "approvalDate"; "owner"; "contactPerson"; "ownerPhone"; "companyEmail";
    "projectStatus"; "createdAt"; "updatedAt" ].

(** The columns assigned from [project] by the UPDATE; [updatedAt] is
    assigned from the clock and [id], [createdAt] are not assigned. *)
Definition updateColumns : list string :=
  [ "companyName"; "sector"; "subSector"; "region"; "zone"; "woreda";
    "approvalDate"; "owner"; "advisorCompany"; "evaluator"; "grantedBy";
    "contactPerson"; "ownerPhone"; "companyEmail"; "companyWebsite";
    "projectStatus"; "employeesMale"; "employeesFemale"; "employeesTotal" ].

(** The NOT NULL columns whose value comes from the caller's object: the
    two timestamps are written by the server. *)
Definition required : list string :=
  [ "companyName"; "sector"; "subSector"; "region"; "zone"; "woreda";
    "approvalDate"; "owner"; "contactPerson"; "ownerPhone"; "companyEmail";
    "projectStatus" ].

(** No column declared NOT NULL is written as NULL; SQLite checks the
    columns the statement writes. *)
Definition notNullOk (written : list string) (row : object) : bool :=
  forallb (λ k, bool_decide (k ∈ written → is_Some (row !! k))) notNull.

(** [id TEXT PRIMARY KEY]: no other row holds the same non-NULL id. *)
Definition primaryKeyOk (row : object) (db : table) : bool :=
  match row !! "id" with
  | None => true
  | Some v => forallb (λ r, bool_decide (r !! "id" ≠ Some v)) db
  end.

(** Comparison of SQLite values of the storage classes NULL, INTEGER and
    TEXT: NULL first, then numbers, then text by its bytes. *)
Definition sqlLe (a b : option value) : bool :=
  match a, b with
  | (None | Some VNull), _ => true
  | Some _, (None | Some VNull) => false
  | Some (VNum x), Some (VNum y) => x <=? y
  | Some (VNum _), Some (VStr _) => true
  | Some (VStr _), Some (VNum _) => false
  | Some (VStr s), Some (VStr t) => String.leb s t
  end.

(** [ORDER BY createdAt DESC]: [r1] may come before [r2]. *)
Definition createdAtDesc (r1 r2 : object) : Prop :=
  sqlLe (r2 !! "createdAt") (r1 !! "createdAt").

Global Instance createdAtDesc_dec : RelDecision createdAtDesc.
Proof. intros r1 r2. unfold createdAtDesc. apply _. Defined.

(** [WHERE id = ?] with the string [id] bound. *)
Definition hasId (id : string) (r : object) : Prop := r !! "id" = Some (VStr id).

Global Instance hasId_dec id r : Decision (hasId id r).
Proof. unfold hasId. apply _. Defined.

(** [SELECT * FROM projects ORDER BY createdAt DESC].  The statement does
    not fix the order of rows with equal [createdAt]; the sort used here
    fixes one, and nothing below depends on which. *)
Definition getAllProjects (db : table) : settled (list object) * table :=
  (resolve (merge_sort createdAtDesc db), db).

(** [INSERT INTO projects (...) VALUES (?, ..., ?)]. *)
Definition createProject `{Sqlite} (project : object) (db : table)
  : settled object * table :=
  let row := bind columns project ∅ in
  if notNullOk columns row && primaryKeyOk row db
  then (resolve (partial_alter (λ _, project !! "id") "id" project), db ++ [row])
  else (reject SQLITE_CONSTRAINT, db).

(** The row written by the UPDATE in place of [row]. *)
Definition updatedRow `{Sqlite} (now : Z) (project row : object) : object :=
  <["updatedAt" := VStr (Js.toISOString now)]> (bind updateColumns project row).

(** [UPDATE projects SET ... WHERE id = ?] followed, when it raised no
    error, by [SELECT * FROM projects WHERE id = ?]; [now] is the reading
    of the clock by [new Date()]. *)
Definition updateProject `{Sqlite} (now : Z) (id : string) (project : object)
    (db : table) : settled (option object) * table :=
  if forallb (λ r, if decide (hasId id r)
                   then notNullOk ("updatedAt" :: updateColumns)
                          (updatedRow now project r)
                   else true) db
  then
    let db' := (λ r, if decide (hasId id r) then updatedRow now project r else r) <$> db in
    (resolve (head (filter (hasId id) db')), db')
  else (reject SQLITE_CONSTRAINT, db).

Definition deleted : object := {[ "message" := VStr "Project deleted successfully" ]}.

(** [DELETE FROM projects WHERE id = ?]. *)
Definition deleteProject (id : string) (db : table) : settled object * table :=
  (resolve deleted, filter (λ r, ¬ hasId id r) db).

End dbOperations.

(** The body handed to [res.json]. *)
Inductive json : Type :=
| JObject (o : object)
| JArray (l : list object)
| JUndefined.

Record response : Type := { status : nat; body : json }.

Module routes.

Definition failure (msg : string) : response :=
  {| status := 500; body := JObject {[ "error" := VStr msg ]} |}.

(** [app.get('/api/projects')]. *)
Definition getProjects (db : table) : response * table :=
  match dbOperations.getAllProjects db with
  | (resolve projects, db') => ({| status := 200; body := JArray projects |}, db')
  | (reject _, db') => (failure "Failed to fetch projects", db')
  end.

(** The object literal
    [{ id: Date.now().toString(), ...req.body, createdAt: ..., updatedAt: ... }];
    [nowId], [nowCreated] and [nowUpdated] are the three readings of the
    clock, in the order the literal takes them. *)
Definition newProject (nowId nowCreated nowUpdated : Z) (reqBody : object) : object :=
  <["updatedAt" := VStr (Js.toISOString nowUpdated)]>
    (<["createdAt" := VStr (Js.toISOString nowCreated)]>
       (spread reqBody (<["id" := VStr (Js.toString nowId)]> ∅))).

(** [app.post('/api/projects')]. *)
Definition postProject `{Sqlite} (nowId nowCreated nowUpdated : Z) (reqBody : object)
    (db : table) : response * table :=
  match dbOperations.createProject (newProject nowId nowCreated nowUpdated reqBody) db with
  | (resolve project, db') => ({| status := 201; body := JObject project |}, db')
  | (reject _, db') => (failure "Failed to create project", db')
  end.

(** [app.put('/api/projects/:id')]; [res.json(undefined)] answers 200 with
    no content. *)
Definition putProject `{Sqlite} (now : Z) (id : string) (reqBody : object)
    (db : table) : response * table :=
  match dbOperations.updateProject now id reqBody db with
  | (resolve (Some project), db') => ({| status := 200; body := JObject project |}, db')
  | (resolve None, db') => ({| status := 200; body := JUndefined |}, db')
  | (reject _, db') => (failure "Failed to update project", db')
  end.

(** [app.delete('/api/projects/:id')]. *)
Definition deleteProject (id : string) (db : table) : response * table :=
  match dbOperations.deleteProject id db with
  | (resolve _, db') =>
      ({| status := 200;
          body := JObject {[ "message" := VStr "Project deleted successfully" ]} |}, db')
  | (reject _, db') => (failure "Failed to delete project", db')
  end.

End routes.

(** The primary key holds in the table: no two rows share an id that is
    not NULL. *)
Inductive keyed : table → Prop :=
| keyed_nil : keyed []
| keyed_cons r db :
    (∀ r' v, r' ∈ db → r !! "id" = Some v → r' !! "id" ≠ Some v) →
    keyed db → keyed (r :: db).

(** The tables the routes produce from the empty table. *)
Inductive served `{Sqlite} : table → Prop :=
| served_empty : served []
| served_post nowId nowCreated nowUpdated reqBody db :
    served db → served (routes.postProject nowId nowCreated nowUpdated reqBody db).2
| served_put now id reqBody db :
    served db → served (routes.putProject now id reqBody db).2
| served_delete id db :
    served db → served (routes.deleteProject id db).2.

(** A row as the INSERT leaves it: it holds nothing but the columns of the
    table, it holds every NOT NULL column, and what it holds in a column
    declared TEXT is a text.  Its [id] is such a column, and may be NULL. *)
Definition complete (r : object) : Prop :=
  (∀ k, is_Some (r !! k) → k ∈ dbOperations.columns)
  ∧ supplies dbOperations.notNull r
  ∧ (∀ k v, k ∉ integerColumns → r !! k = Some v → ∃ s, v = VStr s).

(** The tables the routes produce while the clock does not go back:
    [ticking start now db] holds when [db] results from requests whose clock
    readings, taken in the order of the requests, run from [start] to
    [now]. *)
Inductive ticking `{Sqlite} (start : Z) : Z → table → Prop :=
| ticking_empty : ticking start start []
| ticking_post now nowId nowCreated nowUpdated reqBody db :
    ticking start now db →
    now <= nowId → nowId <= nowCreated → nowCreated <= nowUpdated →
    ticking start nowUpdated (routes.postProject nowId nowCreated nowUpdated reqBody db).2
| ticking_put now now' id reqBody db :
    ticking start now db → now <= now' →
    ticking start now' (routes.putProject now' id reqBody db).2
| ticking_delete now id db :
    ticking start now db →
    ticking start now (routes.deleteProject id db).2.

(** *** Client types: [src/types] *)

Module types.

(** Modelled from the spec: the [Project] interface of [src/types], which
    is not among the sources; its fields are those of section 3 of the
    specification, which are also the properties the form and the dashboard
    read. *)
Record Project : Type := {
  id : string;
  companyName : string;
  sector : string;
  subSector : string;
  region : string;
  zone : string;
  woreda : string;
  approvalDate : string;
  owner : string;
  advisorCompany : string;
  evaluator : string;
  grantedBy : string;
  contactPerson : string;
  ownerPhone : string;
  companyEmail : string;
  companyWebsite : string;
  projectStatus : string;
  employeesMale : Z;
  employeesFemale : Z;
  employeesTotal : Z;
  createdAt : string;
  updatedAt : string
}.

(** Modelled from the spec: the [Metadata] interface of [src/types], the
    four enumerations of section 3. *)
Record Metadata : Type := {
  regions : list string;
  sectors : list string;
  subSectors : list string;
  projectStatuses : list string
}.

(** Modelled from the spec: the [DashboardStats] interface of [src/types],
    with the six properties the dashboard assigns. *)
Record DashboardStats : Type := {
  totalProjects : nat;
  totalEmployees : Z;
  maleEmployees : Z;
  femaleEmployees : Z;
  completedProjects : nat;
  inProgressProjects : nat
}.

End types.

(** The constant [metadata] of [server/index.js], served by
    [GET /api/metadata]. *)
Definition metadata : types.Metadata :=
  {| types.regions :=
       [ "Addis Ababa"; "Afar"; "Amhara"; "Benishangul-Gumuz"; "Dire Dawa";
         "Gambela"; "Harari"; "Oromia"; "Sidama"; "SNNP"; "Somali"; "Tigray";
         "Southwest"; "Central Ethiopia" ];
     types.sectors := [ "Health"; "Industry"; "Agriculture" ];
     types.subSectors :=
       [ "Agroprocessing"; "Food and Beverage"; "Construction and Engineering";
         "Chemical and Detergents"; "Textile and Garment"; "Multi-Sectorial";
         "Minerals" ];
     types.projectStatuses :=
       [ "Planning"; "In Progress"; "Completed"; "On Hold"; "Cancelled" ] |}.

(** *** The form: [components/ProjectForm.tsx] *)

Module ProjectForm.

(** The state [formData]. *)
Record FormData : Type := {
  companyName : string;
  sector : string;
  subSector : string;
  region : string;
  zone : string;
  woreda : string;
  approvalDate : string;
  owner : string;
  advisorCompany : string;
  evaluator : string;
  grantedBy : string;
  contactPerson : string;
  ownerPhone : string;
  companyEmail : string;
  companyWebsite : string;
  projectStatus : string;
  employeesMale : Z;
  employeesFemale : Z;
  employeesTotal : Z
}.

(** The state of the component that the handlers below read and write. *)
Record State : Type := {
  formData : FormData;
  otherSubSector : string;
  errors : gmap string string
}.

(** The argument of [useState] for [formData]. *)
Definition initialFormData : FormData :=
  {| companyName := ""; sector := ""; subSector := ""; region := ""; zone := "";
     woreda := ""; approvalDate := ""; owner := ""; advisorCompany := "";
     evaluator := ""; grantedBy := ""; contactPerson := ""; ownerPhone := "";
     companyEmail := ""; companyWebsite := ""; projectStatus := "";
     employeesMale := 0; employeesFemale := 0; employeesTotal := 0 |}.

Definition initialState : State :=
  {| formData := initialFormData; otherSubSector := ""; errors := ∅ |}.

(** [{ ...prev, [name]: value }] for a string [value]: the property [name]
    is replaced.  A [name] that is no property of [formData] would add a
    property that nothing reads; the record then stays as it is. *)
Definition setString (name value : string) (prev : FormData) : FormData :=
  let at_ (k old : string) := if decide (name = k) then value else old in
  {| companyName := at_ "companyName" (companyName prev);
     sector := at_ "sector" (sector prev);
     subSector := at_ "subSector" (subSector prev);
     region := at_ "region" (region prev);
     zone := at_ "zone" (zone prev);
     woreda := at_ "woreda" (woreda prev);
     approvalDate := at_ "approvalDate" (approvalDate prev);
     owner := at_ "owner" (owner prev);
     advisorCompany := at_ "advisorCompany" (advisorCompany prev);
     evaluator := at_ "evaluator" (evaluator prev);
     grantedBy := at_ "grantedBy" (grantedBy prev);
     contactPerson := at_ "contactPerson" (contactPerson prev);
     ownerPhone := at_ "ownerPhone" (ownerPhone prev);
     companyEmail := at_ "companyEmail" (companyEmail prev);
     companyWebsite := at_ "companyWebsite" (companyWebsite prev);
     projectStatus := at_ "projectStatus" (projectStatus prev);
     employeesMale := employeesMale prev;
     employeesFemale := employeesFemale prev;
     employeesTotal := employeesTotal prev |}.

(** [{ ...prev, [name]: n }] for a number [n]. *)
Definition setNumber (name : string) (n : Z) (prev : FormData) : FormData :=
  let at_ (k : string) (old : Z) := if decide (name = k) then n else old in
  {| companyName := companyName prev; sector := sector prev;
     subSector := subSector prev; region := region prev; zone := zone prev;
     woreda := woreda prev; approvalDate := approvalDate prev;
     owner := owner prev; advisorCompany := advisorCompany prev;
     evaluator := evaluator prev; grantedBy := grantedBy prev;
     contactPerson := contactPerson prev; ownerPhone := ownerPhone prev;
     companyEmail := companyEmail prev; companyWebsite := companyWebsite prev;
     projectStatus := projectStatus prev;
     employeesMale := at_ "employeesMale" (employeesMale prev);
     employeesFemale := at_ "employeesFemale" (employeesFemale prev);
     employeesTotal := at_ "employeesTotal" (employeesTotal prev) |}.

(** The first [setFormData] of the effect that runs when a project is
    opened for editing. *)
Definition ofProject (project : types.Project) : FormData :=
  {| companyName := types.companyName project;
     sector := types.sector project;
     subSector := if decide (types.subSector project = "Other") then "Other"
                  else types.subSector project;
     region := types.region project;
     zone := types.zone project;
     woreda := types.woreda project;
     approvalDate := types.approvalDate project;
     owner := types.owner project;
     advisorCompany := types.advisorCompany project;
     evaluator := types.evaluator project;
     grantedBy := types.grantedBy project;
     contactPerson := types.contactPerson project;
     ownerPhone := types.ownerPhone project;
     companyEmail := types.companyEmail project;
     companyWebsite := types.companyWebsite project;
     projectStatus := types.projectStatus project;
     employeesMale := types.employeesMale project;
     employeesFemale := types.employeesFemale project;
     employeesTotal := types.employeesTotal project |}.

(** [metadata?.subSectors.includes(x)], whose negation is true for a
    missing [metadata]. *)
Definition knownSubSector (metadata : option types.Metadata) (x : string) : bool :=
  match metadata with
  | Some m => bool_decide (x ∈ types.subSectors m)
  | None => false
  end.

(** The effect on [project, metadata]: nothing without a project. *)
Definition openProject (project : option types.Project)
    (metadata : option types.Metadata) (st : State) : State :=
  match project with
  | None => st
  | Some p =>
      if negb (Js.falsy (types.subSector p)) && negb (knownSubSector metadata (types.subSector p))
      then {| formData := setString "subSector" "Other" (ofProject p);
              otherSubSector := types.subSector p;
              errors := errors st |}
      else {| formData := ofProject p;
              otherSubSector := otherSubSector st;
              errors := errors st |}
  end.

(** The duplicate check of the effect on the three key fields: the pair
    [(duplicateWarning, isDuplicateBlocked)] it sets. *)
Definition isDuplicateOf (fd : FormData) (project : option types.Project)
    (p : types.Project) : bool :=
  bool_decide (Js.toLowerCase (types.companyName p) = Js.toLowerCase (companyName fd))
  && bool_decide (types.sector p = sector fd)
  && bool_decide (types.region p = region fd)
  && match project with
     | None => true
     | Some current => bool_decide (types.id p ≠ types.id current)
     end.

Definition checkDuplicate (fd : FormData) (existingProjects : list types.Project)
    (project : option types.Project) : string * bool :=
  if negb (Js.falsy (companyName fd)) && negb (Js.falsy (sector fd))
     && negb (Js.falsy (region fd))
  then
    match List.find (isDuplicateOf fd project) existingProjects with
    | Some _ =>
        ("A project with the company name " +:+ Js.quote +:+ companyName fd
           +:+ Js.quote +:+ " already exists in the " +:+ sector fd
           +:+ " sector in " +:+ region fd
           +:+ " region. Please verify this is not a duplicate entry.", true)
    | None => ("", false)
    end
  else ("", false).

Definition duplicateWarning fd existingProjects project : string :=
  (checkDuplicate fd existingProjects project).1.
Definition isDuplicateBlocked fd existingProjects project : bool :=
  (checkDuplicate fd existingProjects project).2.

(** The inputs the form renders with [onChange={handleChange}], in the
    order of the markup, each with its [readOnly] attribute. *)
Definition inputs : list (string * bool) :=
  [ ("companyName", false); ("owner", false); ("sector", false);
    ("subSector", false); ("region", false); ("zone", false);
    ("woreda", false); ("approvalDate", false); ("projectStatus", false);
    ("contactPerson", false); ("ownerPhone", false); ("companyEmail", false);
    ("companyWebsite", false); ("advisorCompany", false); ("evaluator", false);
    ("grantedBy", false); ("employeesMale", false); ("employeesFemale", false);
    ("employeesTotal", true) ].

(** The user can change the input called [name]. *)
Definition editable (name : string) : Prop := (name, false) ∈ inputs.

Section Handlers.

(** [Number(value)] on the value of a numeric input, for the inputs whose
    number is an integer. *)
Variable Number : string → Z.

(** The translation function [t] of the language context. *)
Variable t : string → string.

(** The updater that [handleChange] passes to [setFormData]. *)
Definition changeFormData (name value : string) (prev : FormData) : FormData :=
  let newData :=
    if Js.includes "employees" name then setNumber name (Number value) prev
    else setString name value prev in
  if decide (name = "employeesMale" ∨ name = "employeesFemale") then
    let male := if decide (name = "employeesMale") then Number value
                else employeesMale prev in
    let female := if decide (name = "employeesFemale") then Number value
                  else employeesFemale prev in
    setNumber "employeesTotal" (male + female) newData
  else newData.

(** [errors[name]] is set and not empty. *)
Definition hasError (errs : gmap string string) (name : string) : bool :=
  match errs !! name with
  | Some msg => negb (Js.falsy msg)
  | None => false
  end.

Definition handleChange (name value : string) (st : State) : State :=
  {| formData := changeFormData name value (formData st);
     otherSubSector :=
       if decide (name = "subSector" ∧ value ≠ "Other") then ""
       else otherSubSector st;
     errors :=
       if hasError (errors st) name then <[name := ""]> (errors st)
       else errors st |}.

Definition handleOtherSubSectorChange (value : string) (st : State) : State :=
  {| formData := formData st;
     otherSubSector := value;
     errors :=
       if hasError (errors st) "subSector" then <["subSector" := ""]> (errors st)
       else errors st |}.

(** The message [validateForm] stores under the key [duplicate]. *)
Definition duplicateError : string :=
  "Cannot create duplicate project. Please modify the company name, sector, or region.".

(** [if (cond) newErrors[key] = msg]. *)
Definition orError (cond : bool) (key msg : string) (newErrors : gmap string string)
  : gmap string string :=
  if cond then <[key := msg]> newErrors else newErrors.

(** The pattern of [validateForm], without anchors: one or more
    non-space, an at sign, one or more non-space, a dot, one or more
    non-space. *)
Definition emailPattern : Js.regex :=
  Js.Cat (Js.Plus Js.NonSpace)
    (Js.Cat (Js.Chr "@")
       (Js.Cat (Js.Plus Js.NonSpace)
          (Js.Cat (Js.Chr ".") (Js.Plus Js.NonSpace)))).

(** The object [newErrors] built by [validateForm], the assignments in
    the order of the source. *)
Definition newErrors (fd : FormData) (isDuplicateBlocked : bool) : gmap string string :=
  let e := ∅ in
  let e := orError (Js.falsy (Js.trim (companyName fd))) "companyName" (t "form.required") e in
  let e := orError (Js.falsy (sector fd)) "sector" (t "form.required") e in
  let e := orError (Js.falsy (subSector fd)) "subSector" (t "form.required") e in
  let e := orError (Js.falsy (region fd)) "region" (t "form.required") e in
  let e := orError (Js.falsy (Js.trim (zone fd))) "zone" (t "form.required") e in
  let e := orError (Js.falsy (Js.trim (woreda fd))) "woreda" (t "form.required") e in
  let e := orError (Js.falsy (approvalDate fd)) "approvalDate" (t "form.required") e in
  let e := orError (Js.falsy (Js.trim (owner fd))) "owner" (t "form.required") e in
  let e := orError (Js.falsy (projectStatus fd)) "projectStatus" (t "form.required") e in
  let e := orError (Js.falsy (Js.trim (contactPerson fd))) "contactPerson" (t "form.required") e in
  let e := orError (Js.falsy (Js.trim (ownerPhone fd))) "ownerPhone" (t "form.required") e in
  let e :=
    if Js.falsy (Js.trim (companyEmail fd))
    then <["companyEmail" := t "form.required"]> e
    else orError (negb (Js.test emailPattern (companyEmail fd)))
           "companyEmail" "Invalid email format" e in
  orError isDuplicateBlocked "duplicate" duplicateError e.

(** [validateForm]: the value returned and the state after
    [setErrors(newErrors)]. *)
Definition validateForm (isDuplicateBlocked : bool) (st : State) : bool * State :=
  let errs := newErrors (formData st) isDuplicateBlocked in
  (bool_decide (size errs = 0%nat),
   {| formData := formData st; otherSubSector := otherSubSector st; errors := errs |}).

(** [submitData] of [handleSubmit]. *)
Definition submitData (st : State) : FormData :=
  setString "subSector"
    (if decide (subSector (formData st) = "Other") then otherSubSector st
     else subSector (formData st))
    (formData st).

End Handlers.

(** The states of the form for a new project: it starts from
    [initialState] and moves by a change of an input the user can edit, by a
    change of the free-text sub-sector, or by a validation. *)
Inductive reachable (Number : string → Z) : State → Prop :=
| reachable_initial : reachable Number initialState
| reachable_change name value st :
    reachable Number st → editable name →
    reachable Number (handleChange Number name value st)
| reachable_other value st :
    reachable Number st →
    reachable Number (handleOtherSubSectorChange value st)
| reachable_validate t isDuplicateBlocked st :
    reachable Number st →
    reachable Number (validateForm t isDuplicateBlocked st).2.

(** The invariant of the data model on the state of the form. *)
Definition totalIsSum (fd : FormData) : Prop :=
  employeesTotal fd = employeesMale fd + employeesFemale fd.

(** The fields [validateForm] trims before it tests them, and those it
    tests as they are. *)
Definition trimmedFields : list (string * (FormData → string)) :=
  [ ("companyName", companyName); ("zone", zone); ("woreda", woreda);
    ("owner", owner); ("contactPerson", contactPerson);
    ("ownerPhone", ownerPhone) ].

Definition untrimmedFields : list (string * (FormData → string)) :=
  [ ("sector", sector); ("subSector", subSector); ("region", region);
    ("approvalDate", approvalDate); ("projectStatus", projectStatus) ].

(** The thirteen keys [validateForm] can set. *)
Definition errorKeys : list string :=
  "duplicate" :: "companyEmail" :: (trimmedFields.*1 ++ untrimmedFields.*1).

(** Some field is in error. *)
Definition fieldError (fd : FormData) : Prop :=
  (∃ k get, (k, get) ∈ trimmedFields ∧ Js.trim (get fd) = "")
  ∨ (∃ k get, (k, get) ∈ untrimmedFields ∧ get fd = "")
  ∨ Js.trim (companyEmail fd) = ""
  ∨ Js.test emailPattern (companyEmail fd) = false.

End ProjectForm.

(** The title of the warning box above the fields of the form, when
    [duplicateWarning && ...] shows the box. *)
Definition warningTitle (fd : ProjectForm.FormData) (existingProjects : list types.Project)
    (project : option types.Project) : option string :=
  if negb (Js.falsy (ProjectForm.duplicateWarning fd existingProjects project))
  then Some (if ProjectForm.isDuplicateBlocked fd existingProjects project
             then "Duplicate Project Detected" else "Potential Duplicate Detected")
  else None.

(** The box titled No Duplicates Found is shown:
    [formData.companyName && formData.sector && formData.region && !duplicateWarning]. *)
Definition noDuplicatesFound (fd : ProjectForm.FormData)
    (existingProjects : list types.Project) (project : option types.Project) : bool :=
  negb (Js.falsy (ProjectForm.companyName fd)) && negb (Js.falsy (ProjectForm.sector fd))
  && negb (Js.falsy (ProjectForm.region fd))
  && Js.falsy (ProjectForm.duplicateWarning fd existingProjects project).

(** *** The dashboard: [components/Dashboard.tsx] *)

Module Dashboard.

(** [projects.reduce((sum, p) => sum + f(p), 0)]. *)
Definition reduceSum (f : types.Project → Z) (projects : list types.Project) : Z :=
  fold_left (λ sum p, sum + f p) projects 0.

Definition stats (projects : list types.Project) : types.DashboardStats :=
  {| types.totalProjects := length projects;
     types.totalEmployees := reduceSum types.employeesTotal projects;
     types.maleEmployees := reduceSum types.employeesMale projects;
     types.femaleEmployees := reduceSum types.employeesFemale projects;
     types.completedProjects :=
       length (filter (λ p, types.projectStatus p = "Completed") projects);
     types.inProgressProjects :=
       length (filter (λ p, types.projectStatus p = "In Progress") projects) |}.

(** An entry of [sectorData] or [regionData] ([value] is called [projects]
    in [regionData]), and an entry of [statusData]. *)
Record Breakdown : Type := { name : string; value : nat; employees : Z }.
Record Count : Type := { statusName : string; statusValue : nat }.

Definition sectorData (projects : list types.Project)
    (metadata : option types.Metadata) : list Breakdown :=
  match metadata with
  | Some m =>
      (λ sector,
         {| name := sector;
            value := length (filter (λ p, types.sector p = sector) projects);
            employees := reduceSum types.employeesTotal
                           (filter (λ p, types.sector p = sector) projects) |})
        <$> types.sectors m
  | None => []
  end.

Definition statusData (projects : list types.Project)
    (metadata : option types.Metadata) : list Count :=
  match metadata with
  | Some m =>
      (λ status,
         {| statusName := status;
            statusValue := length (filter (λ p, types.projectStatus p = status) projects) |})
        <$> types.projectStatuses m
  | None => []
  end.

Definition regionData (projects : list types.Project)
    (metadata : option types.Metadata) : list Breakdown :=
  match metadata with
  | Some m =>
      (λ region,
         {| name := region;
            value := length (filter (λ p, types.region p = region) projects);
            employees := reduceSum types.employeesTotal
                           (filter (λ p, types.region p = region) projects) |})
        <$> types.regions m
  | None => []
  end.

(** The words of the specification: the sum of a field over the records
    that satisfy a condition, and the number of such records. *)
Fixpoint sumWhere (cond : types.Project → bool) (f : types.Project → Z)
    (projects : list types.Project) : Z :=
  match projects with
  | [] => 0
  | p :: rest => (if cond p then f p else 0) + sumWhere cond f rest
  end.

Fixpoint countWhere (cond : types.Project → bool)
    (projects : list types.Project) : nat :=
  match projects with
  | [] => 0%nat
  | p :: rest => ((if cond p then 1 else 0) + countWhere cond rest)%nat
  end.

(** The two percentages of the gender distribution, before [toFixed]:
    [(stats.maleEmployees / stats.totalEmployees) * 100] and the same for
    [femaleEmployees], in the arithmetic of binary64. *)
Definition malePercentage (s : types.DashboardStats) : float :=
  (Js.number (types.maleEmployees s) / Js.number (types.totalEmployees s) * 100)%float.
Definition femalePercentage (s : types.DashboardStats) : float :=
  (Js.number (types.femaleEmployees s) / Js.number (types.totalEmployees s) * 100)%float.

End Dashboard.

(** *** The project list of the application: [App.tsx] *)

Module App.

(** The state of [AppContent] that the handlers below write. *)
Record State : Type := {
  projects : list types.Project;
  showProjectForm : bool;
  editingProject : option types.Project
}.

(** The arguments of the three [useState]. *)
Definition initialState : State :=
  {| projects := []; showProjectForm := false; editingProject := None |}.

Definition handleProjectAdded (project : types.Project) (st : State) : State :=
  {| projects := projects st ++ [project];
     showProjectForm := false;
     editingProject := editingProject st |}.

Definition handleProjectUpdated (updatedProject : types.Project) (st : State) : State :=
  {| projects :=
       (λ p, if decide (types.id p = types.id updatedProject) then updatedProject else p)
         <$> projects st;
     showProjectForm := false;
     editingProject := None |}.

Definition handleProjectDeleted (projectId : string) (st : State) : State :=
  {| projects := filter (λ p, types.id p ≠ projectId) (projects st);
     showProjectForm := showProjectForm st;
     editingProject := editingProject st |}.

Definition handleEditProject (project : types.Project) (st : State) : State :=
  {| projects := projects st;
     showProjectForm := true;
     editingProject := Some project |}.

(** The [onSubmit] handed to the form:
    [editingProject ? handleProjectUpdated : handleProjectAdded]. *)
Definition onSubmit (result : types.Project) (st : State) : State :=
  match editingProject st with
  | Some _ => handleProjectUpdated result st
  | None => handleProjectAdded result st
  end.

End App.

(** *** The list of projects: [components/ProjectList.tsx] *)

Module Array.

(** [Array.prototype.sort] with a comparator: the sort is stable, an element
    goes before the elements it does not compare greater than.  For a
    comparator that is no consistent order the standard leaves the result
    to the implementation; what is proved of the order below assumes
    consistency. *)
Fixpoint insert {A : Type} (compareFn : A → A → Z) (x : A) (l : list A) : list A :=
  match l with
  | [] => [x]
  | y :: l' => if compareFn x y <=? 0 then x :: l else y :: insert compareFn x l'
  end.

Definition sort {A : Type} (compareFn : A → A → Z) (l : list A) : list A :=
  foldr (insert compareFn) [] l.

(** [[...new Set(xs)]]: the elements in the order of their first
    occurrence. *)
Definition newSet (xs : list string) : list string :=
  fold_left (λ set x, if decide (x ∈ set) then set else set ++ [x]) xs [].

End Array.

Module ProjectList.

Inductive SortField : Type :=
| companyName
| employeesTotal
| approvalDate
| region
| sector.

Inductive SortDirection : Type := asc | desc.

Global Instance SortField_eq_dec : EqDecision SortField.
Proof. solve_decision. Defined.

(** The state of the component that the list depends on. *)
Record State : Type := {
  searchTerm : string;
  filterSector : string;
  filterStatus : string;
  filterRegion : string;
  filterSubSector : string;
  sortField : SortField;
  sortDirection : SortDirection
}.

Definition initialState : State :=
  {| searchTerm := ""; filterSector := ""; filterStatus := ""; filterRegion := "";
     filterSubSector := ""; sortField := companyName; sortDirection := asc |}.

Definition matchesSearch (st : State) (project : types.Project) : bool :=
  Js.includes (Js.toLowerCase (searchTerm st)) (Js.toLowerCase (types.companyName project))
  || Js.includes (Js.toLowerCase (searchTerm st)) (Js.toLowerCase (types.owner project))
  || Js.includes (Js.toLowerCase (searchTerm st)) (Js.toLowerCase (types.region project))
  || Js.includes (Js.toLowerCase (searchTerm st)) (Js.toLowerCase (types.contactPerson project)).

(** The callback of [projects.filter]. *)
Definition matches (st : State) (project : types.Project) : bool :=
  let matchesSector :=
    Js.falsy (filterSector st) || bool_decide (types.sector project = filterSector st) in
  let matchesStatus :=
    Js.falsy (filterStatus st)
    || bool_decide (types.projectStatus project = filterStatus st) in
  let matchesRegion :=
    Js.falsy (filterRegion st) || bool_decide (types.region project = filterRegion st) in
  let matchesSubSector :=
    Js.falsy (filterSubSector st)
    || bool_decide (types.subSector project = filterSubSector st) in
  matchesSearch st project && matchesSector && matchesStatus && matchesRegion
  && matchesSubSector.

(** What the comparator assigns to [aValue] and [bValue]: a lower-cased
    string, a number, or a [Date], which is its time value or, for a string
    that is no date, NaN ([None]). *)
Inductive sortValue : Type :=
| SString (s : string)
| SNumber (n : Z)
| SDate (time : option Z).

Global Instance sortValue_eq_dec : EqDecision sortValue.
Proof. solve_decision. Defined.

(** [aValue < bValue].  Both operands come from the same case of the
    [switch] and are of the same kind: strings compare by their code units,
    numbers and time values as numbers, and a comparison with NaN is false.
    Operands of different kinds do not arise. *)
Definition lessThan (aValue bValue : sortValue) : bool :=
  match aValue, bValue with
  | SString x, SString y => String.ltb x y
  | SNumber x, SNumber y => x <? y
  | SDate (Some x), SDate (Some y) => x <? y
  | _, _ => false
  end.

Section Sorting.

(** [new Date(s)]: the time value of the date the string [s] denotes, if it
    denotes one. *)
Variable Date : string → option Z.

(** The [switch] on [sortField]. *)
Definition sortValueOf (field : SortField) (p : types.Project) : sortValue :=
  match field with
  | companyName => SString (Js.toLowerCase (types.companyName p))
  | employeesTotal => SNumber (types.employeesTotal p)
  | approvalDate => SDate (Date (types.approvalDate p))
  | region => SString (Js.toLowerCase (types.region p))
  | sector => SString (Js.toLowerCase (types.sector p))
  end.

(** The comparator handed to [filtered.sort]. *)
Definition compare (st : State) (a b : types.Project) : Z :=
  let aValue := sortValueOf (sortField st) a in
  let bValue := sortValueOf (sortField st) b in
  if lessThan aValue bValue then
    match sortDirection st with asc => -1 | desc => 1 end
  else if lessThan bValue aValue then
    match sortDirection st with asc => 1 | desc => -1 end
  else 0.

Definition filteredAndSortedProjects (st : State) (projects : list types.Project)
  : list types.Project :=
  Array.sort (compare st) (filter (λ project, matches st project) projects).

End Sorting.

Definition handleSort (field : SortField) (st : State) : State :=
  if decide (sortField st = field)
  then {| searchTerm := searchTerm st; filterSector := filterSector st;
          filterStatus := filterStatus st; filterRegion := filterRegion st;
          filterSubSector := filterSubSector st; sortField := sortField st;
          sortDirection := match sortDirection st with asc => desc | desc => asc end |}
  else {| searchTerm := searchTerm st; filterSector := filterSector st;
          filterStatus := filterStatus st; filterRegion := filterRegion st;
          filterSubSector := filterSubSector st; sortField := field;
          sortDirection := asc |}.

Definition clearFilters (st : State) : State :=
  {| searchTerm := ""; filterSector := ""; filterStatus := ""; filterRegion := "";
     filterSubSector := ""; sortField := sortField st;
     sortDirection := sortDirection st |}.

(** [setSearchTerm(e.target.value)], the change handler of the search
    input. *)
Definition setSearchTerm (value : string) (st : State) : State :=
  {| searchTerm := value; filterSector := filterSector st;
     filterStatus := filterStatus st; filterRegion := filterRegion st;
     filterSubSector := filterSubSector st; sortField := sortField st;
     sortDirection := sortDirection st |}.

(** [setFilterSector(e.target.value)], the change handler of the sector
    filter. *)
Definition setFilterSector (value : string) (st : State) : State :=
  {| searchTerm := searchTerm st; filterSector := value;
     filterStatus := filterStatus st; filterRegion := filterRegion st;
     filterSubSector := filterSubSector st; sortField := sortField st;
     sortDirection := sortDirection st |}.

(** The options of the four filters. *)
Definition sectors (projects : list types.Project) : list string :=
  Array.newSet (types.sector <$> projects).
Definition statuses (projects : list types.Project) : list string :=
  Array.newSet (types.projectStatus <$> projects).
Definition regions (projects : list types.Project) : list string :=
  Array.newSet (types.region <$> projects).
Definition subSectors (projects : list types.Project) : list string :=
  Array.newSet (types.subSector <$> projects).

End ProjectList.

(** The approval dates of the projects are dates, when the list is sorted
    by them. *)
Definition datesValid (Date : string → option Z) (field : ProjectList.SortField)
    (p : types.Project) : Prop :=
  field = ProjectList.approvalDate → is_Some (Date (types.approvalDate p)).

(** *** The projects of the client as objects of the server *)

(** Modelled from the spec: the calls of [services/api], which is not among
    the sources, exchange the JSON bodies of section 6 of the specification
    with the routes; a [Project] of the client is the object the server
    answered, read through the interface, so the two hold the same values
    under the same names.  These are its properties, in the order of the
    columns. *)
Definition properties (p : types.Project) : list (string * value) :=
  [ ("id", VStr (types.id p)); ("companyName", VStr (types.companyName p));
    ("sector", VStr (types.sector p)); ("subSector", VStr (types.subSector p));
    ("region", VStr (types.region p)); ("zone", VStr (types.zone p));
    ("woreda", VStr (types.woreda p)); ("approvalDate", VStr (types.approvalDate p));
    ("owner", VStr (types.owner p)); ("advisorCompany", VStr (types.advisorCompany p));
    ("evaluator", VStr (types.evaluator p)); ("grantedBy", VStr (types.grantedBy p));
    ("contactPerson", VStr (types.contactPerson p));
    ("ownerPhone", VStr (types.ownerPhone p));
    ("companyEmail", VStr (types.companyEmail p));
    ("companyWebsite", VStr (types.companyWebsite p));
    ("projectStatus", VStr (types.projectStatus p));
    ("employeesMale", VNum (types.employeesMale p));
    ("employeesFemale", VNum (types.employeesFemale p));
    ("employeesTotal", VNum (types.employeesTotal p));
    ("createdAt", VStr (types.createdAt p)); ("updatedAt", VStr (types.updatedAt p)) ].

(** The object that the project [p] of the client is. *)
Definition toObject (p : types.Project) : object := list_to_map (properties p).

(** The project [p] is the answer [o] of the server, as far as the columns
    go: what else [o] holds is no property of the interface. *)
Definition represents (o : object) (p : types.Project) : Prop :=
  ∀ k, k ∈ dbOperations.columns → o !! k = toObject p !! k.

(** Modelled from the spec: the body of the request that [handleSubmit]
    sends through [services/api], which is not among the sources: by
    section 6 of the specification the project fields without [id],
    [createdAt] and [updatedAt], that is [submitData] as JSON, the object
    with the nineteen properties of the form. *)
Definition bodyOf (data : ProjectForm.FormData) : object :=
  list_to_map
    [ ("companyName", VStr (ProjectForm.companyName data));
      ("sector", VStr (ProjectForm.sector data));
      ("subSector", VStr (ProjectForm.subSector data));
      ("region", VStr (ProjectForm.region data));
      ("zone", VStr (ProjectForm.zone data));
      ("woreda", VStr (ProjectForm.woreda data));
      ("approvalDate", VStr (ProjectForm.approvalDate data));
      ("owner", VStr (ProjectForm.owner data));
      ("advisorCompany", VStr (ProjectForm.advisorCompany data));
      ("evaluator", VStr (ProjectForm.evaluator data));
      ("grantedBy", VStr (ProjectForm.grantedBy data));
      ("contactPerson", VStr (ProjectForm.contactPerson data));
      ("ownerPhone", VStr (ProjectForm.ownerPhone data));
      ("companyEmail", VStr (ProjectForm.companyEmail data));
      ("companyWebsite", VStr (ProjectForm.companyWebsite data));
      ("projectStatus", VStr (ProjectForm.projectStatus data));
      ("employeesMale", VNum (ProjectForm.employeesMale data));
      ("employeesFemale", VNum (ProjectForm.employeesFemale data));
      ("employeesTotal", VNum (ProjectForm.employeesTotal data)) ].

(** *** Sample data *)

(** A reading of decimal numerals, for the numeric inputs of the samples. *)
Fixpoint decimalFrom (acc : Z) (s : string) : Z :=
  match s with
  | "" => acc
  | String c s' => decimalFrom (10 * acc + (Z.of_N (Js.code c) - 48)) s'
  end.
Definition decimal (s : string) : Z := decimalFrom 0 s.

(** The conversions of SQLite at the values of the samples: an integer is
    written as its decimal numeral, and a text of decimal digits reads as
    the integer it writes.  Of the numerals that SQLite reads, those with a
    sign, a fraction, an exponent or white space around them are left out:
    the samples bind none to an INTEGER column. *)
Global Instance sqlite3 : Sqlite :=
  {| textOf := Js.toString;
     numericOf s :=
       if negb (Js.falsy s)
          && Js.every (λ c, bool_decide (48 ≤ Js.code c ≤ 57)%N) s
       then VNum (decimal s) else VStr s |}.

(** A body as the form submits it; [employeesTotal] is deliberately not the
    sum of the two other counts. *)
Definition acme : object :=
  list_to_map
    [ ("companyName", VStr "Acme"); ("sector", VStr "Health");
      ("subSector", VStr "Agroprocessing"); ("region", VStr "Afar");
      ("zone", VStr "Zone 1"); ("woreda", VStr "Woreda 3");
      ("approvalDate", VStr "2024-01-01"); ("owner", VStr "Abebe");
      ("contactPerson", VStr "Sara"); ("ownerPhone", VStr "0911000000");
      ("companyEmail", VStr "info@acme.et"); ("projectStatus", VStr "Planning");
      ("employeesMale", VNum 1); ("employeesFemale", VNum 2);
      ("employeesTotal", VNum 99) ].


(** The row stored by [POST /api/projects] of [acme], all within the
    millisecond 1000 of the clock, and the table that holds this row only. *)
Definition acmeRow : object :=
  bind dbOperations.columns (routes.newProject 1000 1000 1000 acme) ∅.

Definition acmeTable : table := [acmeRow].

(** A body that brings an id and a creation time of its own. *)
Definition acmeWithId : object :=
  <["id" := VStr "my-id"]> (<["createdAt" := VStr "never"]> acme).

(** The same project as the client holds it, with an upper-case name. *)
Definition acmeProject : types.Project :=
  {| types.id := "1000"; types.companyName := "ACME"; types.sector := "Health";
     types.subSector := "Agroprocessing"; types.region := "Afar";
     types.zone := "Zone 1"; types.woreda := "Woreda 3";
     types.approvalDate := "2024-01-01"; types.owner := "Abebe";
     types.advisorCompany := ""; types.evaluator := ""; types.grantedBy := "";
     types.contactPerson := "Sara"; types.ownerPhone := "0911000000";
     types.companyEmail := "info@acme.et"; types.companyWebsite := "";
     types.projectStatus := "Planning"; types.employeesMale := 1;
     types.employeesFemale := 2; types.employeesTotal := 99;
     types.createdAt := "1970-01-01T00:00:01.000Z";
     types.updatedAt := "1970-01-01T00:00:01.000Z" |}.

(** A project stored with an empty sector, as a request that does not come
    from the form can leave it. *)
Definition noSector : types.Project :=
  {| types.id := "7"; types.companyName := "Acme"; types.sector := "";
     types.subSector := "Minerals"; types.region := "Afar";
     types.zone := "Zone 1"; types.woreda := "Woreda 3";
     types.approvalDate := "2024-01-01"; types.owner := "Abebe";
     types.advisorCompany := ""; types.evaluator := ""; types.grantedBy := "";
     types.contactPerson := "Sara"; types.ownerPhone := "0911000000";
     types.companyEmail := "info@acme.et"; types.companyWebsite := "";
     types.projectStatus := "Planning"; types.employeesMale := 0;
     types.employeesFemale := 0; types.employeesTotal := 0;
     types.createdAt := "1970-01-01T00:00:02.000Z";
     types.updatedAt := "1970-01-01T00:00:02.000Z" |}.

(** The two sample projects with their counts made consistent, and a third
    one of the same company, stored later. *)
Definition acmeCounted : types.Project :=
  {| types.id := "1000"; types.companyName := "ACME"; types.sector := "Health";
     types.subSector := "Agroprocessing"; types.region := "Afar";
     types.zone := "Zone 1"; types.woreda := "Woreda 3";
     types.approvalDate := "2024-01-01"; types.owner := "Abebe";
     types.advisorCompany := ""; types.evaluator := ""; types.grantedBy := "";
     types.contactPerson := "Sara"; types.ownerPhone := "0911000000";
     types.companyEmail := "info@acme.et"; types.companyWebsite := "";
     types.projectStatus := "Planning"; types.employeesMale := 1;
     types.employeesFemale := 2; types.employeesTotal := 3;
     types.createdAt := "1970-01-01T00:00:01.000Z";
     types.updatedAt := "1970-01-01T00:00:01.000Z" |}.

(** A stored record whose total is not the sum of its counts: five men, no
    woman and a total of zero. *)
Definition uncounted : types.Project :=
  {| types.id := "1001"; types.companyName := "Beta"; types.sector := "Industry";
     types.subSector := "Minerals"; types.region := "Afar";
     types.zone := "Zone 1"; types.woreda := "Woreda 3";
     types.approvalDate := "2024-01-02"; types.owner := "Abebe";
     types.advisorCompany := ""; types.evaluator := ""; types.grantedBy := "";
     types.contactPerson := "Sara"; types.ownerPhone := "0911000000";
     types.companyEmail := "info@beta.et"; types.companyWebsite := "";
     types.projectStatus := "Planning"; types.employeesMale := 5;
     types.employeesFemale := 0; types.employeesTotal := 0;
     types.createdAt := "1970-01-01T00:00:01.001Z";
     types.updatedAt := "1970-01-01T00:00:01.001Z" |}.

(** The form opened on [acmeProject], and the same with a sector made of one
    space. *)
Definition acmeForm : ProjectForm.State :=
  ProjectForm.openProject (Some acmeProject) (Some metadata) ProjectForm.initialState.

Definition blankSector : ProjectForm.State :=
  ProjectForm.handleChange decimal "sector" " " acmeForm.

(** A translation table that knows one message. *)
Definition english (key : string) : string :=
  if decide (key = "form.required") then "This field is required" else key.

(** ** Part II. Theorems *)

(** *** JavaScript helpers *)

Example toISOString_epoch : Js.toISOString 0 = "1970-01-01T00:00:00.000Z".
Proof. vm_compute. reflexivity. Qed.
Example toISOString_2023 : Js.toISOString 1700000000123 = "2023-11-14T22:13:20.123Z".
Proof. vm_compute. reflexivity. Qed.
Example toISOString_leap : Js.toISOString 951782400000 = "2000-02-29T00:00:00.000Z".
Proof. vm_compute. reflexivity. Qed.
Example toISOString_before : Js.toISOString (-1) = "1969-12-31T23:59:59.999Z".
Proof. vm_compute. reflexivity. Qed.
Example toISOString_first : Js.toISOString (-62167219200000) = "0000-01-01T00:00:00.000Z".
Proof. vm_compute. reflexivity. Qed.
Example toISOString_last : Js.toISOString 253402300799999 = "9999-12-31T23:59:59.999Z".
Proof. vm_compute. reflexivity. Qed.
Example toISOString_far : Js.toISOString 8640000000000000 = "+275760-09-13T00:00:00.000Z".
Proof. vm_compute. reflexivity. Qed.
Example number_samples :
  Js.number 3 = 3%float
  ∧ Js.number (-5) = (-5)%float
  ∧ Js.number (2 ^ 53 + 1) = 9007199254740992%float
  ∧ (Js.number 1 / Js.number 2 * 100)%float = 50%float
  ∧ (Js.number 0 / Js.number 0)%float = nan
  ∧ (Js.number 5 / Js.number 0)%float = infinity
  ∧ (Js.number (-5) / Js.number 0)%float = neg_infinity.
Proof. split_and!; reflexivity. Qed.
Example trim_sample : Js.trim "  a b   " = "a b".
Proof. reflexivity. Qed.
Example toLowerCase_sample : Js.toLowerCase "AcMe Ltd." = "acme ltd.".
Proof. reflexivity. Qed.
Example includes_sample :
  Js.includes "employees" "employeesMale" = true ∧ Js.includes "employees" "owner" = false.
Proof. split; reflexivity. Qed.
Example email_samples :
  Js.test ProjectForm.emailPattern "info@acme.et" = true
  ∧ Js.test ProjectForm.emailPattern "say x@y.z now" = true
  ∧ Js.test ProjectForm.emailPattern "info@acme" = false
  ∧ Js.test ProjectForm.emailPattern "info @acme.et" = false
  ∧ Js.test ProjectForm.emailPattern "@acme.et" = false
  ∧ Js.test ProjectForm.emailPattern "a@b." = false.
Proof. vm_compute. repeat split. Qed.

(** *** The regular expression matcher *)

Lemma app_empty_l (s : string) : "" +:+ s = s.
Proof. reflexivity. Qed.

Lemma app_String (c : ascii) (s1 s2 : string) : String c s1 +:+ s2 = String c (s1 +:+ s2).
Proof. reflexivity. Qed.

Lemma app_empty_inv (s1 s2 : string) : s1 +:+ s2 = "" → s1 = "" ∧ s2 = "".
Proof. destruct s1; [by rewrite app_empty_l | by rewrite app_String]. Qed.

Lemma void_inv (s : string) : ¬ inLanguage Js.Void s.
Proof. inversion 1. Qed.

Lemma eps_inv (s : string) : inLanguage Js.Eps s → s = "".
Proof. by inversion 1. Qed.

Lemma class_inv (p : ascii → bool) (s : string) :
  inLanguage (Js.Class p) s → ∃ c, s = String c "" ∧ p c = true.
Proof. inversion 1; subst. eauto. Qed.

Lemma cat_inv (r1 r2 : Js.regex) (s : string) :
  inLanguage (Js.Cat r1 r2) s →
  ∃ s1 s2, s = s1 +:+ s2 ∧ inLanguage r1 s1 ∧ inLanguage r2 s2.
Proof. inversion 1; subst. eauto. Qed.

Lemma alt_inv (r1 r2 : Js.regex) (s : string) :
  inLanguage (Js.Alt r1 r2) s → inLanguage r1 s ∨ inLanguage r2 s.
Proof. inversion 1; subst; eauto. Qed.

Lemma nullable_spec (r : Js.regex) : Js.nullable r = true ↔ inLanguage r "".
Proof.
  induction r as [| |p|r1 IH1 r2 IH2|r1 IH1 r2 IH2|r IH]; simpl.
  - split; [done | by intros ?%void_inv].
  - split; [constructor | done].
  - split; [done | by intros (c & ? & _)%class_inv].
  - rewrite andb_true_iff, IH1, IH2. split.
    + intros [H1 H2]. exact (in_cat _ _ "" "" H1 H2).
    + intros (s1 & s2 & E & H1 & H2)%cat_inv.
      symmetry in E. apply app_empty_inv in E as [-> ->]. done.
  - rewrite orb_true_iff, IH1, IH2. split.
    + intros [H|H]; [by apply in_alt_l | by apply in_alt_r].
    + apply alt_inv.
  - split; [constructor | done].
Qed.

(** A word of a starred expression that starts with [c] starts with a word of
    the expression that starts with [c]. *)
Lemma star_cons_inv (r : Js.regex) (c : ascii) (s : string) :
  inLanguage (Js.Star r) (String c s) →
  ∃ s1 s2, s = s1 +:+ s2 ∧ inLanguage r (String c s1) ∧ inLanguage (Js.Star r) s2.
Proof.
  intros H. remember (Js.Star r) as r' eqn:Hr. remember (String c s) as w eqn:Hw.
  revert Hr Hw.
  induction H as [| | | | | |r0 s1 s2 H1 _ H2 IH2]; intros Hr Hw; try discriminate.
  assert (r0 = r) as -> by congruence.
  destruct s1 as [|c1 s1]; rewrite ?app_empty_l, ?app_String in Hw.
  - by apply IH2.
  - injection Hw as -> <-. by exists s1, s2.
Qed.

Lemma deriv_spec (r : Js.regex) (c : ascii) (s : string) :
  inLanguage (Js.deriv c r) s ↔ inLanguage r (String c s).
Proof.
  revert s. induction r as [| |p|r1 IH1 r2 IH2|r1 IH1 r2 IH2|r IH]; intros s; simpl.
  - split; by intros ?%void_inv.
  - split; [by intros ?%void_inv | by intros ?%eps_inv].
  - destruct (p c) eqn:Hp.
    + split.
      * intros ->%eps_inv. by constructor.
      * intros (c' & [= -> ->] & _)%class_inv. constructor.
    + split; [by intros ?%void_inv|].
      intros (c' & [= -> ->] & ?)%class_inv. congruence.
  - assert (inLanguage (Js.Cat (Js.deriv c r1) r2) s →
            inLanguage (Js.Cat r1 r2) (String c s)) as Hleft.
    { intros (s1 & s2 & -> & H1 & H2)%cat_inv.
      apply IH1 in H1. exact (in_cat _ _ (String c s1) s2 H1 H2). }
    assert (inLanguage (Js.Cat r1 r2) (String c s) →
            inLanguage (Js.Cat (Js.deriv c r1) r2) s
            ∨ (Js.nullable r1 = true ∧ inLanguage (Js.deriv c r2) s)) as Hright.
    { intros (s1 & s2 & E & H1 & H2)%cat_inv.
      destruct s1 as [|c1 s1]; rewrite ?app_empty_l, ?app_String in E.
      - subst s2. right. split; [by apply nullable_spec | by apply IH2].
      - injection E as -> ->. left. apply in_cat; [by apply IH1 | done]. }
    destruct (Js.nullable r1) eqn:Hn.
    + split.
      * intros [H|H]%alt_inv; [by apply Hleft|].
        apply (in_cat _ _ "" (String c s)); [by apply nullable_spec | by apply IH2].
      * intros H. destruct (Hright H) as [?|[_ ?]]; [by apply in_alt_l | by apply in_alt_r].
    + split; [exact Hleft|]. intros H. destruct (Hright H) as [?|[? _]]; done.
  - split.
    + intros [H|H]%alt_inv; [apply in_alt_l; by apply IH1 | apply in_alt_r; by apply IH2].
    + intros [H|H]%alt_inv; [apply in_alt_l; by apply IH1 | apply in_alt_r; by apply IH2].
  - split.
    + intros (s1 & s2 & -> & H1 & H2)%cat_inv. apply IH in H1.
      exact (in_star_cons _ (String c s1) s2 H1 H2).
    + intros (s1 & s2 & -> & H1 & H2)%star_cons_inv.
      apply in_cat; [by apply IH | done].
Qed.

Lemma fullMatch_spec (r : Js.regex) (s : string) :
  Js.fullMatch r s = true ↔ inLanguage r s.
Proof.
  revert r. induction s as [|c s IH]; intros r; simpl.
  - apply nullable_spec.
  - rewrite IH. apply deriv_spec.
Qed.

Lemma app_assoc_string (s1 s2 s3 : string) : (s1 +:+ s2) +:+ s3 = s1 +:+ (s2 +:+ s3).
Proof.
  induction s1 as [|c s1 IH]; [done|]. by rewrite !app_String, IH.
Qed.

Lemma star_class_spec (p : ascii → bool) (s : string) :
  inLanguage (Js.Star (Js.Class p)) s ↔ Js.every p s = true.
Proof.
  split.
  - intros H. remember (Js.Star (Js.Class p)) as r eqn:Hr.
    induction H as [| | | | | |r0 s1 s2 H1 _ H2 IH2]; try discriminate; [done|].
    injection Hr as ->. apply class_inv in H1 as (c & -> & Hc).
    rewrite app_String, app_empty_l. cbn [Js.every]. rewrite Hc. by apply IH2.
  - induction s as [|c s IH]; [constructor|].
    intros [Hc Hs]%andb_true_iff.
    apply (in_star_cons _ (String c "") s); [by constructor | by apply IH].
Qed.

Lemma star_any (s : string) : inLanguage (Js.Star Js.Any) s.
Proof. apply star_class_spec. by induction s. Qed.

Lemma plus_nonSpace_spec (s : string) :
  inLanguage (Js.Plus Js.NonSpace) s ↔ nonSpaces s.
Proof.
  unfold Js.Plus, Js.NonSpace, nonSpaces. split.
  - intros (s1 & s2 & -> & (c & -> & Hc)%class_inv & H2%star_class_spec)%cat_inv.
    rewrite app_String, app_empty_l. split; [done|].
    cbn [Js.every]. rewrite Hc. exact H2.
  - intros [Hne Hall]. destruct s as [|c s]; [done|].
    cbn [Js.every] in Hall. apply andb_true_iff in Hall as [Hc Hs].
    apply (in_cat _ _ (String c "") s); [by constructor|].
    by apply star_class_spec.
Qed.

Lemma chr_spec (a : ascii) (s : string) : inLanguage (Js.Chr a) s ↔ s = String a "".
Proof.
  unfold Js.Chr. split.
  - intros (c & -> & Hc%bool_decide_eq_true)%class_inv. by subst.
  - intros ->. constructor. by apply bool_decide_eq_true.
Qed.

(** [test] holds exactly when some substring is in the language. *)
Lemma test_spec (r : Js.regex) (s : string) :
  Js.test r s = true ↔ ∃ pre m post, s = pre +:+ m +:+ post ∧ inLanguage r m.
Proof.
  unfold Js.test. rewrite fullMatch_spec. split.
  - intros (pre & s' & -> & _ & (m & post & -> & Hm & _)%cat_inv)%cat_inv.
    by exists pre, m, post.
  - intros (pre & m & post & -> & Hm).
    apply in_cat; [apply star_any|]. apply in_cat; [done | apply star_any].
Qed.

(** Property X10.  The pattern of the e-mail check of [validateForm] has
    no anchors: it accepts exactly the strings that hold, somewhere, one or
    more characters that are no white space, an at sign, one or more such
    characters, a dot and one or more such characters, whatever stands
    before and after. *)
Lemma test_emailPattern_spec (s : string) :
  Js.test ProjectForm.emailPattern s = true ↔
  ∃ pre a b c post,
    s = pre +:+ a +:+ "@" +:+ b +:+ "." +:+ c +:+ post
    ∧ nonSpaces a ∧ nonSpaces b ∧ nonSpaces c.
Proof.
  rewrite test_spec. unfold ProjectForm.emailPattern. split.
  - intros (pre & m & post & -> & Hm).
    apply cat_inv in Hm as (a & m1 & -> & Ha%plus_nonSpace_spec & Hm).
    apply cat_inv in Hm as (at_ & m2 & -> & ->%chr_spec & Hm).
    apply cat_inv in Hm as (b & m3 & -> & Hb%plus_nonSpace_spec & Hm).
    apply cat_inv in Hm as (dot & c & -> & ->%chr_spec & Hc%plus_nonSpace_spec).
    exists pre, a, b, c, post. split_and!; try done.
    by rewrite !app_assoc_string.
  - intros (pre & a & b & c & post & -> & Ha & Hb & Hc).
    exists pre, (a +:+ "@" +:+ b +:+ "." +:+ c), post. split.
    { by rewrite !app_assoc_string. }
    apply in_cat; [by apply plus_nonSpace_spec|].
    apply in_cat; [by apply chr_spec|].
    apply in_cat; [by apply plus_nonSpace_spec|].
    apply in_cat; [by apply chr_spec | by apply plus_nonSpace_spec].
Qed.

(** *** The calendar of the timestamps *)

(** Linear arithmetic with quotients and remainders by constants. *)
Ltac quotients := Z.div_mod_to_equations; lia.

Lemma dayOfEra_bounds (days : Z) : 0 <= Js.dayOfEra days < 146097.
Proof. unfold Js.dayOfEra. apply Z.mod_pos_bound. lia. Qed.

Lemma era_split (days : Z) : days + 719468 = Js.eraOf days * 146097 + Js.dayOfEra days.
Proof. unfold Js.eraOf, Js.dayOfEra. quotients. Qed.

Lemma yearOfEra_bounds (doe : Z) :
  0 <= doe < 146097 →
  0 <= Js.yearOfEra doe <= 399 ∧ 0 <= Js.dayOfYear doe <= 365.
Proof. unfold Js.dayOfYear, Js.yearOfEra. intros H. quotients. Qed.

Lemma yearOfEra_mono (a b : Z) :
  0 <= a → a < b → b < 146097 →
  Js.yearOfEra a < Js.yearOfEra b
  ∨ (Js.yearOfEra a = Js.yearOfEra b ∧ Js.dayOfYear a < Js.dayOfYear b).
Proof.
  unfold Js.dayOfYear, Js.yearOfEra. intros. quotients.
Qed.

(** From March to December the month is in the year that started, in
    January and February in the next one. *)
Lemma monthNumber_cases (mp : Z) :
  (mp < 10 ∧ Js.monthNumber mp = mp + 3 ∧ Js.yearCarry (Js.monthNumber mp) = 0)
  ∨ (10 <= mp <= 11 ∧ Js.monthNumber mp = mp - 9
     ∧ Js.yearCarry (Js.monthNumber mp) = 1)
  ∨ mp < 0 ∨ 11 < mp.
Proof.
  unfold Js.monthNumber, Js.yearCarry. destruct (Z.ltb_spec mp 10) as [Hlt|Hge].
  - destruct (Z.leb_spec (mp + 3) 2); lia.
  - destruct (Z.leb_spec (mp - 9) 2); lia.
Qed.

Lemma monthIndex_bounds (doy : Z) : 0 <= doy <= 365 → 0 <= Js.monthIndex doy <= 11.
Proof. unfold Js.monthIndex. intros H. quotients. Qed.

Lemma monthKey_bounds (doy : Z) :
  0 <= doy <= 365 →
  let mp := Js.monthIndex doy in
  301 <= monthKey doy <= 10229
  ∧ 1 <= Js.monthNumber mp <= 12
  ∧ 1 <= doy - (153 * mp + 2) `div` 5 + 1 <= 31.
Proof.
  intros H mp. pose proof (monthIndex_bounds doy H) as Hmp. unfold monthKey. fold mp.
  destruct (monthNumber_cases mp) as [(? & -> & ->)|[(? & -> & ->)|?]]; [| |lia];
    unfold mp, Js.monthIndex in *; quotients.
Qed.

Lemma monthKey_lt (a b : Z) : 0 <= a → a < b → b <= 365 → monthKey a < monthKey b.
Proof.
  intros Ha Hab Hb.
  pose proof (monthIndex_bounds a ltac:(lia)) as Hma.
  pose proof (monthIndex_bounds b ltac:(lia)) as Hmb.
  unfold monthKey. cbv zeta.
  destruct (monthNumber_cases (Js.monthIndex a)) as [(? & -> & ->)|[(? & -> & ->)|?]];
    [| |lia];
    (destruct (monthNumber_cases (Js.monthIndex b)) as [(? & -> & ->)|[(? & -> & ->)|?]];
     [| |lia]);
    unfold Js.monthIndex in *; quotients.
Qed.

Lemma dateKey_split (days : Z) :
  dateKey days
  = Js.eraOf days * 4000000 + Js.yearOfEra (Js.dayOfEra days) * 10000
    + monthKey (Js.dayOfYear (Js.dayOfEra days)).
Proof. unfold dateKey, Js.yearOf, Js.monthOf, Js.dayOf, monthKey. lia. Qed.

Lemma dateKey_lt (a b : Z) : a < b → dateKey a < dateKey b.
Proof.
  intros Hab. rewrite !dateKey_split.
  pose proof (era_split a) as Ea. pose proof (era_split b) as Eb.
  pose proof (dayOfEra_bounds a) as Ha. pose proof (dayOfEra_bounds b) as Hb.
  destruct (yearOfEra_bounds _ Ha) as [Hya Hda].
  destruct (yearOfEra_bounds _ Hb) as [Hyb Hdb].
  destruct (monthKey_bounds _ Hda) as (Hka & _).
  destruct (monthKey_bounds _ Hdb) as (Hkb & _).
  destruct (Z.lt_trichotomy (Js.eraOf a) (Js.eraOf b)) as [He|[He|He]]; [lia| |lia].
  assert (Js.dayOfEra a < Js.dayOfEra b) as Hdoe by lia.
  destruct (yearOfEra_mono _ _ (proj1 Ha) Hdoe (proj2 Hb)) as [Hy|[Hy Hd]]; [lia|].
  pose proof (monthKey_lt _ _ (proj1 Hda) Hd (proj2 Hdb)). lia.
Qed.

(** *** Fixed-width numerals compare as numbers *)

Lemma ascii_compare_refl (c : ascii) : Ascii.compare c c = Eq.
Proof. unfold Ascii.compare. apply N.compare_refl. Qed.

Lemma string_compare_refl (s : string) : String.compare s s = Eq.
Proof. induction s as [|c s IH]; [done|]. simpl. by rewrite ascii_compare_refl. Qed.

Lemma digit_compare (a b : Z) :
  0 <= a < 10 → 0 <= b < 10 →
  Ascii.compare (Js.digit a) (Js.digit b) = (a ?= b).
Proof.
  intros Ha Hb. unfold Ascii.compare, Js.digit.
  rewrite !N_ascii_embedding by lia.
  rewrite Z2N.inj_compare by lia. apply Z.add_compare_mono_l.
Qed.

Lemma length_digits (w : nat) (n : Z) : String.length (Js.digits w n) = w.
Proof. induction w as [|w IH]; [done|]. simpl. by rewrite IH. Qed.

Lemma digits_compare_lt (w : nat) (a b : Z) :
  a `mod` 10 ^ Z.of_nat w < b `mod` 10 ^ Z.of_nat w →
  String.compare (Js.digits w a) (Js.digits w b) = Lt.
Proof.
  induction w as [|w IH].
  - rewrite !Z.mod_1_r. lia.
  - replace (Z.of_nat (S w)) with (Z.of_nat w + 1) by lia.
    rewrite Z.pow_add_r, Z.pow_1_r by lia.
    set (P := 10 ^ Z.of_nat w) in *.
    assert (0 < P) as HP by (apply Z.pow_pos_nonneg; lia).
    rewrite !Z.rem_mul_r by lia.
    pose proof (Z.mod_pos_bound a P HP) as Ha.
    pose proof (Z.mod_pos_bound b P HP) as Hb.
    pose proof (Z.mod_pos_bound (a `div` P) 10 ltac:(lia)) as Hda.
    pose proof (Z.mod_pos_bound (b `div` P) 10 ltac:(lia)) as Hdb.
    intros Hlt. cbn [Js.digits String.compare]. fold P.
    rewrite digit_compare by done.
    destruct (Z.compare_spec ((a `div` P) `mod` 10) ((b `div` P) `mod` 10)) as [E|L|G].
    + apply IH. fold P. rewrite E in Hlt. lia.
    + done.
    + exfalso. nia.
Qed.

Lemma compare_app (x y r1 r2 : string) :
  String.length x = String.length y →
  String.compare (x +:+ r1) (y +:+ r2)
  = match String.compare x y with Eq => String.compare r1 r2 | c => c end.
Proof.
  revert y. induction x as [|c x IH]; intros [|d y] Hlen; try done.
  rewrite !app_String. cbn [String.compare]. destruct (Ascii.compare c d); try done.
  apply IH. by injection Hlen.
Qed.

(** Two timestamps that first differ in a field of [w] digits. *)
Lemma field_lt (w : nat) (a b : Z) (r1 r2 : string) :
  0 <= a → a < b → b < 10 ^ Z.of_nat w →
  String.compare (Js.digits w a +:+ r1) (Js.digits w b +:+ r2) = Lt.
Proof.
  intros Ha Hab Hb. rewrite compare_app by by rewrite !length_digits.
  rewrite digits_compare_lt; [done|]. rewrite !Z.mod_small by lia. done.
Qed.

Lemma field_eq (w : nat) (a : Z) (r1 r2 : string) :
  String.compare (Js.digits w a +:+ r1) (Js.digits w a +:+ r2) = String.compare r1 r2.
Proof. rewrite compare_app by done. by rewrite string_compare_refl. Qed.

Lemma separator_eq (c : ascii) (r1 r2 : string) :
  String.compare (String c "" +:+ r1) (String c "" +:+ r2) = String.compare r1 r2.
Proof.
  rewrite !app_String, !app_empty_l. cbn [String.compare]. by rewrite ascii_compare_refl.
Qed.

(** *** ISO timestamps order as instants *)

Lemma calendar_bounds (days : Z) :
  1 <= Js.monthOf days <= 12 ∧ 1 <= Js.dayOf days <= 31.
Proof.
  destruct (yearOfEra_bounds _ (dayOfEra_bounds days)) as [_ Hdoy].
  destruct (monthKey_bounds _ Hdoy) as (_ & Hm & Hd).
  unfold Js.monthOf, Js.dayOf. cbv zeta in *. done.
Qed.

Lemma fourDigitYear_year (ms : Z) :
  fourDigitYear ms → 0 <= Js.yearOf (ms `div` 86400000) <= 9999.
Proof.
  unfold fourDigitYear. intros H. set (days := ms `div` 86400000).
  assert (-719528 <= days <= 2932896) as Hdays.
  { unfold days. quotients. }
  assert (dateKey (-719528) <= dateKey days) as Hlo.
  { destruct (Z.eq_dec (-719528) days) as [<-|]; [lia|].
    apply Z.lt_le_incl, dateKey_lt. lia. }
  assert (dateKey days <= dateKey 2932896) as Hhi.
  { destruct (Z.eq_dec days 2932896) as [->|]; [lia|].
    apply Z.lt_le_incl, dateKey_lt. lia. }
  replace (dateKey (-719528)) with 101 in Hlo by (vm_compute; reflexivity).
  replace (dateKey 2932896) with 99991231 in Hhi by (vm_compute; reflexivity).
  pose proof (calendar_bounds days). unfold dateKey in *. lia.
Qed.

Lemma toISOString_lt (t1 t2 : Z) :
  fourDigitYear t1 → fourDigitYear t2 → t1 < t2 →
  String.compare (Js.toISOString t1) (Js.toISOString t2) = Lt.
Proof.
  intros H1 H2 Hlt. unfold Js.toISOString, Js.yearText. cbv zeta.
  pose proof (fourDigitYear_year t1 H1) as Hy1.
  pose proof (fourDigitYear_year t2 H2) as Hy2.
  set (d1 := t1 `div` 86400000) in *. set (d2 := t2 `div` 86400000) in *.
  set (r1 := t1 `mod` 86400000). set (r2 := t2 `mod` 86400000).
  assert (0 <= r1 < 86400000 ∧ 0 <= r2 < 86400000) as [Hr1 Hr2].
  { unfold r1, r2. split; apply Z.mod_pos_bound; lia. }
  assert (d1 < d2 ∨ (d1 = d2 ∧ r1 < r2)) as Hcase.
  { unfold d1, d2, r1, r2. quotients. }
  assert (∀ y, 0 <= y <= 9999 → (0 <=? y) && (y <=? 9999) = true) as Hfour.
  { intros y Hy. apply andb_true_iff. split; apply Z.leb_le; lia. }
  rewrite !Hfour by done.
  pose proof (calendar_bounds d1) as [Hm1 Hdd1].
  pose proof (calendar_bounds d2) as [Hm2 Hdd2].
  destruct Hcase as [Hd|[Hd Hr]].
  - pose proof (dateKey_lt d1 d2 Hd) as Hkey. unfold dateKey in Hkey.
    destruct (Z.lt_trichotomy (Js.yearOf d1) (Js.yearOf d2)) as [Hy|[Hy|Hy]]; [|   |lia].
    { apply field_lt; lia. }
    rewrite Hy, field_eq, separator_eq.
    destruct (Z.lt_trichotomy (Js.monthOf d1) (Js.monthOf d2)) as [Hm|[Hm|Hm]]; [| |lia].
    { apply field_lt; lia. }
    rewrite Hm, field_eq, separator_eq.
    apply field_lt; lia.
  - rewrite Hd, !field_eq, !separator_eq, !field_eq, !separator_eq, field_eq, separator_eq.
    clearbody r1 r2.
    destruct (Z.lt_trichotomy (r1 `div` 3600000) (r2 `div` 3600000)) as [Hh|[Hh|Hh]].
    { apply field_lt; quotients. }
    2: { exfalso. quotients. }
    rewrite Hh, field_eq, separator_eq.
    destruct (Z.lt_trichotomy ((r1 `mod` 3600000) `div` 60000)
                ((r2 `mod` 3600000) `div` 60000)) as [Hmi|[Hmi|Hmi]].
    { apply field_lt; quotients. }
    2: { exfalso. quotients. }
    rewrite Hmi, field_eq, separator_eq.
    destruct (Z.lt_trichotomy ((r1 `mod` 60000) `div` 1000)
                ((r2 `mod` 60000) `div` 1000)) as [Hs|[Hs|Hs]].
    { apply field_lt; quotients. }
    2: { exfalso. quotients. }
    rewrite Hs, field_eq, separator_eq.
    apply field_lt; quotients.
Qed.

(** *** The database layer *)

Example affinity_samples :
  affinity "id" (Some (VStr "my-id")) = Some (VStr "my-id")
  ∧ affinity "id" (Some (VNum 7)) = Some (VStr "7")
  ∧ affinity "id" (Some VNull) = None
  ∧ affinity "advisorCompany" None = None
  ∧ affinity "employeesMale" (Some (VNum 5)) = Some (VNum 5)
  ∧ affinity "employeesMale" (Some (VStr "5")) = Some (VNum 5)
  ∧ affinity "employeesMale" (Some (VStr "five")) = Some (VStr "five").
Proof. split_and!; reflexivity. Qed.

Lemma affinity_typed {sqlite : Sqlite} (column : string) (v : value) :
  hasColumnType column v → affinity column (Some v) = Some v.
Proof.
  destruct v as [s|n|]; cbn [hasColumnType affinity]; intros Hv.
  - by rewrite decide_False.
  - by rewrite decide_True.
  - done.
Qed.

Lemma affinity_None {sqlite : Sqlite} (column : string) (bound : option value) :
  affinity column bound = None ↔ bound = None ∨ bound = Some VNull.
Proof.
  destruct bound as [[s|n|]|]; cbn [affinity]; try case_decide.
  all: split; [intros Hn | intros [Hn|Hn]]; try discriminate Hn; auto.
Qed.

(** A column declared TEXT holds a text or NULL, whatever was bound. *)
Lemma affinity_text {sqlite : Sqlite} (column : string) (bound : option value) (v : value) :
  column ∉ integerColumns → affinity column bound = Some v → ∃ s, v = VStr s.
Proof.
  intros Hc. destruct bound as [[s|n|]|]; cbn [affinity]; try done;
    rewrite decide_False by done; intros [= <-]; eauto.
Qed.

Lemma affinity_supplied {sqlite : Sqlite} (column : string) (bound : option value) :
  column ∉ integerColumns →
  is_Some (affinity column bound) ↔ is_Some bound ∧ bound ≠ Some VNull.
Proof.
  intros Hc. destruct bound as [[s|n|]|]; cbn [affinity];
    rewrite ?decide_False by done.
  - split; [by intros _ | by eauto].
  - split; [by intros _ | by eauto].
  - split; [by intros [? [=]] | by intros [_ ?]].
  - split; [by intros [? [=]] | by intros [[? [=]] _]].
Qed.

Lemma notNull_text k : k ∈ dbOperations.notNull → k ∉ integerColumns.
Proof. revert k. apply Forall_forall. compute_done. Qed.

Lemma bind_lookup {sqlite : Sqlite} (cols : list string) (project row : object) (k : string) :
  bind cols project row !! k
  = if decide (k ∈ cols) then affinity k (project !! k) else row !! k.
Proof.
  induction cols as [|c cols IH].
  - done.
  - cbn [bind foldr]. rewrite lookup_partial_alter. fold (bind cols project row).
    destruct (decide (c = k)) as [->|Hne].
    + rewrite decide_True; [done | left].
    + rewrite IH. destruct (decide (k ∈ cols)) as [Hin|Hout].
      * rewrite decide_True; [done | by right].
      * rewrite decide_False; [done |]. intros [->|?]%elem_of_cons; done.
Qed.

Lemma no_row_has_id_filter (id : string) (db : table) :
  (∀ r, r ∈ db → ¬ dbOperations.hasId id r) →
  filter (dbOperations.hasId id) db = [] ∧ filter (λ r, ¬ dbOperations.hasId id r) db = db.
Proof.
  induction db as [|r db IH]; intros H; [done|].
  destruct IH as [IH1 IH2]; [intros r' Hr'; apply H; by right|].
  assert (¬ dbOperations.hasId id r) as Hr by (apply H; left).
  split.
  - by rewrite filter_cons_False.
  - rewrite filter_cons_True; [by rewrite IH2 | done].
Qed.

(** An UPDATE whose WHERE clause selects no row leaves the table as it is and
    raises no error. *)
Lemma update_no_match {sqlite : Sqlite} (now : Z) (id : string) (project : object) (db : table) :
  (∀ r, r ∈ db → ¬ dbOperations.hasId id r) →
  dbOperations.updateProject now id project db = (resolve None, db).
Proof.
  intros H. unfold dbOperations.updateProject.
  assert (((λ r, if decide (dbOperations.hasId id r)
                 then dbOperations.updatedRow now project r else r) <$> db) = db) as Hmap.
  { induction db as [|r db IH]; [done|]. cbn [fmap list_fmap].
    rewrite decide_False; [|apply H; left]. f_equal. apply IH.
    intros r' Hr'. apply H. by right. }
  assert (forallb (λ r, if decide (dbOperations.hasId id r)
                        then dbOperations.notNullOk
                               ("updatedAt" :: dbOperations.updateColumns)
                               (dbOperations.updatedRow now project r)
                        else true) db = true) as ->.
  { apply forallb_forall. intros r Hr%list_elem_of_In.
    rewrite decide_False; [done | by apply H]. }
  rewrite Hmap. destruct (no_row_has_id_filter id db H) as [-> _]. done.
Qed.

Lemma sqlLe_total (a b : option value) :
  dbOperations.sqlLe a b = true ∨ dbOperations.sqlLe b a = true.
Proof.
  destruct a as [[s|x|]|], b as [[t|y|]|]; simpl; auto.
  - apply String.leb_total.
  - destruct (Z.leb_spec x y); [by left | right; apply Z.leb_le; lia].
Qed.

Lemma sqlLe_trans (a b c : option value) :
  dbOperations.sqlLe a b = true → dbOperations.sqlLe b c = true →
  dbOperations.sqlLe a c = true.
Proof.
  destruct a as [[s|x|]|], b as [[t|y|]|], c as [[u|z|]|]; simpl; try done.
  - intros H1 H2. apply Is_true_true. apply Is_true_true in H1, H2.
    exact (transitivity (R := String.le) H1 H2).
  - intros H1%Z.leb_le H2%Z.leb_le. apply Z.leb_le. lia.
Qed.

Global Instance createdAtDesc_total : Total dbOperations.createdAtDesc.
Proof.
  intros r1 r2. unfold dbOperations.createdAtDesc.
  destruct (sqlLe_total (r2 !! "createdAt") (r1 !! "createdAt")) as [H|H];
    rewrite H; [by left | by right].
Qed.

Global Instance createdAtDesc_trans : Transitive dbOperations.createdAtDesc.
Proof.
  intros r1 r2 r3. unfold dbOperations.createdAtDesc.
  intros H1%Is_true_true H2%Is_true_true. apply Is_true_true.
  by eapply sqlLe_trans.
Qed.

(** In a sorted list any earlier element is related to any later one. *)
Lemma StronglySorted_before {A : Type} (R : relation A) (l : list A) (i j : nat) (x y : A) :
  StronglySorted R l → (i < j)%nat → l !! i = Some x → l !! j = Some y → R x y.
Proof.
  intros Hl. revert i j. induction Hl as [|a l Hl IH Ha]; intros i j Hij Hi Hj; [done|].
  destruct j as [|j]; [lia|]. cbn in Hj. destruct i as [|i]; cbn in Hi.
  - injection Hi as ->. rewrite Forall_forall in Ha. apply Ha.
    by eapply list_elem_of_lookup_2.
  - apply (IH i j); [lia | done..].
Qed.

(** A row created later does not sort before a row created earlier. *)
Lemma createdAtDesc_instants (r1 r2 : object) (t1 t2 : Z) :
  dbOperations.createdAtDesc r1 r2 →
  r1 !! "createdAt" = Some (VStr (Js.toISOString t1)) →
  r2 !! "createdAt" = Some (VStr (Js.toISOString t2)) →
  fourDigitYear t1 → fourDigitYear t2 → t2 <= t1.
Proof.
  unfold dbOperations.createdAtDesc. intros HR E1 E2 H1 H2. rewrite E1, E2 in HR.
  destruct (Z.le_gt_cases t2 t1) as [|Hlt]; [done|]. exfalso.
  pose proof (toISOString_lt t1 t2 H1 H2 Hlt) as Hcmp.
  cbn [dbOperations.sqlLe] in HR. unfold String.leb in HR.
  rewrite String.compare_antisym, Hcmp in HR. done.
Qed.

(** Claim C8.  [getAllProjects], and with it [GET /api/projects], returns
    every stored row, each as often as the table holds it, in an order in
    which no row comes after a row with a smaller [createdAt].  This is
    newest first: of two rows whose [createdAt] are the ISO texts of two
    instants with four-digit years, the one listed first was not created
    before the other. *)
Theorem getAllProjects_newest_first (db : table) :
  ∃ rows : list object,
    dbOperations.getAllProjects db = (resolve rows, db)
    ∧ rows ≡ₚ db
    ∧ StronglySorted dbOperations.createdAtDesc rows
    ∧ routes.getProjects db = ({| status := 200; body := JArray rows |}, db)
    ∧ (∀ (i j : nat) r1 r2 t1 t2,
         (i < j)%nat → rows !! i = Some r1 → rows !! j = Some r2 →
         r1 !! "createdAt" = Some (VStr (Js.toISOString t1)) →
         r2 !! "createdAt" = Some (VStr (Js.toISOString t2)) →
         fourDigitYear t1 → fourDigitYear t2 → t2 <= t1).
Proof.
  assert (StronglySorted dbOperations.createdAtDesc
            (merge_sort dbOperations.createdAtDesc db)) as Hsorted.
  { apply Sorted_StronglySorted; [apply _|]. apply Sorted_merge_sort. apply _. }
  exists (merge_sort dbOperations.createdAtDesc db). split_and!.
  - done.
  - apply merge_sort_Permutation.
  - exact Hsorted.
  - done.
  - intros i j r1 r2 t1 t2 Hij Hi Hj E1 E2 H1 H2.
    apply (createdAtDesc_instants r1 r2 t1 t2); try done.
    exact (StronglySorted_before _ _ i j r1 r2 Hsorted Hij Hi Hj).
Qed.

(** Claim C2, as amended.  For an id that no stored row has,
    [updateProject] resolves with [undefined] and [deleteProject] resolves
    with the success message; neither is rejected, both routes answer 200,
    and the table is left as it was. *)
Theorem missing_id_resolves {sqlite : Sqlite} (now : Z) (id : string) (project : object)
    (db : table) :
  (∀ r, r ∈ db → ¬ dbOperations.hasId id r) →
  dbOperations.updateProject now id project db = (resolve None, db)
  ∧ dbOperations.deleteProject id db = (resolve dbOperations.deleted, db)
  ∧ routes.putProject now id project db = ({| status := 200; body := JUndefined |}, db)
  ∧ routes.deleteProject id db
    = ({| status := 200; body := JObject dbOperations.deleted |}, db).
Proof.
  intros H.
  assert (dbOperations.deleteProject id db = (resolve dbOperations.deleted, db)) as Hdel.
  { unfold dbOperations.deleteProject. by destruct (no_row_has_id_filter id db H) as [_ ->]. }
  split_and!.
  - by apply update_no_match.
  - done.
  - unfold routes.putProject. by rewrite update_no_match.
  - unfold routes.deleteProject. by rewrite Hdel.
Qed.

Lemma acmeTable_has_no_42 : ∀ r, r ∈ acmeTable → ¬ dbOperations.hasId "42" r.
Proof.
  apply Forall_forall. compute_done.
Qed.

Lemma missing_id_resolves_witness :
  dbOperations.updateProject 2000 "42" acme acmeTable = (resolve None, acmeTable)
  ∧ dbOperations.deleteProject "42" acmeTable = (resolve dbOperations.deleted, acmeTable)
  ∧ routes.putProject 2000 "42" acme acmeTable
    = ({| status := 200; body := JUndefined |}, acmeTable)
  ∧ routes.deleteProject "42" acmeTable
    = ({| status := 200; body := JObject dbOperations.deleted |}, acmeTable).
Proof. apply missing_id_resolves. apply Forall_forall. compute_done. Defined.

(** Claim C2 as stated fails: no row of [acmeTable] has the id 42, and both
    operations on that id resolve; the routes answer 200. *)
Lemma missing_id_is_not_rejected :
  (∀ r, r ∈ acmeTable → ¬ dbOperations.hasId "42" r)
  ∧ ¬ rejected (dbOperations.updateProject 2000 "42" acme acmeTable).1
  ∧ ¬ rejected (dbOperations.deleteProject "42" acmeTable).1
  ∧ status (routes.putProject 2000 "42" acme acmeTable).1 = 200%nat
  ∧ status (routes.deleteProject "42" acmeTable).1 = 200%nat.
Proof.
  split; [apply acmeTable_has_no_42|].
  unfold routes.putProject, routes.deleteProject.
  pose proof (update_no_match 2000 "42" acme acmeTable acmeTable_has_no_42) as Hup.
  rewrite !Hup.
  unfold dbOperations.deleteProject.
  cbn [fst snd status].
  split_and!; try reflexivity; intros [e He]; discriminate.
Qed.

Lemma required_notNull k : k ∈ dbOperations.required → k ∈ dbOperations.notNull.
Proof. revert k. apply Forall_forall. compute_done. Qed.

Lemma required_updateColumns k : k ∈ dbOperations.required → k ∈ dbOperations.updateColumns.
Proof. revert k. apply Forall_forall. compute_done. Qed.

Lemma updateColumns_columns k : k ∈ dbOperations.updateColumns → k ∈ dbOperations.columns.
Proof. revert k. apply Forall_forall. compute_done. Qed.

Lemma notNull_columns k : k ∈ dbOperations.notNull → k ∈ dbOperations.columns.
Proof. revert k. apply Forall_forall. compute_done. Qed.

Lemma notNull_cases k :
  k ∈ dbOperations.notNull →
  k ∈ dbOperations.required ∨ k = "createdAt" ∨ k = "updatedAt".
Proof. revert k. apply Forall_forall. compute_done. Qed.

(** The properties of the object built by the POST route. *)
Lemma newProject_lookup (nowId nowCreated nowUpdated : Z) (reqBody : object) (k : string) :
  routes.newProject nowId nowCreated nowUpdated reqBody !! k =
    if decide (k = "updatedAt") then Some (VStr (Js.toISOString nowUpdated))
    else if decide (k = "createdAt") then Some (VStr (Js.toISOString nowCreated))
    else match reqBody !! k with
         | Some v => Some v
         | None => if decide (k = "id") then Some (VStr (Js.toString nowId)) else None
         end.
Proof.
  unfold routes.newProject, spread.
  rewrite lookup_insert. destruct (decide ("updatedAt" = k)) as [<-|H1].
  { by rewrite decide_True. }
  rewrite decide_False by done.
  rewrite lookup_insert. destruct (decide ("createdAt" = k)) as [<-|H2].
  { by rewrite decide_True. }
  rewrite decide_False by done.
  rewrite lookup_union, lookup_insert, lookup_empty.
  destruct (reqBody !! k) as [v|] eqn:Hk.
  { by case_decide. }
  destruct (decide ("id" = k)) as [<-|H3].
  { by rewrite decide_True. }
  by rewrite decide_False.
Qed.

Lemma newProject_supplies (nowId nowCreated nowUpdated : Z) (reqBody : object) :
  supplies dbOperations.required reqBody →
  supplies dbOperations.notNull (routes.newProject nowId nowCreated nowUpdated reqBody).
Proof.
  intros H k [Hk|[->| ->]]%notNull_cases.
  - rewrite newProject_lookup. destruct (H k Hk) as [[v Hv] Hn]. rewrite Hv in Hn |- *.
    by repeat case_decide.
  - by rewrite newProject_lookup.
  - by rewrite newProject_lookup.
Qed.

Lemma notNullOk_insert {sqlite : Sqlite} (project : object) :
  supplies dbOperations.notNull project →
  dbOperations.notNullOk dbOperations.columns (bind dbOperations.columns project ∅) = true.
Proof.
  intros Hs. apply forallb_forall. intros k Hk%list_elem_of_In.
  apply bool_decide_eq_true. intros Hc. rewrite bind_lookup, decide_True by done.
  apply affinity_supplied; [by apply notNull_text | by apply Hs].
Qed.

Lemma notNullOk_insert_inv {sqlite : Sqlite} (project : object) :
  dbOperations.notNullOk dbOperations.columns (bind dbOperations.columns project ∅) = true →
  supplies dbOperations.notNull project.
Proof.
  intros Hs k Hk. unfold dbOperations.notNullOk in Hs.
  rewrite forallb_forall in Hs. specialize (Hs k (proj1 (list_elem_of_In _ _) Hk)).
  apply bool_decide_eq_true in Hs.
  specialize (Hs (notNull_columns k Hk)).
  rewrite bind_lookup, decide_True in Hs by by apply notNull_columns.
  by apply affinity_supplied in Hs; [|apply notNull_text].
Qed.

Lemma primaryKeyOk_fresh (row : object) (v : value) (db : table) :
  row !! "id" = Some v →
  (∀ r, r ∈ db → r !! "id" ≠ Some v) →
  dbOperations.primaryKeyOk row db = true.
Proof.
  intros Hid H. unfold dbOperations.primaryKeyOk. rewrite Hid.
  apply forallb_forall. intros r Hr%list_elem_of_In.
  apply bool_decide_eq_true. by apply H.
Qed.

Lemma primaryKeyOk_taken (row r : object) (v : value) (db : table) :
  row !! "id" = Some v → r ∈ db → r !! "id" = Some v →
  dbOperations.primaryKeyOk row db = false.
Proof.
  intros Hid Hr Hv. unfold dbOperations.primaryKeyOk. rewrite Hid.
  apply not_true_is_false. rewrite forallb_forall. intros H.
  specialize (H r (proj1 (list_elem_of_In _ _) Hr)).
  apply bool_decide_eq_true in H. done.
Qed.

(** The id that the INSERT stores. *)
Lemma bind_id {sqlite : Sqlite} (project : object) :
  bind dbOperations.columns project ∅ !! "id" = affinity "id" (project !! "id").
Proof. by rewrite bind_lookup, decide_True by compute_done. Qed.

(** An INSERT that meets both constraints appends the row and resolves with
    the object it was given. *)
Lemma createProject_ok {sqlite : Sqlite} (project : object) (v : value) (db : table) :
  supplies dbOperations.notNull project →
  project !! "id" = Some v →
  (∀ r, r ∈ db → r !! "id" ≠ affinity "id" (Some v)) →
  dbOperations.createProject project db
  = (resolve project, db ++ [bind dbOperations.columns project ∅]).
Proof.
  intros Hs Hid Hfresh. unfold dbOperations.createProject.
  rewrite notNullOk_insert by done.
  assert (dbOperations.primaryKeyOk (bind dbOperations.columns project ∅) db = true) as ->.
  { destruct (affinity "id" (Some v)) as [w|] eqn:Hw.
    - apply (primaryKeyOk_fresh _ w); [by rewrite bind_id, Hid | done].
    - unfold dbOperations.primaryKeyOk. by rewrite bind_id, Hid, Hw. }
  cbn [andb]. by rewrite partial_alter_self.
Qed.

Lemma createProject_taken {sqlite : Sqlite} (project r : object) (i : string) (db : table) :
  project !! "id" = Some (VStr i) → r ∈ db → r !! "id" = Some (VStr i) →
  dbOperations.createProject project db = (reject SQLITE_CONSTRAINT, db).
Proof.
  intros Hid Hr Hv. unfold dbOperations.createProject.
  rewrite (primaryKeyOk_taken _ r (VStr i)) by (by rewrite ?bind_id, ?Hid).
  by rewrite andb_false_r.
Qed.

(** A resolved INSERT appended exactly the bound row. *)
Lemma createProject_resolved {sqlite : Sqlite} (project out : object) (db db' : table) :
  dbOperations.createProject project db = (resolve out, db') →
  out = project ∧ db' = db ++ [bind dbOperations.columns project ∅]
  ∧ supplies dbOperations.notNull project.
Proof.
  unfold dbOperations.createProject.
  destruct (dbOperations.notNullOk _ _) eqn:Hn; [|by rewrite andb_false_l].
  destruct (dbOperations.primaryKeyOk _ _); [|by rewrite andb_false_r].
  cbn [andb]. rewrite partial_alter_self. intros H.
  pose proof (f_equal fst H) as H1. pose proof (f_equal snd H) as H2.
  cbn [fst snd] in H1, H2. split_and!.
  - congruence.
  - by symmetry.
  - by apply notNullOk_insert_inv.
Qed.

Lemma updatedRow_lookup {sqlite : Sqlite} (now : Z) (project row : object) (k : string) :
  dbOperations.updatedRow now project row !! k =
    if decide (k = "updatedAt") then Some (VStr (Js.toISOString now))
    else if decide (k ∈ dbOperations.updateColumns) then affinity k (project !! k)
    else row !! k.
Proof.
  unfold dbOperations.updatedRow. rewrite lookup_insert.
  destruct (decide ("updatedAt" = k)) as [<-|H].
  - by rewrite decide_True.
  - rewrite decide_False by done. apply bind_lookup.
Qed.

Lemma notNullOk_update {sqlite : Sqlite} (now : Z) (project row : object) :
  supplies dbOperations.required project →
  dbOperations.notNullOk ("updatedAt" :: dbOperations.updateColumns)
    (dbOperations.updatedRow now project row) = true.
Proof.
  intros Hs. apply forallb_forall. intros k Hk%list_elem_of_In.
  apply bool_decide_eq_true. intros Hw. rewrite updatedRow_lookup.
  destruct (notNull_cases k Hk) as [Hr|[->| ->]].
  - destruct (decide (k = "updatedAt")); [done|].
    rewrite decide_True by by apply required_updateColumns.
    apply affinity_supplied; [by apply notNull_text | by apply Hs].
  - apply elem_of_cons in Hw as [?|Hw]; [done|].
    exfalso. revert Hw. compute_done.
  - by rewrite decide_True.
Qed.

Lemma update_rows_no_match (id : string) (f : object → object) (l : table) :
  (∀ r, r ∈ l → ¬ dbOperations.hasId id r) →
  (λ r, if decide (dbOperations.hasId id r) then f r else r) <$> l = l.
Proof.
  induction l as [|r l IH]; intros H; [done|]. cbn [fmap list_fmap].
  rewrite decide_False by (apply H; left). f_equal. apply IH.
  intros r' Hr'. apply H. by right.
Qed.

Lemma updatedRow_hasId {sqlite : Sqlite} (now : Z) (id : string) (project row : object) :
  dbOperations.hasId id row → dbOperations.hasId id (dbOperations.updatedRow now project row).
Proof.
  unfold dbOperations.hasId. intros H. rewrite updatedRow_lookup.
  rewrite decide_False by done. rewrite decide_False by compute_done. done.
Qed.

(** The UPDATE on a table in which exactly one row, [row], has the id. *)
Lemma updateProject_one {sqlite : Sqlite} (now : Z) (id : string) (project row : object)
    (pre post : table) :
  dbOperations.hasId id row →
  (∀ r, r ∈ pre ++ post → ¬ dbOperations.hasId id r) →
  supplies dbOperations.required project →
  dbOperations.updateProject now id project (pre ++ row :: post)
  = (resolve (Some (dbOperations.updatedRow now project row)),
     pre ++ dbOperations.updatedRow now project row :: post).
Proof.
  intros Hid Hothers Hs. unfold dbOperations.updateProject.
  assert (forallb (λ r, if decide (dbOperations.hasId id r)
                        then dbOperations.notNullOk ("updatedAt" :: dbOperations.updateColumns)
                               (dbOperations.updatedRow now project r)
                        else true) (pre ++ row :: post) = true) as ->.
  { apply forallb_forall. intros r _. case_decide; [by apply notNullOk_update | done]. }
  assert (∀ r, r ∈ pre → ¬ dbOperations.hasId id r) as Hpre.
  { intros r Hr. apply Hothers, elem_of_app. by left. }
  assert (∀ r, r ∈ post → ¬ dbOperations.hasId id r) as Hpost.
  { intros r Hr. apply Hothers, elem_of_app. by right. }
  rewrite fmap_app, fmap_cons, decide_True by done.
  rewrite !update_rows_no_match by done.
  rewrite filter_app, filter_cons_True by by apply updatedRow_hasId.
  destruct (no_row_has_id_filter id pre Hpre) as [-> _].
  done.
Qed.

Lemma notNullOk_lookup (written : list string) (row : object) (k : string) :
  dbOperations.notNullOk written row = true →
  k ∈ dbOperations.notNull → k ∈ written → is_Some (row !! k).
Proof.
  unfold dbOperations.notNullOk. rewrite forallb_forall. intros Hall Hk Hw.
  apply list_elem_of_In in Hk. specialize (Hall k Hk).
  apply bool_decide_eq_true in Hall. by apply Hall.
Qed.

(** An UPDATE that would leave a NOT NULL column of a selected row NULL
    raises the constraint and writes nothing. *)
Lemma updateProject_missing {sqlite : Sqlite} (now : Z) (id : string)
    (project row : object) (db : table) (k : string) :
  row ∈ db → dbOperations.hasId id row →
  k ∈ dbOperations.required → project !! k = None ∨ project !! k = Some VNull →
  dbOperations.updateProject now id project db = (reject SQLITE_CONSTRAINT, db).
Proof.
  intros Hin Hid Hk Hnone. unfold dbOperations.updateProject.
  destruct (forallb _ db) eqn:Hall; [exfalso|done].
  rewrite forallb_forall in Hall. apply list_elem_of_In in Hin.
  specialize (Hall row Hin). rewrite decide_True in Hall by done.
  destruct (notNullOk_lookup _ _ k Hall (required_notNull k Hk)) as [v Hv].
  { right. by apply required_updateColumns. }
  rewrite updatedRow_lookup in Hv.
  rewrite decide_False in Hv by (intros ->; revert Hk; compute_done).
  rewrite decide_True in Hv by by apply required_updateColumns.
  apply (affinity_None k) in Hnone. congruence.
Qed.

Lemma acme_supplies_required : supplies dbOperations.required acme.
Proof. unfold supplies. apply Forall_forall. compute_done. Qed.

(** *** Invariants of the tables the routes produce *)

Lemma keyed_snoc (db : table) (row : object) :
  keyed db → dbOperations.primaryKeyOk row db = true → keyed (db ++ [row]).
Proof.
  unfold dbOperations.primaryKeyOk. induction 1 as [|r db Hr Hdb IH]; intros Hok.
  - apply keyed_cons; [|constructor]. intros r' v Hr'. by apply elem_of_nil in Hr'.
  - rewrite <- app_comm_cons. apply keyed_cons.
    + intros r' v [Hr'| ->%list_elem_of_singleton]%elem_of_app Hv; [by apply (Hr r' v)|].
      intros Hrow. rewrite Hrow in Hok. cbn [forallb] in Hok.
      apply andb_true_iff in Hok as [Hok%bool_decide_eq_true _]. done.
    + apply IH. destruct (row !! "id") as [v|]; [|done].
      cbn [forallb] in Hok. by apply andb_true_iff in Hok as [_ Hok].
Qed.

Lemma keyed_fmap (f : object → object) (db : table) :
  (∀ r, f r !! "id" = r !! "id") → keyed db → keyed (f <$> db).
Proof.
  intros Hf. induction 1 as [|r db Hr Hdb IH]; [constructor|].
  rewrite fmap_cons. apply keyed_cons; [|done].
  intros r' v (r0 & -> & Hr0)%list_elem_of_fmap. rewrite !Hf. by apply Hr.
Qed.

Lemma keyed_filter (P : object → Prop) `{∀ r, Decision (P r)} (db : table) :
  keyed db → keyed (filter P db).
Proof.
  induction 1 as [|r db Hr Hdb IH]; [constructor|].
  rewrite filter_cons. case_decide; [|done].
  apply keyed_cons; [|done]. intros r' v [_ Hr']%list_elem_of_filter. by apply Hr.
Qed.

Lemma createProject_keyed {sqlite : Sqlite} (project : object) (db : table) :
  keyed db → keyed (dbOperations.createProject project db).2.
Proof.
  intros Hdb. unfold dbOperations.createProject.
  destruct (dbOperations.notNullOk _ _); cbn [andb]; [|done].
  destruct (dbOperations.primaryKeyOk _ _) eqn:Hok; [|done].
  by apply keyed_snoc.
Qed.

Lemma updateProject_keyed {sqlite : Sqlite} (now : Z) (id : string) (project : object)
    (db : table) :
  keyed db → keyed (dbOperations.updateProject now id project db).2.
Proof.
  intros Hdb. unfold dbOperations.updateProject.
  destruct (forallb _ _); [|done]. cbn [snd]. apply keyed_fmap; [|done].
  intros r. case_decide; [|done].
  rewrite updatedRow_lookup, decide_False by done.
  by rewrite decide_False by compute_done.
Qed.

Lemma deleteProject_keyed (id : string) (db : table) :
  keyed db → keyed (dbOperations.deleteProject id db).2.
Proof. intros Hdb. by apply keyed_filter. Qed.

Lemma served_keyed_step {sqlite : Sqlite} (nowId nowCreated nowUpdated : Z) (reqBody : object)
    (db : table) :
  keyed db → keyed (routes.postProject nowId nowCreated nowUpdated reqBody db).2.
Proof.
  intros Hkey. unfold routes.postProject.
  pose proof (createProject_keyed
                (routes.newProject nowId nowCreated nowUpdated reqBody) db Hkey) as H.
  by destruct (dbOperations.createProject _ _) as [[?|?] ?].
Qed.

(** Property X1.  The primary key is an invariant of the routes: in every
    table that POST, PUT and DELETE requests produce from the empty table,
    no two rows share an id. *)
Lemma served_keyed {sqlite : Sqlite} (db : table) : served db → keyed db.
Proof.
  induction 1 as [|nowId nowCreated nowUpdated reqBody db _ IH
                  |now id reqBody db _ IH|id db _ IH].
  - constructor.
  - by apply served_keyed_step.
  - unfold routes.putProject.
    pose proof (updateProject_keyed now id reqBody db IH) as H.
    by destruct (dbOperations.updateProject _ _ _ _) as [[[?|]|?] ?].
  - unfold routes.deleteProject.
    pose proof (deleteProject_keyed id db IH) as H.
    by destruct (dbOperations.deleteProject _ _) as [[?|?] ?].
Qed.

(** Every row the routes store carries a [createdAt] written by the POST
    route from the clock. *)
Lemma served_createdAt {sqlite : Sqlite} (db : table) :
  served db → ∀ r, r ∈ db → ∃ t, r !! "createdAt" = Some (VStr (Js.toISOString t)).
Proof.
  induction 1 as [|nowId nowCreated nowUpdated reqBody db _ IH
                  |now id reqBody db _ IH|id db _ IH]; intros r Hr.
  - by apply elem_of_nil in Hr.
  - unfold routes.postProject in Hr.
    destruct (dbOperations.createProject _ db) as [[out|err] db'] eqn:Hcreate.
    + apply createProject_resolved in Hcreate as (_ & -> & _). cbn [snd] in Hr.
      apply elem_of_app in Hr as [Hr| ->%list_elem_of_singleton]; [by apply IH|].
      exists nowCreated. rewrite bind_lookup, decide_True by compute_done.
      by rewrite newProject_lookup.
    + unfold dbOperations.createProject in Hcreate.
      destruct (_ && _); [done|].
      assert (db' = db) as -> by congruence. by apply IH.
  - unfold routes.putProject, dbOperations.updateProject in Hr.
    destruct (forallb _ db); cbn [snd] in Hr; [|by apply IH].
    assert (r ∈ (λ r0, if decide (dbOperations.hasId id r0)
                       then dbOperations.updatedRow now reqBody r0 else r0) <$> db) as Hin.
    { by destruct (head _). }
    apply list_elem_of_fmap in Hin as (r0 & -> & Hr0).
    destruct (IH r0 Hr0) as [t Ht]. exists t. case_decide; [|done].
    rewrite updatedRow_lookup, decide_False by done.
    by rewrite decide_False by compute_done.
  - unfold routes.deleteProject, dbOperations.deleteProject in Hr. cbn [snd] in Hr.
    apply list_elem_of_filter in Hr as [_ Hr]. by apply IH.
Qed.

(** In a keyed table, a row with the id splits the table into rows that do
    not have it. *)
Lemma keyed_split (id : string) (row : object) (db : table) :
  keyed db → row ∈ db → dbOperations.hasId id row →
  ∃ pre post, db = pre ++ row :: post
              ∧ ∀ r, r ∈ pre ++ post → ¬ dbOperations.hasId id r.
Proof.
  unfold dbOperations.hasId.
  induction 1 as [|r db Hr Hdb IH]; intros Hin Hid; [by apply elem_of_nil in Hin|].
  destruct (decide (r !! "id" = Some (VStr id))) as [Hrid|Hrid].
  - assert (∀ r', r' ∈ db → r' !! "id" ≠ Some (VStr id)) as Hrest.
    { intros r' Hr'. by apply (Hr r' (VStr id)). }
    apply elem_of_cons in Hin as [->|Hin]; [|by destruct (Hrest row Hin)].
    exists [], db. split; [done|]. exact Hrest.
  - apply elem_of_cons in Hin as [->|Hin]; [done|].
    destruct (IH Hin Hid) as (pre & post & -> & Hnone).
    exists (r :: pre), post. split; [done|].
    intros r' [->|Hr']%elem_of_cons; [done | by apply Hnone].
Qed.

(** What the UPDATE leaves in a column it assigns from the object. *)
Lemma updatedRow_assigned {sqlite : Sqlite} (now : Z) (project row : object) (k : string) :
  k ∈ dbOperations.updateColumns →
  dbOperations.updatedRow now project row !! k = affinity k (project !! k).
Proof.
  intros Hk. rewrite updatedRow_lookup.
  assert (k ≠ "updatedAt") by (intros ->; revert Hk; compute_done).
  by rewrite decide_False, decide_True.
Qed.

(** Claim C7, as amended.  In a table that satisfies the primary key, let
    [row] be the stored row with the id.  When the object supplies the
    twelve required fields, none of them [null], [updateProject] replaces
    [row] by a row that takes every column of the UPDATE from the object
    (these are all the columns but [id], [createdAt] and [updatedAt]), takes
    [updatedAt] from the clock and keeps [id] and [createdAt]; it leaves the
    other rows alone and resolves with that row as it stands in the table
    afterwards.  A column is taken from the object in this way: a value of
    the type of the column is stored as it was sent, a missing or [null]
    property leaves the column NULL, and a number sent for a column of text
    is stored as its text.  When the object lacks a required field, or holds
    [null] in one, the UPDATE is rejected, the route answers 500 and the
    table stays as it was.  An object that repeats the values of a row whose
    values have the types of their columns changes [updatedAt] only. *)
Theorem updateProject_overwrites {sqlite : Sqlite} (now : Z) (id : string)
    (project row : object) (db : table) :
  keyed db → row ∈ db → dbOperations.hasId id row →
  let row' := dbOperations.updatedRow now project row in
  (supplies dbOperations.required project →
   ∃ pre post,
     db = pre ++ row :: post
     ∧ dbOperations.updateProject now id project db
       = (resolve (Some row'), pre ++ row' :: post)
     ∧ routes.putProject now id project db
       = ({| status := 200; body := JObject row' |}, pre ++ row' :: post))
  ∧ (∀ k, k ∈ dbOperations.required →
          project !! k = None ∨ project !! k = Some VNull →
          dbOperations.updateProject now id project db = (reject SQLITE_CONSTRAINT, db)
          ∧ routes.putProject now id project db
            = (routes.failure "Failed to update project", db))
  ∧ (∀ k, k ∈ dbOperations.columns →
          k ∈ dbOperations.updateColumns ∨ k ∈ ["id"; "createdAt"; "updatedAt"])
  ∧ (∀ k v, k ∈ dbOperations.updateColumns → project !! k = Some v →
            hasColumnType k v → row' !! k = Some v)
  ∧ (∀ k, k ∈ dbOperations.updateColumns →
          project !! k = None ∨ project !! k = Some VNull → row' !! k = None)
  ∧ (∀ k n, k ∈ dbOperations.updateColumns → k ∉ integerColumns →
            project !! k = Some (VNum n) → row' !! k = Some (VStr (textOf n)))
  ∧ row' !! "updatedAt" = Some (VStr (Js.toISOString now))
  ∧ row' !! "id" = row !! "id"
  ∧ row' !! "createdAt" = row !! "createdAt"
  ∧ ((∀ k, k ∈ dbOperations.updateColumns → project !! k = row !! k) →
     (∀ k v, k ∈ dbOperations.updateColumns → row !! k = Some v → hasColumnType k v) →
     row' = <["updatedAt" := VStr (Js.toISOString now)]> row).
Proof.
  intros Hkey Hin Hid row'. split_and!.
  - intros Hs.
    destruct (keyed_split id row db Hkey Hin Hid) as (pre & post & -> & Hothers).
    pose proof (updateProject_one now id project row pre post Hid Hothers Hs) as Hup.
    exists pre, post. split_and!; [done | exact Hup |].
    unfold routes.putProject. by rewrite Hup.
  - intros k Hk Hnone.
    pose proof (updateProject_missing now id project row db k Hin Hid Hk Hnone) as Hup.
    split; [exact Hup|]. unfold routes.putProject. by rewrite Hup.
  - apply Forall_forall. compute_done.
  - intros k v Hk Hv Hty. unfold row'.
    rewrite updatedRow_assigned, Hv by done. by apply affinity_typed.
  - intros k Hk Hnone. unfold row'. rewrite updatedRow_assigned by done.
    by apply affinity_None.
  - intros k n Hk Htext Hv. unfold row'. rewrite updatedRow_assigned, Hv by done.
    cbn [affinity]. by rewrite decide_False.
  - unfold row'. by rewrite updatedRow_lookup, decide_True.
  - unfold row'. rewrite updatedRow_lookup, decide_False by done.
    by rewrite decide_False by compute_done.
  - unfold row'. rewrite updatedRow_lookup, decide_False by done.
    by rewrite decide_False by compute_done.
  - intros Hsame Hty. apply map_eq. intros k. unfold row'.
    rewrite updatedRow_lookup, lookup_insert.
    destruct (decide (k = "updatedAt")) as [->|Hk].
    + by case_decide.
    + rewrite (decide_False (P := "updatedAt" = k)) by congruence.
      case_decide as Hu; [|done]. rewrite (Hsame k Hu).
      destruct (row !! k) as [v|] eqn:Hv; [|done].
      apply affinity_typed. by apply (Hty k).
Qed.

Lemma acmeTable_keyed : keyed acmeTable.
Proof.
  apply keyed_cons; [|constructor]. intros r v Hr. destruct (not_elem_of_nil r Hr).
Qed.

Lemma acmeRow_typed :
  ∀ k v, k ∈ dbOperations.updateColumns → acmeRow !! k = Some v → hasColumnType k v.
Proof.
  assert (Forall (λ k, ∀ v, acmeRow !! k = Some v → hasColumnType k v)
            dbOperations.updateColumns) as Hall.
  { repeat (apply Forall_cons; split;
            [intros v Hv; vm_compute in Hv;
             first [discriminate Hv
                   | injection Hv as <-; cbn [hasColumnType]; compute_done]|]).
    apply Forall_nil_2. }
  intros k v Hk. by apply (proj1 (Forall_forall _ _) Hall k).
Qed.

Lemma updateProject_overwrites_witness :
  keyed acmeTable ∧ acmeRow ∈ acmeTable ∧ dbOperations.hasId "1000" acmeRow
  ∧ supplies dbOperations.required acme
  ∧ dbOperations.updatedRow 2000 acme acmeRow
    = <["updatedAt" := VStr (Js.toISOString 2000)]> acmeRow
  ∧ ∃ pre post,
      acmeTable = pre ++ acmeRow :: post
      ∧ dbOperations.updateProject 2000 "1000" acme acmeTable
        = (resolve (Some (dbOperations.updatedRow 2000 acme acmeRow)),
           pre ++ dbOperations.updatedRow 2000 acme acmeRow :: post).
Proof.
  assert (acmeRow ∈ acmeTable) as Hin by left.
  assert (dbOperations.hasId "1000" acmeRow) as Hid by compute_done.
  destruct (updateProject_overwrites 2000 "1000" acme acmeRow acmeTable
              acmeTable_keyed Hin Hid)
    as (Hok & _ & _ & _ & _ & _ & _ & _ & _ & Hsame).
  destruct (Hok acme_supplies_required) as (pre & post & Hsplit & Hup & _).
  split_and!; [exact acmeTable_keyed | exact Hin | exact Hid | exact acme_supplies_required | |].
  - apply Hsame; [apply Forall_forall; compute_done | exact acmeRow_typed].
  - exists pre, post. split; [exact Hsplit | exact Hup].
Defined.

(** Claim C7 as stated fails at an id that is stored: a PUT whose body
    lacks [owner] is rejected by the database, the route answers 500, and
    no field of the stored row is overwritten, [updatedAt] included. *)
Lemma updateProject_refuses_missing_field :
  keyed acmeTable ∧ acmeRow ∈ acmeTable ∧ dbOperations.hasId "1000" acmeRow
  ∧ rejected (dbOperations.updateProject 2000 "1000" (delete "owner" acme) acmeTable).1
  ∧ routes.putProject 2000 "1000" (delete "owner" acme) acmeTable
    = (routes.failure "Failed to update project", acmeTable)
  ∧ acmeRow !! "updatedAt" = Some (VStr (Js.toISOString 1000)).
Proof.
  assert (acmeRow ∈ acmeTable) as Hin by left.
  assert (dbOperations.hasId "1000" acmeRow) as Hid by compute_done.
  assert ("owner" ∈ dbOperations.required) as Hk by compute_done.
  assert (delete "owner" acme !! "owner" = None ∨ delete "owner" acme !! "owner" = Some VNull)
    as Hnone by (left; apply lookup_delete_eq).
  pose proof (updateProject_missing 2000 "1000" (delete "owner" acme) acmeRow acmeTable
                "owner" Hin Hid Hk Hnone) as Hup.
  split_and!; [exact acmeTable_keyed | exact Hin | exact Hid | | |].
  - rewrite Hup. by exists SQLITE_CONSTRAINT.
  - unfold routes.putProject. by rewrite Hup.
  - unfold acmeRow. rewrite bind_lookup, decide_True by compute_done.
    by rewrite newProject_lookup.
Qed.

Lemma postProject_ok {sqlite : Sqlite} (nowId nowCreated nowUpdated : Z)
    (reqBody : object) (v : value) (db : table) :
  let project := routes.newProject nowId nowCreated nowUpdated reqBody in
  supplies dbOperations.required reqBody →
  project !! "id" = Some v →
  (∀ r, r ∈ db → r !! "id" ≠ affinity "id" (Some v)) →
  routes.postProject nowId nowCreated nowUpdated reqBody db
  = ({| status := 201; body := JObject project |},
     db ++ [bind dbOperations.columns project ∅]).
Proof.
  intros project Hs Hid Hfresh. unfold routes.postProject. fold project.
  rewrite (createProject_ok project v) by (try done; by apply newProject_supplies).
  done.
Qed.

Lemma postProject_taken {sqlite : Sqlite} (nowId nowCreated nowUpdated : Z)
    (reqBody r : object) (i : string) (db : table) :
  routes.newProject nowId nowCreated nowUpdated reqBody !! "id" = Some (VStr i) →
  r ∈ db → r !! "id" = Some (VStr i) →
  routes.postProject nowId nowCreated nowUpdated reqBody db
  = (routes.failure "Failed to create project", db).
Proof.
  intros Hid Hr Hv. unfold routes.postProject.
  by rewrite (createProject_taken _ r i).
Qed.

(** What the INSERT leaves in a column. *)
Lemma bind_column {sqlite : Sqlite} (project : object) (k : string) :
  k ∈ dbOperations.columns →
  bind dbOperations.columns project ∅ !! k = affinity k (project !! k).
Proof. intros Hk. by rewrite bind_lookup, decide_True. Qed.

(** Claim C6, as amended.  For a body that supplies the twelve required
    fields, none of them [null], and no id, the POST route builds a record
    whose id is the decimal numeral of [Date.now()], whose [createdAt] and
    [updatedAt] are the two following readings of the clock (equal when the
    clock did not advance between them), and whose other properties are
    those of the body.  The row bound from the record holds that id and the
    two timestamps; in each other column it holds the value of the record
    when that value has the type of the column, NULL when the record has no
    such property or [null], and the text of the number when the record has
    a number for a column of text.  If no stored row has that id, the row is
    appended to the table and the record is returned with status 201; if
    one has, the insert fails on the primary key, the table is unchanged and
    the status is 500. *)
Theorem postProject_creates {sqlite : Sqlite} (nowId nowCreated nowUpdated : Z)
    (reqBody : object) (db : table) :
  reqBody !! "id" = None →
  supplies dbOperations.required reqBody →
  let project := routes.newProject nowId nowCreated nowUpdated reqBody in
  let row := bind dbOperations.columns project ∅ in
  project !! "id" = Some (VStr (Js.toString nowId))
  ∧ project !! "createdAt" = Some (VStr (Js.toISOString nowCreated))
  ∧ project !! "updatedAt" = Some (VStr (Js.toISOString nowUpdated))
  ∧ (nowCreated = nowUpdated → project !! "createdAt" = project !! "updatedAt")
  ∧ (∀ k, k ∉ ["id"; "createdAt"; "updatedAt"] → project !! k = reqBody !! k)
  ∧ row !! "id" = Some (VStr (Js.toString nowId))
  ∧ row !! "createdAt" = Some (VStr (Js.toISOString nowCreated))
  ∧ row !! "updatedAt" = Some (VStr (Js.toISOString nowUpdated))
  ∧ (∀ k v, k ∈ dbOperations.columns → project !! k = Some v →
            hasColumnType k v → row !! k = Some v)
  ∧ (∀ k, k ∈ dbOperations.columns →
          project !! k = None ∨ project !! k = Some VNull → row !! k = None)
  ∧ (∀ k n, k ∈ dbOperations.columns → k ∉ integerColumns →
            project !! k = Some (VNum n) → row !! k = Some (VStr (textOf n)))
  ∧ ((∀ r, r ∈ db → r !! "id" ≠ Some (VStr (Js.toString nowId))) →
     routes.postProject nowId nowCreated nowUpdated reqBody db
     = ({| status := 201; body := JObject project |}, db ++ [row]))
  ∧ ((∃ r, r ∈ db ∧ r !! "id" = Some (VStr (Js.toString nowId))) →
     routes.postProject nowId nowCreated nowUpdated reqBody db
     = (routes.failure "Failed to create project", db))
  ∧ (keyed db → keyed (routes.postProject nowId nowCreated nowUpdated reqBody db).2).
Proof.
  intros Hnoid Hs project row.
  assert (project !! "id" = Some (VStr (Js.toString nowId))) as Hid.
  { unfold project. rewrite newProject_lookup, Hnoid. done. }
  assert (project !! "createdAt" = Some (VStr (Js.toISOString nowCreated))) as Hc.
  { unfold project. by rewrite newProject_lookup. }
  assert (project !! "updatedAt" = Some (VStr (Js.toISOString nowUpdated))) as Hu.
  { unfold project. by rewrite newProject_lookup. }
  split_and!; try done.
  - intros ->. by rewrite Hc, Hu.
  - intros k Hk. unfold project. rewrite newProject_lookup.
    rewrite !decide_False by (intros ->; apply Hk; compute_done).
    by destruct (reqBody !! k).
  - unfold row. by rewrite bind_column, Hid by compute_done.
  - unfold row. by rewrite bind_column, Hc by compute_done.
  - unfold row. by rewrite bind_column, Hu by compute_done.
  - intros k v Hk Hv Hty. unfold row. rewrite bind_column, Hv by done.
    by apply affinity_typed.
  - intros k Hk Hnone. unfold row. rewrite bind_column by done. by apply affinity_None.
  - intros k n Hk Htext Hv. unfold row. rewrite bind_column, Hv by done.
    cbn [affinity]. by rewrite decide_False.
  - intros Hfresh. by apply (postProject_ok _ _ _ _ (VStr (Js.toString nowId))).
  - intros (r & Hr & Hv). by apply (postProject_taken _ _ _ _ r (Js.toString nowId)).
  - intros Hkey. apply served_keyed_step. exact Hkey.
Qed.

Lemma postProject_creates_witness :
  acme !! "id" = None
  ∧ routes.newProject 1000 1000 1000 acme !! "id" = Some (VStr "1000")
  ∧ routes.postProject 1000 1000 1000 acme []
    = ({| status := 201; body := JObject (routes.newProject 1000 1000 1000 acme) |},
       [] ++ [bind dbOperations.columns (routes.newProject 1000 1000 1000 acme) ∅]).
Proof.
  assert (acme !! "id" = None) as Hnoid by (vm_compute; reflexivity).
  destruct (postProject_creates 1000 1000 1000 acme [] Hnoid acme_supplies_required)
    as (Hid & _ & _ & _ & _ & _ & _ & _ & _ & _ & _ & Hok & _ & _).
  split_and!; [exact Hnoid | exact Hid |].
  apply Hok. intros r Hr. destruct (not_elem_of_nil r Hr).
Defined.

(** Claim C6 as stated fails twice: a body without id posted within the
    millisecond in which [acmeTable] got its row is refused, and a clock that
    advances between the two [new Date()] gives two different timestamps. *)
Lemma postProject_collision_and_tick :
  acme !! "id" = None
  ∧ routes.postProject 1000 1000 1000 acme []
    = ({| status := 201; body := JObject (routes.newProject 1000 1000 1000 acme) |},
       acmeTable)
  ∧ routes.postProject 1000 1000 1000 acme acmeTable
    = (routes.failure "Failed to create project", acmeTable)
  ∧ status (routes.postProject 1000 1000 1001 acme []).1 = 201%nat
  ∧ routes.newProject 1000 1000 1001 acme !! "createdAt"
    ≠ routes.newProject 1000 1000 1001 acme !! "updatedAt".
Proof.
  assert (acme !! "id" = None) as Hnoid by (vm_compute; reflexivity).
  assert (∀ c u, routes.newProject 1000 c u acme !! "id" = Some (VStr "1000")) as Hid.
  { intros c u. rewrite newProject_lookup, Hnoid. reflexivity. }
  assert (∀ r : object, r ∈ [] → r !! "id" ≠ Some (VStr "1000")) as Hfresh.
  { intros r Hr. destruct (not_elem_of_nil r Hr). }
  split_and!.
  - exact Hnoid.
  - exact (postProject_ok 1000 1000 1000 acme (VStr "1000") []
             acme_supplies_required (Hid 1000 1000) Hfresh).
  - apply (postProject_taken 1000 1000 1000 acme acmeRow "1000").
    + apply Hid.
    + left.
    + compute_done.
  - rewrite (postProject_ok 1000 1000 1001 acme (VStr "1000") []
               acme_supplies_required (Hid 1000 1001) Hfresh).
    reflexivity.
  - rewrite !newProject_lookup. cbn [decide]. vm_compute. discriminate.
Qed.

(** Claim C10, as amended.  When the body brings an id, of whatever value,
    the object built by the POST route, which a 201 answers, carries the id
    of the body whatever [Date.now()] read, and the timestamps of the server
    whatever the body brought.  The row bound from it carries the same
    timestamps, and in its [id], a column of text, the id of the body when
    that is a string, the text of the number when it is a number, and NULL
    when it is [null]; every answer 201 has appended exactly that row.  The
    insert succeeds when the body supplies the required fields and no
    stored row has the id of the row, or the id of the body is [null]. *)
Theorem postProject_body_id {sqlite : Sqlite} (nowId nowCreated nowUpdated : Z)
    (reqBody : object) (db : table) (v : value) :
  reqBody !! "id" = Some v →
  let project := routes.newProject nowId nowCreated nowUpdated reqBody in
  let row := bind dbOperations.columns project ∅ in
  project !! "id" = Some v
  ∧ project !! "createdAt" = Some (VStr (Js.toISOString nowCreated))
  ∧ project !! "updatedAt" = Some (VStr (Js.toISOString nowUpdated))
  ∧ row !! "id" = match v with
                  | VStr i => Some (VStr i)
                  | VNum n => Some (VStr (textOf n))
                  | VNull => None
                  end
  ∧ row !! "createdAt" = Some (VStr (Js.toISOString nowCreated))
  ∧ row !! "updatedAt" = Some (VStr (Js.toISOString nowUpdated))
  ∧ (∀ resp db',
       routes.postProject nowId nowCreated nowUpdated reqBody db = (resp, db') →
       status resp = 201%nat →
       body resp = JObject project ∧ db' = db ++ [row])
  ∧ (supplies dbOperations.required reqBody →
     (∀ r, r ∈ db → r !! "id" ≠ row !! "id") ∨ v = VNull →
     routes.postProject nowId nowCreated nowUpdated reqBody db
     = ({| status := 201; body := JObject project |}, db ++ [row])).
Proof.
  intros Hbody project row.
  assert (project !! "id" = Some v) as Hid.
  { unfold project. by rewrite newProject_lookup, Hbody. }
  assert (row !! "id" = affinity "id" (Some v)) as Hrow.
  { unfold row. by rewrite bind_id, Hid. }
  split_and!.
  - done.
  - unfold project. by rewrite newProject_lookup.
  - unfold project. by rewrite newProject_lookup.
  - rewrite Hrow. by destruct v.
  - unfold row, project. rewrite bind_column by compute_done.
    by rewrite newProject_lookup.
  - unfold row, project. rewrite bind_column by compute_done.
    by rewrite newProject_lookup.
  - intros resp db'. unfold routes.postProject. fold project.
    destruct (dbOperations.createProject project db) as [[out|err] db''] eqn:Hcreate.
    + apply createProject_resolved in Hcreate as (-> & -> & _).
      intros H _. pose proof (f_equal fst H) as H1. pose proof (f_equal snd H) as H2.
      cbn [fst snd] in H1, H2. rewrite <- H1, <- H2. split; reflexivity.
    + intros H Hst. pose proof (f_equal fst H) as H1. cbn [fst] in H1.
      rewrite <- H1 in Hst. discriminate Hst.
  - intros Hs Hfresh. unfold routes.postProject. fold project.
    unfold dbOperations.createProject.
    rewrite notNullOk_insert by by apply newProject_supplies.
    fold row.
    assert (dbOperations.primaryKeyOk row db = true) as ->.
    { destruct Hfresh as [Hfresh| ->].
      - destruct (row !! "id") as [w|] eqn:Hw.
        + by apply (primaryKeyOk_fresh _ w).
        + unfold dbOperations.primaryKeyOk. by rewrite Hw.
      - unfold dbOperations.primaryKeyOk. by rewrite Hrow. }
    cbn [andb]. by rewrite partial_alter_self.
Qed.

Lemma postProject_body_id_witness :
  acmeWithId !! "id" = Some (VStr "my-id")
  ∧ (∃ row, (routes.postProject 1000 1000 1000 acmeWithId acmeTable).2 = acmeTable ++ [row]
            ∧ row !! "id" = Some (VStr "my-id")
            ∧ row !! "createdAt" = Some (VStr (Js.toISOString 1000))).
Proof.
  assert (acmeWithId !! "id" = Some (VStr "my-id")) as Hbody by (vm_compute; reflexivity).
  destruct (postProject_body_id 1000 1000 1000 acmeWithId acmeTable (VStr "my-id") Hbody)
    as (_ & _ & _ & Hid & Hc & _ & _ & Hok).
  split; [exact Hbody|]. eexists. split_and!; [|exact Hid|exact Hc].
  rewrite Hok; [reflexivity| |].
  - unfold supplies. apply Forall_forall. compute_done.
  - left. rewrite Hid. apply Forall_forall. compute_done.
Defined.

(** Claim C10 as stated fails for an id that is no string: the id 7 sent as
    a number is answered as the number 7 and stored as the text of 7, and
    the id [null] is answered as [null] and stored as NULL; both requests
    are answered 201. *)
Lemma postProject_body_id_not_stored_as_sent :
  <["id" := VNum 7]> acme !! "id" = Some (VNum 7)
  ∧ (∃ row, routes.postProject 1000 1000 1000 (<["id" := VNum 7]> acme) []
            = ({| status := 201;
                  body := JObject (routes.newProject 1000 1000 1000
                                     (<["id" := VNum 7]> acme)) |}, [row])
            ∧ routes.newProject 1000 1000 1000 (<["id" := VNum 7]> acme) !! "id"
              = Some (VNum 7)
            ∧ row !! "id" = Some (VStr "7")
            ∧ row !! "id" ≠ Some (VNum 7))
  ∧ <["id" := VNull]> acme !! "id" = Some VNull
  ∧ (∃ row, routes.postProject 1000 1000 1000 (<["id" := VNull]> acme) []
            = ({| status := 201;
                  body := JObject (routes.newProject 1000 1000 1000
                                     (<["id" := VNull]> acme)) |}, [row])
            ∧ routes.newProject 1000 1000 1000 (<["id" := VNull]> acme) !! "id"
              = Some VNull
            ∧ row !! "id" = None).
Proof.
  assert (∀ v, v ≠ VNull → supplies dbOperations.required (<["id" := v]> acme)) as Hs.
  { intros v Hv k Hk. rewrite lookup_insert_ne by (intros <-; revert Hk; compute_done).
    by apply acme_supplies_required. }
  assert (supplies dbOperations.required (<["id" := VNull]> acme)) as Hs0.
  { intros k Hk. rewrite lookup_insert_ne by (intros <-; revert Hk; compute_done).
    by apply acme_supplies_required. }
  assert (∀ v, routes.newProject 1000 1000 1000 (<["id" := v]> acme) !! "id" = Some v)
    as Hid.
  { intros v. by rewrite newProject_lookup, lookup_insert_eq. }
  split_and!.
  - apply lookup_insert_eq.
  - eexists. split_and!.
    + apply (postProject_ok 1000 1000 1000 _ (VNum 7) []); [by apply Hs | apply Hid |].
      intros r Hr. destruct (not_elem_of_nil r Hr).
    + apply Hid.
    + by rewrite bind_id, Hid.
    + by rewrite bind_id, Hid.
  - apply lookup_insert_eq.
  - eexists. split_and!.
    + apply (postProject_ok 1000 1000 1000 _ VNull []); [exact Hs0 | apply Hid |].
      intros r Hr. destruct (not_elem_of_nil r Hr).
    + apply Hid.
    + by rewrite bind_id, Hid.
Qed.

(** *** The routes: errors, frames and round trips *)

Lemma acme_has_no_id : acme !! "id" = None.
Proof. vm_compute. reflexivity. Qed.

Lemma postProject_acme :
  routes.postProject 1000 1000 1000 acme []
  = ({| status := 201; body := JObject (routes.newProject 1000 1000 1000 acme) |},
     acmeTable).
Proof.
  apply (postProject_ok 1000 1000 1000 acme (VStr "1000") []).
  - apply acme_supplies_required.
  - rewrite newProject_lookup, acme_has_no_id. reflexivity.
  - intros r Hr. destruct (not_elem_of_nil r Hr).
Qed.

Lemma acmeTable_served : served acmeTable.
Proof.
  pose proof (served_post 1000 1000 1000 acme [] served_empty) as H.
  by rewrite postProject_acme in H.
Qed.

Lemma acmeRow_hasId : dbOperations.hasId "1000" acmeRow.
Proof.
  unfold dbOperations.hasId, acmeRow.
  rewrite bind_lookup, decide_True by compute_done.
  rewrite newProject_lookup, acme_has_no_id. reflexivity.
Qed.

(** The outcome of the POST route: the project is stored, or the answer is
    the failure and the table is as before. *)
Lemma postProject_cases {sqlite : Sqlite} (nowId nowCreated nowUpdated : Z) (reqBody : object)
    (db : table) :
  let project := routes.newProject nowId nowCreated nowUpdated reqBody in
  (routes.postProject nowId nowCreated nowUpdated reqBody db
   = ({| status := 201; body := JObject project |},
      db ++ [bind dbOperations.columns project ∅])
   ∧ supplies dbOperations.notNull project
   ∧ dbOperations.primaryKeyOk (bind dbOperations.columns project ∅) db = true)
  ∨ routes.postProject nowId nowCreated nowUpdated reqBody db
    = (routes.failure "Failed to create project", db).
Proof.
  intros project. unfold routes.postProject, dbOperations.createProject. fold project.
  destruct (dbOperations.notNullOk _ _) eqn:Hnn; cbn [andb]; [|by right].
  destruct (dbOperations.primaryKeyOk _ _) eqn:Hpk; [|by right].
  rewrite partial_alter_self.
  left. split_and!; [reflexivity | by apply notNullOk_insert_inv | reflexivity].
Qed.

(** The outcome of the PUT route: the rows with the id are rewritten, or the
    answer is the failure and the table is as before. *)
Lemma putProject_cases {sqlite : Sqlite} (now : Z) (id : string) (reqBody : object) (db : table) :
  ((routes.putProject now id reqBody db).2
   = (λ r, if decide (dbOperations.hasId id r)
           then dbOperations.updatedRow now reqBody r else r) <$> db
   ∧ ∀ r, r ∈ db → dbOperations.hasId id r →
          dbOperations.notNullOk ("updatedAt" :: dbOperations.updateColumns)
            (dbOperations.updatedRow now reqBody r) = true)
  ∨ routes.putProject now id reqBody db
    = (routes.failure "Failed to update project", db).
Proof.
  unfold routes.putProject, dbOperations.updateProject.
  destruct (forallb _ db) eqn:Hall; [|by right].
  left. split; [by destruct (head _)|].
  intros r Hr Hid. rewrite forallb_forall in Hall.
  apply list_elem_of_In in Hr. specialize (Hall r Hr).
  by rewrite decide_True in Hall.
Qed.

Lemma served_keyed_witness : keyed acmeTable.
Proof. exact (served_keyed acmeTable acmeTable_served). Defined.

Lemma complete_inserted {sqlite : Sqlite} (nowId nowCreated nowUpdated : Z) (reqBody : object) :
  let project := routes.newProject nowId nowCreated nowUpdated reqBody in
  supplies dbOperations.notNull project →
  complete (bind dbOperations.columns project ∅).
Proof.
  intros project Hs. unfold complete. split_and!.
  - intros k. rewrite bind_lookup. case_decide; [done|].
    rewrite lookup_empty. by intros [? ?].
  - intros k Hk. rewrite bind_column by by apply notNull_columns.
    pose proof (proj2 (affinity_supplied k (project !! k) (notNull_text k Hk)) (Hs k Hk))
      as [v Hv].
    rewrite Hv. split; [done|].
    destruct (affinity_text k _ v (notNull_text k Hk) Hv) as [s ->]. done.
  - intros k v Hk. rewrite bind_lookup. case_decide; [|by rewrite lookup_empty].
    by apply affinity_text.
Qed.

Lemma complete_updated {sqlite : Sqlite} (now : Z) (reqBody row : object) :
  complete row →
  dbOperations.notNullOk ("updatedAt" :: dbOperations.updateColumns)
    (dbOperations.updatedRow now reqBody row) = true →
  complete (dbOperations.updatedRow now reqBody row).
Proof.
  intros (Hkeys & Hnn & Htext) Hok. unfold complete. split_and!.
  - intros k. rewrite updatedRow_lookup.
    destruct (decide (k = "updatedAt")) as [->|_]; [intros _; compute_done|].
    destruct (decide (k ∈ dbOperations.updateColumns)) as [Hk|_].
    + intros _. by apply updateColumns_columns.
    + apply Hkeys.
  - intros k Hk.
    destruct (decide (k ∈ "updatedAt" :: dbOperations.updateColumns)) as [Hw|Hw].
    + destruct (notNullOk_lookup _ _ k Hok Hk Hw) as [v Hv].
      rewrite Hv. split; [done|]. rewrite updatedRow_lookup in Hv.
      destruct (decide (k = "updatedAt")); [by injection Hv as <-|].
      destruct (decide (k ∈ dbOperations.updateColumns)).
      * destruct (affinity_text k _ v (notNull_text k Hk) Hv) as [s ->]. done.
      * apply elem_of_cons in Hw as [?|?]; done.
    + rewrite updatedRow_lookup.
      rewrite decide_False by (intros ->; apply Hw; left).
      rewrite decide_False by (intros ?; apply Hw; by right).
      by apply Hnn.
  - intros k v Hk. rewrite updatedRow_lookup.
    destruct (decide (k = "updatedAt")); [intros [= <-]; eauto|].
    destruct (decide (k ∈ dbOperations.updateColumns)).
    + by apply affinity_text.
    + by apply Htext.
Qed.

(** Property X2.  Every row of a table the routes produce holds nothing but
    the twenty-two columns, holds a value in each NOT NULL column, and holds
    a text in every column declared TEXT that is not NULL, its id among
    them: what a request body adds beyond the columns is not stored, no
    update empties a required column, and a number sent for a column of
    text is not stored as a number. *)
Theorem routes_keep_rows_complete {sqlite : Sqlite} (db : table) :
  served db → ∀ r, r ∈ db → complete r.
Proof.
  induction 1 as [|nowId nowCreated nowUpdated reqBody db _ IH
                  |now id reqBody db _ IH|id db _ IH]; intros r Hr.
  - destruct (not_elem_of_nil r Hr).
  - destruct (postProject_cases nowId nowCreated nowUpdated reqBody db)
      as [(Heq & Hs & _)|Heq]; rewrite Heq in Hr; cbn [snd] in Hr; [|by apply IH].
    apply elem_of_app in Hr as [Hr| ->%list_elem_of_singleton]; [by apply IH|].
    by apply complete_inserted.
  - destruct (putProject_cases now id reqBody db) as [[Heq Hok]|Heq];
      rewrite Heq in Hr; cbn [snd] in Hr; [|by apply IH].
    apply list_elem_of_fmap in Hr as (r0 & -> & Hr0).
    case_decide; [|by apply IH].
    apply complete_updated; [by apply IH | by apply Hok].
  - unfold routes.deleteProject, dbOperations.deleteProject in Hr. cbn [snd] in Hr.
    apply list_elem_of_filter in Hr as [_ Hr]. by apply IH.
Qed.

Lemma routes_keep_rows_complete_witness : complete acmeRow.
Proof.
  assert (acmeRow ∈ acmeTable) as Hin by (unfold acmeTable; left).
  exact (routes_keep_rows_complete acmeTable acmeTable_served acmeRow Hin).
Defined.

(** Property X3.  A POST whose body lacks one of the twelve required fields
    is answered 500 with the error message and stores nothing. *)
Theorem postProject_missing_field {sqlite : Sqlite} (nowId nowCreated nowUpdated : Z)
    (reqBody : object)
    (db : table) (k : string) :
  k ∈ dbOperations.required → reqBody !! k = None →
  routes.postProject nowId nowCreated nowUpdated reqBody db
  = ({| status := 500; body := JObject {[ "error" := VStr "Failed to create project" ]} |},
     db).
Proof.
  intros Hk Hnone.
  destruct (postProject_cases nowId nowCreated nowUpdated reqBody db)
    as [(_ & Hs & _)|Heq]; [|exact Heq].
  destruct (Hs k (required_notNull k Hk)) as [[v Hv] _].
  rewrite newProject_lookup, Hnone in Hv.
  assert (k ≠ "updatedAt" ∧ k ≠ "createdAt" ∧ k ≠ "id") as (H1 & H2 & H3).
  { split_and!; intros ->; revert Hk; compute_done. }
  by rewrite !decide_False in Hv.
Qed.

Lemma postProject_missing_field_witness :
  "owner" ∈ dbOperations.required ∧ delete "owner" acme !! "owner" = None
  ∧ routes.postProject 1000 1000 1000 (delete "owner" acme) acmeTable
    = ({| status := 500;
          body := JObject {[ "error" := VStr "Failed to create project" ]} |},
       acmeTable).
Proof.
  assert ("owner" ∈ dbOperations.required) as Hk by compute_done.
  assert (delete "owner" acme !! "owner" = None) as Hnone by apply lookup_delete_eq.
  split_and!; [exact Hk | exact Hnone |].
  exact (postProject_missing_field 1000 1000 1000 (delete "owner" acme) acmeTable
           "owner" Hk Hnone).
Defined.

(** Property X4.  A PUT for an id that is stored, with a body that lacks one
    of the twelve required fields, is answered 500 with the error message
    and changes no row. *)
Theorem putProject_missing_field {sqlite : Sqlite} (now : Z) (id : string) (reqBody row : object)
    (db : table) (k : string) :
  row ∈ db → dbOperations.hasId id row →
  k ∈ dbOperations.required → reqBody !! k = None →
  routes.putProject now id reqBody db
  = ({| status := 500; body := JObject {[ "error" := VStr "Failed to update project" ]} |},
     db).
Proof.
  intros Hin Hid Hk Hnone.
  destruct (putProject_cases now id reqBody db) as [[_ Hok]|Heq]; [|exact Heq].
  specialize (Hok row Hin Hid).
  destruct (notNullOk_lookup _ _ k Hok (required_notNull k Hk)) as [v Hv].
  { right. by apply required_updateColumns. }
  rewrite updatedRow_assigned, Hnone in Hv by by apply required_updateColumns.
  done.
Qed.

Lemma putProject_missing_field_witness :
  acmeRow ∈ acmeTable ∧ dbOperations.hasId "1000" acmeRow
  ∧ "owner" ∈ dbOperations.required ∧ delete "owner" acme !! "owner" = None
  ∧ routes.putProject 2000 "1000" (delete "owner" acme) acmeTable
    = ({| status := 500;
          body := JObject {[ "error" := VStr "Failed to update project" ]} |},
       acmeTable).
Proof.
  assert (acmeRow ∈ acmeTable) as Hin by (unfold acmeTable; left).
  assert ("owner" ∈ dbOperations.required) as Hk by compute_done.
  assert (delete "owner" acme !! "owner" = None) as Hnone by apply lookup_delete_eq.
  split_and!; [exact Hin | exact acmeRow_hasId | exact Hk | exact Hnone |].
  exact (putProject_missing_field 2000 "1000" (delete "owner" acme) acmeRow acmeTable
           "owner" Hin acmeRow_hasId Hk Hnone).
Defined.

(** Property X5.  Whatever its body holds, a PUT keeps the number and the
    order of the rows, keeps the [id] and the [createdAt] of every row, and
    leaves the rows with another id as they are: an [id] or a [createdAt]
    sent in the body is ignored. *)
Theorem putProject_frame {sqlite : Sqlite} (now : Z) (id : string) (reqBody : object) (db : table) :
  let db' := (routes.putProject now id reqBody db).2 in
  length db' = length db
  ∧ ∀ (i : nat) (r : object),
      db !! i = Some r →
      ∃ r', db' !! i = Some r'
            ∧ r' !! "id" = r !! "id"
            ∧ r' !! "createdAt" = r !! "createdAt"
            ∧ (¬ dbOperations.hasId id r → r' = r).
Proof.
  intros db'. unfold db'.
  destruct (putProject_cases now id reqBody db) as [[Heq _]|Heq]; rewrite Heq; cbn [snd].
  - split; [by rewrite length_fmap|].
    intros i r Hi. rewrite list_lookup_fmap, Hi. cbn [fmap option_fmap option_map].
    eexists. split; [reflexivity|].
    case_decide; [|done].
    rewrite !updatedRow_lookup.
    rewrite !(decide_False (P := _ = "updatedAt")) by done.
    rewrite !decide_False by compute_done. done.
  - split; [done|]. intros i r Hi. by exists r.
Qed.

Lemma filter_not_hasId_keep (id : string) (db : table) :
  (∀ r, r ∈ db → ¬ dbOperations.hasId id r) →
  filter (λ r, ¬ dbOperations.hasId id r) db = db.
Proof. intros H. by apply no_row_has_id_filter. Qed.




(** Property X7.  After a successful POST the list answered by GET holds one
    row more than the table held, holds every row the table held, and holds
    a row that carries the two timestamps of the answer of the POST and
    agrees with that answer on each of the twenty-two columns in which the
    answer holds a value of the type of the column; where the answer holds
    no value, or [null], the row is NULL. *)
Theorem postProject_getProjects {sqlite : Sqlite} (nowId nowCreated nowUpdated : Z)
    (reqBody : object)
    (db : table) :
  status (routes.postProject nowId nowCreated nowUpdated reqBody db).1 = 201%nat →
  let project := routes.newProject nowId nowCreated nowUpdated reqBody in
  let db' := (routes.postProject nowId nowCreated nowUpdated reqBody db).2 in
  ∃ rows row,
    routes.getProjects db' = ({| status := 200; body := JArray rows |}, db')
    ∧ length rows = S (length db)
    ∧ (∀ r, r ∈ db → r ∈ rows)
    ∧ row ∈ rows
    ∧ row !! "createdAt" = project !! "createdAt"
    ∧ row !! "updatedAt" = project !! "updatedAt"
    ∧ (∀ k v, k ∈ dbOperations.columns → project !! k = Some v →
              hasColumnType k v → row !! k = Some v)
    ∧ (∀ k, k ∈ dbOperations.columns →
            project !! k = None ∨ project !! k = Some VNull → row !! k = None).
Proof.
  intros Hstatus project db'. unfold db'.
  destruct (postProject_cases nowId nowCreated nowUpdated reqBody db)
    as [(Heq & _ & _)|Heq]; rewrite Heq in Hstatus |- *; [|done].
  cbn [snd]. fold project.
  exists (merge_sort dbOperations.createdAtDesc (db ++ [bind dbOperations.columns project ∅])),
    (bind dbOperations.columns project ∅).
  pose proof (merge_sort_Permutation dbOperations.createdAtDesc
                (db ++ [bind dbOperations.columns project ∅])) as Hperm.
  split_and!.
  - done.
  - rewrite Hperm, length_app. cbn [length]. lia.
  - intros r Hr. rewrite Hperm. apply elem_of_app. by left.
  - rewrite Hperm. apply elem_of_app. right. left.
  - rewrite bind_column by compute_done. unfold project.
    by rewrite newProject_lookup.
  - rewrite bind_column by compute_done. unfold project.
    by rewrite newProject_lookup.
  - intros k v Hk Hv Hty. rewrite bind_column, Hv by done. by apply affinity_typed.
  - intros k Hk Hnone. rewrite bind_column by done. by apply affinity_None.
Qed.

Lemma postProject_getProjects_witness :
  status (routes.postProject 1000 1000 1000 acme []).1 = 201%nat
  ∧ ∃ rows row,
      routes.getProjects (routes.postProject 1000 1000 1000 acme []).2
      = ({| status := 200; body := JArray rows |},
         (routes.postProject 1000 1000 1000 acme []).2)
      ∧ length rows = 1%nat
      ∧ row ∈ rows
      ∧ row !! "companyName" = Some (VStr "Acme").
Proof.
  assert (status (routes.postProject 1000 1000 1000 acme []).1 = 201%nat) as Hs.
  { by rewrite postProject_acme. }
  split; [exact Hs|].
  destruct (postProject_getProjects 1000 1000 1000 acme [] Hs)
    as (rows & row & Hget & Hlen & _ & Hin & _ & _ & Hcols & _).
  exists rows, row. split_and!; [exact Hget | exact Hlen | exact Hin |].
  apply Hcols; [compute_done | | compute_done].
  rewrite newProject_lookup. reflexivity.
Defined.

(** Property X8.  After a DELETE no row with the id is stored or listed by
    GET, the rows with another id are all still stored, and a second DELETE
    of the same id is answered in the same way and removes nothing. *)
Theorem deleteProject_removes (id : string) (db : table) :
  let db' := (routes.deleteProject id db).2 in
  (∀ r, r ∈ db' → ¬ dbOperations.hasId id r)
  ∧ (∀ r, r ∈ db → ¬ dbOperations.hasId id r → r ∈ db')
  ∧ (∃ rows, routes.getProjects db' = ({| status := 200; body := JArray rows |}, db')
             ∧ ∀ r, r ∈ rows → r ∈ db ∧ ¬ dbOperations.hasId id r)
  ∧ routes.deleteProject id db' = ((routes.deleteProject id db).1, db').
Proof.
  intros db'. unfold db', routes.deleteProject, dbOperations.deleteProject. cbn [fst snd].
  split_and!.
  - by intros r [? _]%list_elem_of_filter.
  - intros r Hr Hid. by apply list_elem_of_filter.
  - eexists. split; [reflexivity|].
    intros r Hr. rewrite merge_sort_Permutation in Hr.
    apply list_elem_of_filter in Hr as [? ?]. done.
  - f_equal. apply filter_not_hasId_keep. by intros r [? _]%list_elem_of_filter.
Qed.

(** The row that a PUT answers is a stored row with the id, as the UPDATE
    has written it. *)
Lemma putProject_answer {sqlite : Sqlite} (now : Z) (id : string) (reqBody o : object)
    (db : table) :
  body (routes.putProject now id reqBody db).1 = JObject o →
  status (routes.putProject now id reqBody db).1 = 200%nat →
  ∃ r, r ∈ db ∧ dbOperations.hasId id r ∧ o = dbOperations.updatedRow now reqBody r.
Proof.
  unfold routes.putProject, dbOperations.updateProject.
  destruct (forallb _ db); [|done].
  set (g := λ r : object, if decide (dbOperations.hasId id r)
                          then dbOperations.updatedRow now reqBody r else r).
  destruct (head (filter (dbOperations.hasId id) (g <$> db))) as [o'|] eqn:Hhead; [|done].
  cbn [fst body]. intros [= ->] _.
  assert (o ∈ filter (dbOperations.hasId id) (g <$> db)) as Ho.
  { destruct (filter _ _) as [|x l]; [done|]. cbn in Hhead.
    assert (x = o) as -> by congruence. left. }
  apply list_elem_of_filter in Ho as [Hoid (r0 & Hor0 & Hr0)%list_elem_of_fmap].
  exists r0. unfold g in Hor0.
  destruct (decide (dbOperations.hasId id r0)); [done|]. by rewrite Hor0 in Hoid.
Qed.

(** *** The two timestamps under a clock that does not go back *)

Lemma ticking_instants {sqlite : Sqlite} (start now : Z) (db : table) :
  ticking start now db →
  start <= now
  ∧ ∀ r, r ∈ db →
      ∃ created updated,
        r !! "createdAt" = Some (VStr (Js.toISOString created))
        ∧ r !! "updatedAt" = Some (VStr (Js.toISOString updated))
        ∧ start <= created ∧ created <= updated ∧ updated <= now.
Proof.
  induction 1 as [|now nowId nowCreated nowUpdated reqBody db _ [Hle IH] H1 H2 H3
                  |now now' id reqBody db _ [Hle IH] H1|now id db _ [Hle IH]].
  - split; [lia|]. intros r Hr. destruct (not_elem_of_nil r Hr).
  - split; [lia|]. intros r Hr.
    destruct (postProject_cases nowId nowCreated nowUpdated reqBody db)
      as [(Heq & _ & _)|Heq]; rewrite Heq in Hr; cbn [snd] in Hr.
    + apply elem_of_app in Hr as [Hr| ->%list_elem_of_singleton].
      * destruct (IH r Hr) as (c & u & Hc & Hu & ?). exists c, u. split_and!; [done | done | lia..].
      * exists nowCreated, nowUpdated.
        rewrite !bind_lookup, !decide_True by compute_done.
        rewrite !newProject_lookup. split_and!; [done | done | lia..].
    + destruct (IH r Hr) as (c & u & Hc & Hu & ?). exists c, u. split_and!; [done | done | lia..].
  - split; [lia|]. intros r Hr.
    destruct (putProject_cases now' id reqBody db) as [[Heq _]|Heq];
      rewrite Heq in Hr; cbn [snd] in Hr.
    + apply list_elem_of_fmap in Hr as (r0 & -> & Hr0).
      destruct (IH r0 Hr0) as (c & u & Hc & Hu & ?).
      case_decide; [|exists c, u; split_and!; [done | done | lia..]].
      exists c, now'. rewrite !updatedRow_lookup.
      rewrite decide_False by done. rewrite decide_False by compute_done.
      rewrite decide_True by done. split_and!; [done | done | lia..].
    + destruct (IH r Hr) as (c & u & Hc & Hu & ?). exists c, u. split_and!; [done | done | lia..].
  - split; [lia|]. intros r Hr.
    unfold routes.deleteProject, dbOperations.deleteProject in Hr. cbn [snd] in Hr.
    apply list_elem_of_filter in Hr as [_ Hr]. by apply IH.
Qed.

Lemma toISOString_leb (t1 t2 : Z) :
  fourDigitYear t1 → fourDigitYear t2 → t1 <= t2 →
  String.leb (Js.toISOString t1) (Js.toISOString t2) = true.
Proof.
  intros H1 H2 Hle. unfold String.leb.
  destruct (decide (t1 = t2)) as [->|Hne].
  - by rewrite string_compare_refl.
  - rewrite (toISOString_lt t1 t2) by (done || lia). done.
Qed.

(** Property X9.  While the clock of the server does not go back and stays
    within the years 0000 to 9999, every stored row holds a [createdAt] and
    an [updatedAt] that the server wrote from the clock, the first not
    later than the second, as instants and as the strings compare. *)
Theorem createdAt_not_after_updatedAt {sqlite : Sqlite} (start now : Z) (db : table) (r : object) :
  ticking start now db → fourDigitYear start → fourDigitYear now → r ∈ db →
  ∃ created updated,
    r !! "createdAt" = Some (VStr (Js.toISOString created))
    ∧ r !! "updatedAt" = Some (VStr (Js.toISOString updated))
    ∧ created <= updated
    ∧ String.leb (Js.toISOString created) (Js.toISOString updated) = true.
Proof.
  intros Hdb Hstart Hnow Hr.
  destruct (ticking_instants start now db Hdb) as [_ H].
  destruct (H r Hr) as (c & u & Hc & Hu & H1 & H2 & H3).
  exists c, u. split_and!; [done..|].
  unfold fourDigitYear in *. apply toISOString_leb; unfold fourDigitYear; lia.
Qed.

Lemma acmeTable_updated_ticking :
  ticking 0 2000 (routes.putProject 2000 "1000" acme acmeTable).2.
Proof.
  apply (ticking_put 0 1000); [|lia].
  pose proof (ticking_post 0 0 1000 1000 1000 acme [] (ticking_empty 0)) as H.
  rewrite postProject_acme in H. apply H; lia.
Qed.

Lemma acmeTable_updated :
  dbOperations.updatedRow 2000 acme acmeRow
  ∈ (routes.putProject 2000 "1000" acme acmeTable).2.
Proof.
  pose proof (updateProject_one 2000 "1000" acme acmeRow [] [] acmeRow_hasId) as Hup.
  cbn [app] in Hup. unfold routes.putProject, acmeTable. rewrite Hup.
  - left.
  - intros r Hr. destruct (not_elem_of_nil r Hr).
  - apply acme_supplies_required.
Qed.

Lemma createdAt_not_after_updatedAt_witness :
  ∃ created updated,
    dbOperations.updatedRow 2000 acme acmeRow !! "createdAt"
    = Some (VStr (Js.toISOString created))
    ∧ dbOperations.updatedRow 2000 acme acmeRow !! "updatedAt"
      = Some (VStr (Js.toISOString updated))
    ∧ created <= updated
    ∧ String.leb (Js.toISOString created) (Js.toISOString updated) = true.
Proof.
  assert (fourDigitYear 0) as H0 by (unfold fourDigitYear; lia).
  assert (fourDigitYear 2000) as H1 by (unfold fourDigitYear; lia).
  exact (createdAt_not_after_updatedAt 0 2000 _ _ acmeTable_updated_ticking H0 H1
           acmeTable_updated).
Defined.

(** *** The form *)

Lemma falsy_spec (s : string) : Js.falsy s = true ↔ s = "".
Proof. destruct s; simpl; split; congruence. Qed.

Lemma falsy_false (s : string) : Js.falsy s = false ↔ s ≠ "".
Proof. destruct s; simpl; split; congruence. Qed.

Lemma isDuplicateOf_spec (fd : ProjectForm.FormData) (project : option types.Project)
    (p : types.Project) :
  ProjectForm.isDuplicateOf fd project p = true ↔
    Js.toLowerCase (types.companyName p) = Js.toLowerCase (ProjectForm.companyName fd)
    ∧ types.sector p = ProjectForm.sector fd
    ∧ types.region p = ProjectForm.region fd
    ∧ (∀ current, project = Some current → types.id p ≠ types.id current).
Proof.
  unfold ProjectForm.isDuplicateOf. rewrite !andb_true_iff, !bool_decide_eq_true.
  destruct project as [current|].
  - rewrite bool_decide_eq_true. split.
    + intros [[[? ?] ?] ?]. split_and!; try done. by intros ? [= <-].
    + intros (? & ? & ? & H). split_and!; try done. by apply H.
  - split.
    + intros [[[? ?] ?] _]. split_and!; done.
    + intros (? & ? & ? & _). done.
Qed.

(** Claim C3, as amended.  The duplicate check sets [isDuplicateBlocked]
    exactly when the three key fields of the candidate are not empty and some
    existing project other than the one being edited has the same company
    name up to case and the same sector and region.  A project edited with
    its own values is not flagged unless another project matches it. *)
Theorem isDuplicateBlocked_iff (fd : ProjectForm.FormData)
    (existingProjects : list types.Project) (project : option types.Project) :
  (ProjectForm.isDuplicateBlocked fd existingProjects project = true ↔
     ProjectForm.companyName fd ≠ "" ∧ ProjectForm.sector fd ≠ ""
     ∧ ProjectForm.region fd ≠ ""
     ∧ ∃ p, p ∈ existingProjects
         ∧ Js.toLowerCase (types.companyName p)
           = Js.toLowerCase (ProjectForm.companyName fd)
         ∧ types.sector p = ProjectForm.sector fd
         ∧ types.region p = ProjectForm.region fd
         ∧ (∀ current, project = Some current → types.id p ≠ types.id current))
  ∧ (∀ current,
       project = Some current →
       (∀ p, p ∈ existingProjects → types.id p ≠ types.id current →
             ProjectForm.isDuplicateOf (ProjectForm.ofProject current) project p = false) →
       ProjectForm.isDuplicateBlocked (ProjectForm.ofProject current) existingProjects project
       = false).
Proof.
  assert (∀ fd', ProjectForm.isDuplicateBlocked fd' existingProjects project = true ↔
     ProjectForm.companyName fd' ≠ "" ∧ ProjectForm.sector fd' ≠ ""
     ∧ ProjectForm.region fd' ≠ ""
     ∧ ∃ p, p ∈ existingProjects ∧ ProjectForm.isDuplicateOf fd' project p = true) as Hiff.
  { intros fd'. unfold ProjectForm.isDuplicateBlocked, ProjectForm.checkDuplicate.
    destruct (Js.falsy (ProjectForm.companyName fd')) eqn:Hc; cbn [negb andb].
    { apply falsy_spec in Hc. cbn [snd]. split; [done | by intros [? _]]. }
    destruct (Js.falsy (ProjectForm.sector fd')) eqn:Hs; cbn [negb andb].
    { apply falsy_spec in Hs. cbn [snd]. split; [done | by intros (_ & ? & _)]. }
    destruct (Js.falsy (ProjectForm.region fd')) eqn:Hr; cbn [negb andb].
    { apply falsy_spec in Hr. cbn [snd]. split; [done | by intros (_ & _ & ? & _)]. }
    apply falsy_false in Hc, Hs, Hr.
    destruct (List.find _ _) as [p|] eqn:Hfind; cbn [snd].
    - apply List.find_some in Hfind as [Hin Hdup]. split; [|done].
      intros _. split_and!; try done. exists p. split; [by apply list_elem_of_In | done].
    - split; [done|]. intros (_ & _ & _ & p & Hin & Hdup).
      apply list_elem_of_In in Hin.
      by rewrite (List.find_none _ _ Hfind p Hin) in Hdup. }
  split.
  - rewrite Hiff. split.
    + intros (? & ? & ? & p & Hin & Hdup). split_and!; try done.
      exists p. split; [done|]. by apply isDuplicateOf_spec.
    + intros (? & ? & ? & p & Hin & Hdup). split_and!; try done.
      exists p. split; [done|]. by apply isDuplicateOf_spec.
  - intros current -> Hothers. apply not_true_iff_false. rewrite Hiff.
    intros (_ & _ & _ & p & Hin & Hdup).
    destruct (decide (types.id p = types.id current)) as [Heq|Hne].
    + apply isDuplicateOf_spec in Hdup as (_ & _ & _ & H). by apply (H current).
    + by rewrite (Hothers p Hin Hne) in Hdup.
Qed.

(** Claim C3 as stated fails: the candidate has no sector yet and a project
    without sector is stored; the three fields agree, nothing is being
    edited, and the flag is not set. *)
Lemma no_sector_is_not_blocked :
  let fd := ProjectForm.setString "region" "Afar"
              (ProjectForm.setString "companyName" "Acme" ProjectForm.initialFormData) in
  noSector ∈ [acmeProject; noSector]
  ∧ Js.toLowerCase (types.companyName noSector) = Js.toLowerCase (ProjectForm.companyName fd)
  ∧ types.sector noSector = ProjectForm.sector fd
  ∧ types.region noSector = ProjectForm.region fd
  ∧ ProjectForm.isDuplicateBlocked fd [acmeProject; noSector] None = false.
Proof. split_and!; [by right; left | reflexivity..]. Qed.

Example duplicate_samples :
  let fd := ProjectForm.setString "sector" "Health"
              (ProjectForm.setString "region" "Afar"
                 (ProjectForm.setString "companyName" "acme" ProjectForm.initialFormData)) in
  ProjectForm.isDuplicateBlocked fd [acmeProject] None = true
  ∧ ProjectForm.isDuplicateBlocked fd [acmeProject] (Some acmeProject) = false
  ∧ ProjectForm.isDuplicateBlocked (ProjectForm.ofProject acmeProject) [acmeProject]
      (Some acmeProject) = false.
Proof. split_and!; reflexivity. Qed.

Lemma orError_lookup (cond : bool) (key msg : string) (e : gmap string string) (k : string) :
  ProjectForm.orError cond key msg e !! k
  = if cond && bool_decide (key = k) then Some msg else e !! k.
Proof.
  unfold ProjectForm.orError. destruct cond; cbn [andb]; [|done].
  rewrite lookup_insert.
  by destruct (decide (key = k));
    [rewrite bool_decide_eq_true_2 | rewrite bool_decide_eq_false_2].
Qed.

Lemma email_lookup (c b : bool) (m m' : string) (e : gmap string string) (k : string) :
  (if c then <["companyEmail" := m]> e
   else ProjectForm.orError b "companyEmail" m' e) !! k
  = if bool_decide ("companyEmail" = k)
    then (if c then Some m else if b then Some m' else e !! k)
    else e !! k.
Proof.
  destruct c.
  - rewrite lookup_insert.
    by destruct (decide ("companyEmail" = k));
      [rewrite bool_decide_eq_true_2 | rewrite bool_decide_eq_false_2].
  - rewrite orError_lookup. by destruct b, (bool_decide _).
Qed.

(** Turning a lookup in [newErrors] into a cascade of tests on the key. *)
Ltac errors_cascade :=
  unfold ProjectForm.newErrors;
  rewrite orError_lookup, email_lookup, !orError_lookup, lookup_empty.

(** Deciding the tests of the cascade for a key that is a literal. *)
Ltac literal_keys :=
  repeat first
    [ rewrite bool_decide_eq_true_2 by reflexivity
    | rewrite bool_decide_eq_false_2 by discriminate ];
  rewrite ?andb_false_r, ?andb_true_r; cbv iota.

Section Validation.

Variable t : string → string.
Variable fd : ProjectForm.FormData.
Variable blocked : bool.

Lemma newErrors_trimmed (k : string) (get : ProjectForm.FormData → string) :
  (k, get) ∈ ProjectForm.trimmedFields →
  ProjectForm.newErrors t fd blocked !! k
  = if Js.falsy (Js.trim (get fd)) then Some (t "form.required") else None.
Proof.
  unfold ProjectForm.trimmedFields. rewrite !elem_of_cons, elem_of_nil.
  intros H. errors_cascade.
  destruct_or!; try done; injection H as -> ->; by literal_keys.
Qed.

Lemma newErrors_untrimmed (k : string) (get : ProjectForm.FormData → string) :
  (k, get) ∈ ProjectForm.untrimmedFields →
  ProjectForm.newErrors t fd blocked !! k
  = if Js.falsy (get fd) then Some (t "form.required") else None.
Proof.
  unfold ProjectForm.untrimmedFields. rewrite !elem_of_cons, elem_of_nil.
  intros H. errors_cascade.
  destruct_or!; try done; injection H as -> ->; by literal_keys.
Qed.

Lemma newErrors_email :
  ProjectForm.newErrors t fd blocked !! "companyEmail"
  = if Js.falsy (Js.trim (ProjectForm.companyEmail fd)) then Some (t "form.required")
    else if Js.test ProjectForm.emailPattern (ProjectForm.companyEmail fd) then None
    else Some "Invalid email format".
Proof.
  errors_cascade. literal_keys.
  destruct (Js.falsy _); [done|].
  by destruct (Js.test ProjectForm.emailPattern _).
Qed.

Lemma newErrors_duplicate :
  ProjectForm.newErrors t fd blocked !! "duplicate"
  = if blocked then Some ProjectForm.duplicateError else None.
Proof. errors_cascade. literal_keys. by destruct blocked. Qed.

Lemma newErrors_other (k : string) :
  k ∉ ProjectForm.errorKeys → ProjectForm.newErrors t fd blocked !! k = None.
Proof.
  unfold ProjectForm.errorKeys. cbn [ProjectForm.trimmedFields ProjectForm.untrimmedFields
                         fmap list_fmap fst app].
  rewrite !not_elem_of_cons. intros H. destruct_and!.
  errors_cascade.
  repeat (rewrite (bool_decide_eq_false_2 (_ = k)) by congruence).
  rewrite ?andb_false_r. done.
Qed.

Lemma newErrors_key (k : string) :
  is_Some (ProjectForm.newErrors t fd blocked !! k) →
  ProjectForm.fieldError fd ∨ blocked = true.
Proof.
  intros Hk. destruct (decide (k ∈ ProjectForm.errorKeys)) as [Hin|Hout].
  2: { rewrite newErrors_other in Hk by done. by destruct Hk. }
  unfold ProjectForm.errorKeys in Hin.
  rewrite !elem_of_cons, elem_of_app, !list_elem_of_fmap in Hin.
  destruct Hin as [->|[->|[([k' get] & -> & Hf)|([k' get] & -> & Hf)]]]; cbn [fst] in Hk.
  - rewrite newErrors_duplicate in Hk. destruct blocked; [by right | by destruct Hk].
  - rewrite newErrors_email in Hk. left. unfold ProjectForm.fieldError.
    destruct (Js.falsy _) eqn:He; [apply falsy_spec in He; tauto|].
    destruct (Js.test _ _); [by destruct Hk | tauto].
  - rewrite (newErrors_trimmed k' get Hf) in Hk. left. left. exists k', get.
    destruct (Js.falsy _) eqn:He; [by apply falsy_spec in He | by destruct Hk].
  - rewrite (newErrors_untrimmed k' get Hf) in Hk. left. right. left. exists k', get.
    destruct (Js.falsy _) eqn:He; [by apply falsy_spec in He | by destruct Hk].
Qed.

Lemma newErrors_of_error :
  ProjectForm.fieldError fd ∨ blocked = true →
  ∃ k, is_Some (ProjectForm.newErrors t fd blocked !! k).
Proof.
  intros [[(k & get & Hf & He)|[(k & get & Hf & He)|[He|He]]]|Hb].
  - exists k. rewrite (newErrors_trimmed k get Hf), He. by eexists.
  - exists k. rewrite (newErrors_untrimmed k get Hf), He. by eexists.
  - exists "companyEmail". rewrite newErrors_email, He. by eexists.
  - exists "companyEmail". rewrite newErrors_email, He.
    destruct (Js.falsy _); by eexists.
  - exists "duplicate". rewrite newErrors_duplicate, Hb. by eexists.
Qed.

End Validation.

(** Claim C4, as amended.  [validateForm] stores [newErrors] as the errors of
    the form.  Each of the six text fields of [trimmedFields] has the
    required message under its name exactly when it is empty after trimming,
    each of the five select and date fields of [untrimmedFields] exactly when
    it is the empty string; [companyEmail] has the required message when
    empty after trimming, else the format message when the pattern does not
    match; [duplicate] is set exactly when the form is blocked; no other key
    is set.  The form is rejected exactly when a field is in error or the
    form is blocked. *)
Theorem validateForm_rejects (t : string → string) (blocked : bool)
    (st : ProjectForm.State) :
  let fd := ProjectForm.formData st in
  let errs := ProjectForm.newErrors t fd blocked in
  ProjectForm.errors (ProjectForm.validateForm t blocked st).2 = errs
  ∧ (∀ k get, (k, get) ∈ ProjectForm.trimmedFields →
       errs !! k = if Js.falsy (Js.trim (get fd)) then Some (t "form.required") else None)
  ∧ (∀ k get, (k, get) ∈ ProjectForm.untrimmedFields →
       errs !! k = if Js.falsy (get fd) then Some (t "form.required") else None)
  ∧ errs !! "companyEmail"
    = (if Js.falsy (Js.trim (ProjectForm.companyEmail fd)) then Some (t "form.required")
       else if Js.test ProjectForm.emailPattern (ProjectForm.companyEmail fd) then None
       else Some "Invalid email format")
  ∧ errs !! "duplicate"
    = (if blocked then Some ProjectForm.duplicateError else None)
  ∧ (∀ k, k ∉ ProjectForm.errorKeys → errs !! k = None)
  ∧ ((ProjectForm.validateForm t blocked st).1 = false ↔
     ProjectForm.fieldError fd ∨ blocked = true).
Proof.
  intros fd errs. split_and!.
  - done.
  - apply newErrors_trimmed.
  - apply newErrors_untrimmed.
  - apply newErrors_email.
  - apply newErrors_duplicate.
  - apply newErrors_other.
  - unfold ProjectForm.validateForm. cbn [fst]. fold fd. fold errs.
    rewrite bool_decide_eq_false, map_size_ne_0_lookup. split.
    + intros [k Hk]. by apply (newErrors_key t fd blocked k).
    + apply newErrors_of_error.
Qed.

(** Claim C4 as stated fails: the sector of [blankSector] is empty after
    trimming, and the form is accepted without any error. *)
Lemma blank_sector_is_accepted :
  Js.trim (ProjectForm.sector (ProjectForm.formData blankSector)) = ""
  ∧ ProjectForm.newErrors english (ProjectForm.formData blankSector) false = ∅
  ∧ (ProjectForm.validateForm english false blankSector).1 = true.
Proof. split_and!; vm_compute; reflexivity. Qed.

Section Change.

Variable Number : string → Z.

Lemma changeFormData_total (name value : string) (prev : ProjectForm.FormData) :
  ProjectForm.editable name →
  let next := ProjectForm.changeFormData Number name value prev in
  ((name = "employeesMale" ∨ name = "employeesFemale") → ProjectForm.totalIsSum next)
  ∧ (name ≠ "employeesMale" → name ≠ "employeesFemale" →
     ProjectForm.employeesMale next = ProjectForm.employeesMale prev
     ∧ ProjectForm.employeesFemale next = ProjectForm.employeesFemale prev
     ∧ ProjectForm.employeesTotal next = ProjectForm.employeesTotal prev).
Proof.
  unfold ProjectForm.editable, ProjectForm.inputs.
  rewrite !elem_of_cons, elem_of_nil. intros H.
  destruct_or!; try done; injection H as ->;
    (split;
     [ intros [?|?]; try done; vm_compute; reflexivity
     | intros ? ?; try done; split_and!; reflexivity ]).
Qed.

Lemma changeFormData_counts (value : string) (prev : ProjectForm.FormData) :
  let male := ProjectForm.changeFormData Number "employeesMale" value prev in
  let female := ProjectForm.changeFormData Number "employeesFemale" value prev in
  (ProjectForm.employeesMale male = Number value
   ∧ ProjectForm.employeesFemale male = ProjectForm.employeesFemale prev
   ∧ ProjectForm.employeesTotal male = Number value + ProjectForm.employeesFemale prev)
  ∧ (ProjectForm.employeesMale female = ProjectForm.employeesMale prev
     ∧ ProjectForm.employeesFemale female = Number value
     ∧ ProjectForm.employeesTotal female = ProjectForm.employeesMale prev + Number value).
Proof. split_and!; reflexivity. Qed.

Lemma reachable_totalIsSum (st : ProjectForm.State) :
  ProjectForm.reachable Number st → ProjectForm.totalIsSum (ProjectForm.formData st).
Proof.
  induction 1 as [|name value st Hst IH Hname|value st Hst IH|t blocked st Hst IH].
  - reflexivity.
  - cbn [ProjectForm.handleChange ProjectForm.formData].
    destruct (changeFormData_total name value (ProjectForm.formData st) Hname) as [Hset Hkeep].
    destruct (decide (name = "employeesMale")) as [->|Hm]; [apply Hset; by left|].
    destruct (decide (name = "employeesFemale")) as [->|Hf]; [apply Hset; by right|].
    destruct (Hkeep Hm Hf) as (Em & Ef & Et). unfold ProjectForm.totalIsSum in *.
    rewrite Em, Ef, Et. exact IH.
  - exact IH.
  - exact IH.
Qed.

End Change.

(** Claim C1, as amended.  In the form, [employeesTotal] is the sum of the two
    other counts from the start.  A change of [employeesMale] sets that
    count to the number typed, leaves [employeesFemale] as it was and sets
    [employeesTotal] to the sum of the two, and likewise a change of
    [employeesFemale]; a change of any other input the user can edit leaves
    the three counts alone, and the input of the total is read-only.  Hence
    every state of the form for a new project, and the data it submits,
    satisfy the invariant; a form opened on a stored project satisfies it
    exactly when the project does.  The server does not recompute the total:
    an integer sent as [employeesTotal] is answered by the POST route and
    stored by it as it was sent, whatever the two other counts are, and it
    is written by the UPDATE into every row the PUT route rewrites and is
    held by the row the route answers. *)
Theorem handleChange_totalIsSum (Number : string → Z) :
  ProjectForm.totalIsSum ProjectForm.initialFormData
  ∧ (∀ name value st,
       ProjectForm.editable name →
       let fd := ProjectForm.formData st in
       let fd' := ProjectForm.formData (ProjectForm.handleChange Number name value st) in
       ((name = "employeesMale" ∨ name = "employeesFemale") → ProjectForm.totalIsSum fd')
       ∧ (name = "employeesMale" →
          ProjectForm.employeesMale fd' = Number value
          ∧ ProjectForm.employeesFemale fd' = ProjectForm.employeesFemale fd
          ∧ ProjectForm.employeesTotal fd' = Number value + ProjectForm.employeesFemale fd)
       ∧ (name = "employeesFemale" →
          ProjectForm.employeesMale fd' = ProjectForm.employeesMale fd
          ∧ ProjectForm.employeesFemale fd' = Number value
          ∧ ProjectForm.employeesTotal fd' = ProjectForm.employeesMale fd + Number value)
       ∧ (name ≠ "employeesMale" → name ≠ "employeesFemale" →
          ProjectForm.employeesMale fd' = ProjectForm.employeesMale fd
          ∧ ProjectForm.employeesFemale fd' = ProjectForm.employeesFemale fd
          ∧ ProjectForm.employeesTotal fd' = ProjectForm.employeesTotal fd))
  ∧ ¬ ProjectForm.editable "employeesTotal"
  ∧ (∀ st, ProjectForm.reachable Number st →
       ProjectForm.totalIsSum (ProjectForm.formData st)
       ∧ ProjectForm.totalIsSum (ProjectForm.submitData st))
  ∧ (∀ project metadata st,
       ProjectForm.totalIsSum
         (ProjectForm.formData (ProjectForm.openProject (Some project) metadata st))
       ↔ types.employeesTotal project
         = types.employeesMale project + types.employeesFemale project)
  ∧ (∀ (sqlite : Sqlite) nowId nowCreated nowUpdated reqBody db n,
       reqBody !! "employeesTotal" = Some (VNum n) →
       let project := routes.newProject nowId nowCreated nowUpdated reqBody in
       let row := bind dbOperations.columns project ∅ in
       project !! "employeesTotal" = Some (VNum n)
       ∧ row !! "employeesTotal" = Some (VNum n)
       ∧ (status (routes.postProject nowId nowCreated nowUpdated reqBody db).1 = 201%nat →
          routes.postProject nowId nowCreated nowUpdated reqBody db
          = ({| status := 201; body := JObject project |}, db ++ [row])))
  ∧ (∀ (sqlite : Sqlite) now id reqBody db n,
       reqBody !! "employeesTotal" = Some (VNum n) →
       (∀ row, dbOperations.updatedRow now reqBody row !! "employeesTotal" = Some (VNum n))
       ∧ (status (routes.putProject now id reqBody db).1 = 200%nat →
          (routes.putProject now id reqBody db).2
          = (λ r, if decide (dbOperations.hasId id r)
                  then dbOperations.updatedRow now reqBody r else r) <$> db
          ∧ ∀ o, body (routes.putProject now id reqBody db).1 = JObject o →
                 o !! "employeesTotal" = Some (VNum n))).
Proof.
  split_and!.
  - reflexivity.
  - intros name value st Hname fd fd'.
    destruct (changeFormData_total Number name value fd Hname) as [Hsum Hkeep].
    destruct (changeFormData_counts Number value fd) as [Hmale Hfemale].
    split_and!; [exact Hsum | by intros -> | by intros -> | exact Hkeep].
  - unfold ProjectForm.editable. compute_done.
  - intros st Hst. split; [exact (reachable_totalIsSum Number st Hst)|].
    apply (reachable_totalIsSum Number st Hst).
  - intros project metadata st. unfold ProjectForm.openProject.
    by destruct (negb _ && negb _).
  - intros sqlite nowId nowCreated nowUpdated reqBody db n Hn project row.
    assert (project !! "employeesTotal" = Some (VNum n)) as Hp.
    { unfold project. by rewrite newProject_lookup, Hn. }
    split_and!; [exact Hp | |].
    + unfold row. by rewrite bind_column, Hp by compute_done.
    + intros Hst.
      destruct (postProject_cases nowId nowCreated nowUpdated reqBody db)
        as [(Heq & _ & _)|Heq]; [exact Heq|].
      rewrite Heq in Hst. discriminate Hst.
  - intros sqlite now id reqBody db n Hn.
    assert (∀ row, dbOperations.updatedRow now reqBody row !! "employeesTotal"
                   = Some (VNum n)) as Hrow.
    { intros row. by rewrite updatedRow_assigned, Hn by compute_done. }
    split; [exact Hrow|]. intros Hst. split.
    + destruct (putProject_cases now id reqBody db) as [[Heq _]|Heq]; [exact Heq|].
      rewrite Heq in Hst. discriminate Hst.
    + intros o Ho. destruct (putProject_answer now id reqBody o db Ho Hst)
        as (r & _ & _ & ->). apply Hrow.
Qed.


Example three_changes_reachable :
  ProjectForm.reachable decimal
    (ProjectForm.handleChange decimal "employeesFemale" "2"
       (ProjectForm.handleChange decimal "owner" "Abebe"
          (ProjectForm.handleChange decimal "employeesMale" "3"
             ProjectForm.initialState))).
Proof.
  repeat (apply ProjectForm.reachable_change; [|unfold ProjectForm.editable; compute_done]).
  apply ProjectForm.reachable_initial.
Qed.

Example three_changes_total :
  ProjectForm.employeesTotal
    (ProjectForm.formData
       (ProjectForm.handleChange decimal "employeesFemale" "2"
          (ProjectForm.handleChange decimal "owner" "Abebe"
             (ProjectForm.handleChange decimal "employeesMale" "3"
                ProjectForm.initialState)))) = 5.
Proof. vm_compute. reflexivity. Qed.

(** *** The form: the boxes above the fields, the round trip of an edit and
    the messages *)

Lemma falsy_append_String (c : ascii) (s1 s2 : string) :
  Js.falsy (String c s1 +:+ s2) = false.
Proof. reflexivity. Qed.

(** Property X11.  The warning box above the fields of the form is never
    the one titled Potential Duplicate Detected: the box is shown exactly
    when the form is blocked, with the title Duplicate Project Detected, and
    the box No Duplicates Found is shown exactly when the company name, the
    sector and the region are filled in and the form is not blocked. *)
Theorem duplicate_boxes (fd : ProjectForm.FormData) (existingProjects : list types.Project)
    (project : option types.Project) :
  warningTitle fd existingProjects project ≠ Some "Potential Duplicate Detected"
  ∧ (warningTitle fd existingProjects project = Some "Duplicate Project Detected"
     ↔ ProjectForm.isDuplicateBlocked fd existingProjects project = true)
  ∧ (warningTitle fd existingProjects project = None
     ↔ ProjectForm.isDuplicateBlocked fd existingProjects project = false)
  ∧ (noDuplicatesFound fd existingProjects project = true
     ↔ ProjectForm.companyName fd ≠ "" ∧ ProjectForm.sector fd ≠ ""
       ∧ ProjectForm.region fd ≠ ""
       ∧ ProjectForm.isDuplicateBlocked fd existingProjects project = false).
Proof.
  unfold warningTitle, noDuplicatesFound, ProjectForm.duplicateWarning,
    ProjectForm.isDuplicateBlocked, ProjectForm.checkDuplicate.
  destruct (ProjectForm.companyName fd) as [|c1 s1], (ProjectForm.sector fd) as [|c2 s2],
    (ProjectForm.region fd) as [|c3 s3]; cbn [Js.falsy negb andb fst snd];
    try (split_and!; [done | split; done | split; done
                      | split; [done | by intros (? & ? & ? & ?)]]).
  destruct (List.find _ existingProjects); cbn [fst snd].
  - rewrite falsy_append_String. cbn [negb].
    split_and!; [done | done | split; done | split; [done | by intros (? & ? & ? & ?)]].
  - cbn [Js.falsy negb andb]. split_and!; [done | split; done | done | done].
Qed.

Lemma setString_subSector (value : string) (fd : ProjectForm.FormData) :
  ProjectForm.setString "subSector" value fd
  = {| ProjectForm.companyName := ProjectForm.companyName fd;
       ProjectForm.sector := ProjectForm.sector fd;
       ProjectForm.subSector := value;
       ProjectForm.region := ProjectForm.region fd;
       ProjectForm.zone := ProjectForm.zone fd;
       ProjectForm.woreda := ProjectForm.woreda fd;
       ProjectForm.approvalDate := ProjectForm.approvalDate fd;
       ProjectForm.owner := ProjectForm.owner fd;
       ProjectForm.advisorCompany := ProjectForm.advisorCompany fd;
       ProjectForm.evaluator := ProjectForm.evaluator fd;
       ProjectForm.grantedBy := ProjectForm.grantedBy fd;
       ProjectForm.contactPerson := ProjectForm.contactPerson fd;
       ProjectForm.ownerPhone := ProjectForm.ownerPhone fd;
       ProjectForm.companyEmail := ProjectForm.companyEmail fd;
       ProjectForm.companyWebsite := ProjectForm.companyWebsite fd;
       ProjectForm.projectStatus := ProjectForm.projectStatus fd;
       ProjectForm.employeesMale := ProjectForm.employeesMale fd;
       ProjectForm.employeesFemale := ProjectForm.employeesFemale fd;
       ProjectForm.employeesTotal := ProjectForm.employeesTotal fd |}.
Proof. reflexivity. Qed.

(** Property X12.  When the sub-sectors of the metadata do not list the
    word Other, a project opened for editing and submitted without a change
    sends back its own nineteen fields, whether or not its sub-sector is one
    of the listed ones: a sub-sector that is not listed is shown as Other
    with the stored text beside it, and the stored text is what is sent. *)
Theorem openProject_submitData (p : types.Project) (metadata : option types.Metadata)
    (st : ProjectForm.State) :
  ProjectForm.knownSubSector metadata "Other" = false →
  let opened := ProjectForm.openProject (Some p) metadata st in
  ProjectForm.submitData opened = ProjectForm.ofProject p
  ∧ ProjectForm.subSector (ProjectForm.submitData opened) = types.subSector p
  ∧ (types.subSector p ≠ "" →
     ProjectForm.knownSubSector metadata (types.subSector p) = false →
     ProjectForm.subSector (ProjectForm.formData opened) = "Other"
     ∧ ProjectForm.otherSubSector opened = types.subSector p).
Proof.
  intros Hother opened. unfold opened, ProjectForm.openProject, ProjectForm.submitData.
  destruct (negb (Js.falsy (types.subSector p))
            && negb (ProjectForm.knownSubSector metadata (types.subSector p))) eqn:Hcase;
    cbn [ProjectForm.formData ProjectForm.otherSubSector].
  - rewrite !setString_subSector. cbn [ProjectForm.subSector].
    rewrite decide_True by done. unfold ProjectForm.ofProject. cbn.
    split_and!; [|done..].
    destruct (decide (types.subSector p = "Other")) as [Heq|_]; [by rewrite Heq | done].
  - assert (types.subSector p ≠ "Other") as Hne.
    { intros Heq. rewrite Heq, Hother in Hcase. done. }
    unfold ProjectForm.ofProject. cbn [ProjectForm.subSector].
    destruct (decide (types.subSector p = "Other")) as [?|_]; [done|].
    destruct (decide (types.subSector p = "Other")) as [?|_]; [done|].
    rewrite setString_subSector. cbn.
    split_and!; [done | done |].
    intros Hne' Hunknown. rewrite Hunknown in Hcase.
    by destruct (types.subSector p).
Qed.

Lemma openProject_submitData_witness :
  ProjectForm.knownSubSector (Some metadata) "Other" = false
  ∧ ProjectForm.submitData
      (ProjectForm.openProject (Some acmeProject) (Some metadata) ProjectForm.initialState)
    = ProjectForm.ofProject acmeProject.
Proof.
  assert (ProjectForm.knownSubSector (Some metadata) "Other" = false) as H by reflexivity.
  split; [exact H|].
  exact (proj1 (openProject_submitData acmeProject (Some metadata)
                  ProjectForm.initialState H)).
Defined.

(** Property X13.  A change of an input clears the message of that input
    and no other: the messages under the other keys stay as they are, and
    no change makes a message appear. *)
Theorem handleChange_errors (Number : string → Z) (name value : string)
    (st : ProjectForm.State) :
  let errors' := ProjectForm.errors (ProjectForm.handleChange Number name value st) in
  ProjectForm.hasError errors' name = false
  ∧ (∀ k, k ≠ name → errors' !! k = ProjectForm.errors st !! k)
  ∧ (∀ k, ProjectForm.hasError errors' k = true →
          ProjectForm.hasError (ProjectForm.errors st) k = true).
Proof.
  intros errors'. unfold errors', ProjectForm.handleChange. cbn [ProjectForm.errors].
  destruct (ProjectForm.hasError (ProjectForm.errors st) name) eqn:Hname.
  - split_and!.
    + unfold ProjectForm.hasError. by rewrite lookup_insert_eq.
    + intros k Hk. by rewrite lookup_insert_ne.
    + intros k. unfold ProjectForm.hasError.
      destruct (decide (name = k)) as [->|Hk].
      * by rewrite lookup_insert_eq.
      * by rewrite lookup_insert_ne.
  - done.
Qed.

(** *** The dashboard *)

Lemma reduceSum_from (f : types.Project → Z) (projects : list types.Project) (a : Z) :
  fold_left (λ sum p, sum + f p) projects a
  = a + Dashboard.sumWhere (λ _, true) f projects.
Proof.
  revert a. induction projects as [|p rest IH]; intros a; simpl.
  - lia.
  - rewrite IH. lia.
Qed.

Lemma reduceSum_all (f : types.Project → Z) (projects : list types.Project) :
  Dashboard.reduceSum f projects = Dashboard.sumWhere (λ _, true) f projects.
Proof. unfold Dashboard.reduceSum. by rewrite reduceSum_from. Qed.

Lemma reduceSum_filter (P : types.Project → Prop) `{∀ p, Decision (P p)}
    (f : types.Project → Z) (projects : list types.Project) :
  Dashboard.reduceSum f (filter P projects)
  = Dashboard.sumWhere (λ p, bool_decide (P p)) f projects.
Proof.
  rewrite reduceSum_all. induction projects as [|p rest IH]; [done|].
  rewrite filter_cons. cbn [Dashboard.sumWhere]. case_decide.
  - rewrite bool_decide_eq_true_2 by done. cbn [Dashboard.sumWhere]. by rewrite IH.
  - rewrite bool_decide_eq_false_2 by done. by rewrite IH.
Qed.

Lemma length_filter_count (P : types.Project → Prop) `{∀ p, Decision (P p)}
    (projects : list types.Project) :
  length (filter P projects) = Dashboard.countWhere (λ p, bool_decide (P p)) projects.
Proof.
  induction projects as [|p rest IH]; [done|].
  rewrite filter_cons. cbn [Dashboard.countWhere]. case_decide.
  - rewrite bool_decide_eq_true_2 by done. cbn [length]. by rewrite IH.
  - rewrite bool_decide_eq_false_2 by done. by rewrite IH.
Qed.

(** Claim C5.  The statistics of the dashboard are the count of the records,
    the sums of the three employee counts over all records, the counts of
    the records whose status is Completed and In Progress, and, for each
    sector, status and region of the metadata, in their order, the count of
    the matching records and (for sectors and regions) the sum of their
    [employeesTotal]; without metadata the three breakdowns are empty.
    Three records with totals 10, 20 and 30 give a total of 60. *)
Theorem dashboard_aggregates (projects : list types.Project) :
  let s := Dashboard.stats projects in
  types.totalProjects s = length projects
  ∧ types.totalEmployees s = Dashboard.sumWhere (λ _, true) types.employeesTotal projects
  ∧ types.maleEmployees s = Dashboard.sumWhere (λ _, true) types.employeesMale projects
  ∧ types.femaleEmployees s = Dashboard.sumWhere (λ _, true) types.employeesFemale projects
  ∧ types.completedProjects s
    = Dashboard.countWhere (λ p, bool_decide (types.projectStatus p = "Completed")) projects
  ∧ types.inProgressProjects s
    = Dashboard.countWhere (λ p, bool_decide (types.projectStatus p = "In Progress")) projects
  ∧ (∀ m, Dashboard.sectorData projects (Some m)
          = (λ sector,
               {| Dashboard.name := sector;
                  Dashboard.value :=
                    Dashboard.countWhere (λ p, bool_decide (types.sector p = sector)) projects;
                  Dashboard.employees :=
                    Dashboard.sumWhere (λ p, bool_decide (types.sector p = sector))
                      types.employeesTotal projects |}) <$> types.sectors m)
  ∧ (∀ m, Dashboard.statusData projects (Some m)
          = (λ status,
               {| Dashboard.statusName := status;
                  Dashboard.statusValue :=
                    Dashboard.countWhere (λ p, bool_decide (types.projectStatus p = status))
                      projects |}) <$> types.projectStatuses m)
  ∧ (∀ m, Dashboard.regionData projects (Some m)
          = (λ region,
               {| Dashboard.name := region;
                  Dashboard.value :=
                    Dashboard.countWhere (λ p, bool_decide (types.region p = region)) projects;
                  Dashboard.employees :=
                    Dashboard.sumWhere (λ p, bool_decide (types.region p = region))
                      types.employeesTotal projects |}) <$> types.regions m)
  ∧ Dashboard.sectorData projects None = []
  ∧ Dashboard.statusData projects None = []
  ∧ Dashboard.regionData projects None = []
  ∧ (∀ p1 p2 p3,
       types.employeesTotal p1 = 10 → types.employeesTotal p2 = 20 →
       types.employeesTotal p3 = 30 →
       types.totalEmployees (Dashboard.stats [p1; p2; p3]) = 60).
Proof.
  intros s. split_and!.
  - done.
  - apply reduceSum_all.
  - apply reduceSum_all.
  - apply reduceSum_all.
  - apply (length_filter_count (λ p, types.projectStatus p = "Completed")).
  - apply (length_filter_count (λ p, types.projectStatus p = "In Progress")).
  - intros m. unfold Dashboard.sectorData. apply list_fmap_ext. intros _ sector _.
    f_equal.
    + apply (length_filter_count (λ p, types.sector p = sector)).
    + apply (reduceSum_filter (λ p, types.sector p = sector)).
  - intros m. unfold Dashboard.statusData. apply list_fmap_ext. intros _ status _.
    f_equal. apply (length_filter_count (λ p, types.projectStatus p = status)).
  - intros m. unfold Dashboard.regionData. apply list_fmap_ext. intros _ region _.
    f_equal.
    + apply (length_filter_count (λ p, types.region p = region)).
    + apply (reduceSum_filter (λ p, types.region p = region)).
  - done.
  - done.
  - done.
  - intros p1 p2 p3 H1 H2 H3. cbn. rewrite H1, H2, H3. reflexivity.
Qed.

(** In a list of records that satisfy the invariant of the data model with
    counts that are not negative, a total of zero leaves no man and no woman. *)
Lemma zero_total_zero_parts (projects : list types.Project) :
  (∀ p, p ∈ projects →
     0 ≤ types.employeesMale p ∧ 0 ≤ types.employeesFemale p
     ∧ types.employeesTotal p = types.employeesMale p + types.employeesFemale p) →
  0 ≤ Dashboard.sumWhere (λ _, true) types.employeesMale projects
  ∧ 0 ≤ Dashboard.sumWhere (λ _, true) types.employeesFemale projects
  ∧ Dashboard.sumWhere (λ _, true) types.employeesTotal projects
    = Dashboard.sumWhere (λ _, true) types.employeesMale projects
      + Dashboard.sumWhere (λ _, true) types.employeesFemale projects.
Proof.
  induction projects as [|p rest IH]; intros H; [done|].
  destruct IH as (IHm & IHf & IHt); [intros q Hq; apply H; by right|].
  destruct (H p) as (Hm & Hf & Ht); [left|].
  cbn [Dashboard.sumWhere]. lia.
Qed.

(** Claim C9, as amended.  For the empty list of projects [totalProjects]
    and [totalEmployees] are 0 and both percentages are defined and are NaN.
    For a list whose [totalEmployees] is 0, a percentage is NaN when its own
    count is 0 as well; this is so for every list of records that satisfy
    the invariant of the data model with no negative count.  It is not so
    for every list: for the one record with five men, no woman and a total
    of zero, [totalEmployees] is 0, the percentage of men is Infinity and
    the one of women is NaN. *)
Theorem empty_dashboard_percentages :
  types.totalProjects (Dashboard.stats []) = 0%nat
  ∧ types.totalEmployees (Dashboard.stats []) = 0
  ∧ Dashboard.malePercentage (Dashboard.stats []) = nan
  ∧ Dashboard.femalePercentage (Dashboard.stats []) = nan
  ∧ (∀ projects,
       types.totalEmployees (Dashboard.stats projects) = 0 →
       (types.maleEmployees (Dashboard.stats projects) = 0 →
        Dashboard.malePercentage (Dashboard.stats projects) = nan)
       ∧ (types.femaleEmployees (Dashboard.stats projects) = 0 →
          Dashboard.femalePercentage (Dashboard.stats projects) = nan))
  ∧ (∀ projects,
       (∀ p, p ∈ projects →
          0 ≤ types.employeesMale p ∧ 0 ≤ types.employeesFemale p
          ∧ types.employeesTotal p = types.employeesMale p + types.employeesFemale p) →
       types.totalEmployees (Dashboard.stats projects) = 0 →
       Dashboard.malePercentage (Dashboard.stats projects) = nan
       ∧ Dashboard.femalePercentage (Dashboard.stats projects) = nan)
  ∧ types.totalEmployees (Dashboard.stats [uncounted]) = 0
  ∧ Dashboard.malePercentage (Dashboard.stats [uncounted]) = infinity
  ∧ Dashboard.femalePercentage (Dashboard.stats [uncounted]) = nan.
Proof.
  assert (∀ projects,
            types.totalEmployees (Dashboard.stats projects) = 0 →
            (types.maleEmployees (Dashboard.stats projects) = 0 →
             Dashboard.malePercentage (Dashboard.stats projects) = nan)
            ∧ (types.femaleEmployees (Dashboard.stats projects) = 0 →
               Dashboard.femalePercentage (Dashboard.stats projects) = nan)) as Hnan.
  { intros projects Hzero.
    unfold Dashboard.malePercentage, Dashboard.femalePercentage. rewrite Hzero.
    split; intros ->; reflexivity. }
  split_and!; try reflexivity.
  - exact Hnan.
  - intros projects Hinv Hzero.
    destruct (zero_total_zero_parts projects Hinv) as (Hm & Hf & Ht).
    destruct (Hnan projects Hzero) as [Hmale Hfemale].
    cbn [Dashboard.stats types.maleEmployees types.femaleEmployees types.totalEmployees] in *.
    rewrite !reduceSum_all in *.
    split; [apply Hmale | apply Hfemale]; lia.
Qed.

(** Claim C9 as stated fails for a total of zero that is not the sum of the
    counts: for the one record with five men, no woman and a total of zero,
    [totalEmployees] is 0 and the percentage of men is Infinity, which is
    not NaN. *)
Lemma zero_total_gives_Infinity :
  types.totalEmployees (Dashboard.stats [uncounted]) = 0
  ∧ Dashboard.malePercentage (Dashboard.stats [uncounted]) = infinity
  ∧ Dashboard.malePercentage (Dashboard.stats [uncounted]) ≠ nan.
Proof.
  split_and!; [reflexivity | reflexivity |].
  intros Heq. apply (f_equal PrimFloat.is_nan) in Heq. discriminate Heq.
Qed.

(** *** The dashboard: percentages and breakdowns *)

Lemma sumWhere_total_split (projects : list types.Project) :
  (∀ p, p ∈ projects →
     types.employeesTotal p = types.employeesMale p + types.employeesFemale p) →
  Dashboard.sumWhere (λ _, true) types.employeesTotal projects
  = Dashboard.sumWhere (λ _, true) types.employeesMale projects
    + Dashboard.sumWhere (λ _, true) types.employeesFemale projects.
Proof.
  induction projects as [|p rest IH]; intros H; [done|].
  cbn [Dashboard.sumWhere]. rewrite IH by (intros q Hq; apply H; by right).
  rewrite (H p) by left. lia.
Qed.

(** Property X14.  When every project satisfies
    [employeesTotal = employeesMale + employeesFemale], the men and the
    women that the dashboard counts add up to its total of employees, so
    that the two percentages are those of two parts of one whole.  They are
    computed in binary64 and add up to 100 only as far as its rounding goes:
    for one man and two women among three employees they are the numbers
    that print as 33.33333333333333 and 66.66666666666666, whose sum in
    binary64 prints as 99.99999999999999 and is below 100. *)
Theorem percentages_rounded (projects : list types.Project) :
  (∀ p, p ∈ projects →
     types.employeesTotal p = types.employeesMale p + types.employeesFemale p) →
  types.totalEmployees (Dashboard.stats projects)
  = types.maleEmployees (Dashboard.stats projects)
    + types.femaleEmployees (Dashboard.stats projects)
  ∧ types.maleEmployees (Dashboard.stats [acmeCounted]) = 1
  ∧ types.femaleEmployees (Dashboard.stats [acmeCounted]) = 2
  ∧ types.totalEmployees (Dashboard.stats [acmeCounted]) = 3
  ∧ Dashboard.malePercentage (Dashboard.stats [acmeCounted]) = 0x1.0aaaaaaaaaaaap+5%float
  ∧ Dashboard.femalePercentage (Dashboard.stats [acmeCounted]) = 0x1.0aaaaaaaaaaaap+6%float
  ∧ (Dashboard.malePercentage (Dashboard.stats [acmeCounted])
     + Dashboard.femalePercentage (Dashboard.stats [acmeCounted]))%float
    = 0x1.8ffffffffffffp+6%float
  ∧ (Dashboard.malePercentage (Dashboard.stats [acmeCounted])
     + Dashboard.femalePercentage (Dashboard.stats [acmeCounted]) <? 100)%float = true.
Proof.
  intros Hinv. split_and!; try reflexivity.
  cbn [Dashboard.stats types.maleEmployees types.femaleEmployees types.totalEmployees].
  rewrite !reduceSum_all. by apply sumWhere_total_split.
Qed.

Lemma percentages_rounded_witness :
  (Dashboard.malePercentage (Dashboard.stats [acmeCounted])
   + Dashboard.femalePercentage (Dashboard.stats [acmeCounted]) <? 100)%float = true.
Proof.
  assert (∀ p, p ∈ [acmeCounted] →
               types.employeesTotal p = types.employeesMale p + types.employeesFemale p)
    as Hinv.
  { intros p ->%list_elem_of_singleton. reflexivity. }
  exact (proj2 (proj2 (proj2 (proj2 (proj2 (proj2 (proj2
           (percentages_rounded [acmeCounted] Hinv)))))))).
Defined.

Lemma countWhere_listed (f : types.Project → string) (y : string) (xs : list string)
    (projects : list types.Project) :
  y ∉ xs →
  Dashboard.countWhere (λ p, bool_decide (f p ∈ y :: xs)) projects
  = (Dashboard.countWhere (λ p, bool_decide (f p = y)) projects
     + Dashboard.countWhere (λ p, bool_decide (f p ∈ xs)) projects)%nat.
Proof.
  intros Hy. induction projects as [|p rest IH]; [done|].
  cbn [Dashboard.countWhere]. rewrite IH.
  destruct (decide (f p = y)) as [Heq|Hne].
  - rewrite (bool_decide_eq_true_2 (f p ∈ y :: xs)) by (rewrite Heq; left).
    rewrite (bool_decide_eq_true_2 (f p = y)) by done.
    rewrite (bool_decide_eq_false_2 (f p ∈ xs)) by by rewrite Heq.
    lia.
  - rewrite (bool_decide_eq_false_2 (f p = y)) by done.
    destruct (decide (f p ∈ xs)) as [Hin|Hin].
    + rewrite (bool_decide_eq_true_2 (f p ∈ y :: xs)) by by right.
      rewrite (bool_decide_eq_true_2 (f p ∈ xs)) by done. lia.
    + rewrite (bool_decide_eq_false_2 (f p ∈ y :: xs))
        by by intros [?|?]%elem_of_cons.
      rewrite (bool_decide_eq_false_2 (f p ∈ xs)) by done. lia.
Qed.

Lemma sumWhere_listed (f : types.Project → string) (g : types.Project → Z) (y : string)
    (xs : list string) (projects : list types.Project) :
  y ∉ xs →
  Dashboard.sumWhere (λ p, bool_decide (f p ∈ y :: xs)) g projects
  = Dashboard.sumWhere (λ p, bool_decide (f p = y)) g projects
    + Dashboard.sumWhere (λ p, bool_decide (f p ∈ xs)) g projects.
Proof.
  intros Hy. induction projects as [|p rest IH]; [done|].
  cbn [Dashboard.sumWhere]. rewrite IH.
  destruct (decide (f p = y)) as [Heq|Hne].
  - rewrite (bool_decide_eq_true_2 (f p ∈ y :: xs)) by (rewrite Heq; left).
    rewrite (bool_decide_eq_true_2 (f p = y)) by done.
    rewrite (bool_decide_eq_false_2 (f p ∈ xs)) by by rewrite Heq.
    lia.
  - rewrite (bool_decide_eq_false_2 (f p = y)) by done.
    destruct (decide (f p ∈ xs)) as [Hin|Hin].
    + rewrite (bool_decide_eq_true_2 (f p ∈ y :: xs)) by by right.
      rewrite (bool_decide_eq_true_2 (f p ∈ xs)) by done. lia.
    + rewrite (bool_decide_eq_false_2 (f p ∈ y :: xs))
        by by intros [?|?]%elem_of_cons.
      rewrite (bool_decide_eq_false_2 (f p ∈ xs)) by done. lia.
Qed.

Lemma countWhere_none (projects : list types.Project) :
  Dashboard.countWhere (λ _, false) projects = 0%nat.
Proof. induction projects as [|p rest IH]; [done|]. cbn [Dashboard.countWhere]. by rewrite IH. Qed.

Lemma sumWhere_none (g : types.Project → Z) (projects : list types.Project) :
  Dashboard.sumWhere (λ _, false) g projects = 0.
Proof. induction projects as [|p rest IH]; [done|]. cbn [Dashboard.sumWhere]. by rewrite IH. Qed.

Lemma countWhere_ext (c1 c2 : types.Project → bool) (projects : list types.Project) :
  (∀ p, c1 p = c2 p) → Dashboard.countWhere c1 projects = Dashboard.countWhere c2 projects.
Proof.
  intros H. induction projects as [|p rest IH]; [done|].
  cbn [Dashboard.countWhere]. by rewrite H, IH.
Qed.

Lemma sumWhere_ext (c1 c2 : types.Project → bool) (g : types.Project → Z)
    (projects : list types.Project) :
  (∀ p, c1 p = c2 p) → Dashboard.sumWhere c1 g projects = Dashboard.sumWhere c2 g projects.
Proof.
  intros H. induction projects as [|p rest IH]; [done|].
  cbn [Dashboard.sumWhere]. by rewrite H, IH.
Qed.

(** The counts and the sums of a breakdown over the distinct values [xs] of
    the field [f] add up to those of the projects whose value is listed. *)
Lemma breakdown_counts (f : types.Project → string) (xs : list string)
    (projects : list types.Project) :
  NoDup xs →
  sum_list ((λ x, length (filter (λ p, f p = x) projects)) <$> xs)
  = length (filter (λ p, f p ∈ xs) projects).
Proof.
  rewrite (length_filter_count (λ p, f p ∈ xs)).
  induction 1 as [|y xs Hy Hxs IH].
  - cbn. rewrite <- (countWhere_none projects). apply countWhere_ext.
    intros p. symmetry. apply bool_decide_eq_false_2, not_elem_of_nil.
  - rewrite fmap_cons. cbn [sum_list sum_list_with].
    change (sum_list_with id ?l) with (sum_list l). rewrite IH.
    rewrite (length_filter_count (λ p, f p = y)).
    by rewrite countWhere_listed.
Qed.

Lemma breakdown_sums (f : types.Project → string) (g : types.Project → Z)
    (xs : list string) (projects : list types.Project) :
  NoDup xs →
  foldr Z.add 0 ((λ x, Dashboard.reduceSum g (filter (λ p, f p = x) projects)) <$> xs)
  = Dashboard.reduceSum g (filter (λ p, f p ∈ xs) projects).
Proof.
  rewrite (reduceSum_filter (λ p, f p ∈ xs)).
  induction 1 as [|y xs Hy Hxs IH].
  - cbn. rewrite <- (sumWhere_none g projects). apply sumWhere_ext.
    intros p. symmetry. apply bool_decide_eq_false_2, not_elem_of_nil.
  - rewrite fmap_cons. cbn [foldr]. rewrite IH.
    rewrite (reduceSum_filter (λ p, f p = y)).
    by rewrite sumWhere_listed.
Qed.

Lemma filter_all {A : Type} (P : A → Prop) `{∀ x, Decision (P x)} (l : list A) :
  (∀ x, x ∈ l → P x) → filter P l = l.
Proof.
  induction l as [|x l IH]; intros Hall; [done|].
  rewrite filter_cons, decide_True by (apply Hall; left).
  rewrite IH; [done|]. intros y Hy. apply Hall. by right.
Qed.

(** Property X15.  When the sectors of the metadata are distinct, the counts
    of the sector chart add up to the number of the projects whose sector
    is one of them, and its employee figures to the employees of these
    projects: a project whose sector the metadata does not list is left out
    of the chart, and when every sector is listed the chart adds up to
    [totalProjects] and [totalEmployees].  The same holds for the regions
    and, for the counts, for the statuses. *)
Theorem breakdowns_account (projects : list types.Project) (m : types.Metadata) :
  NoDup (types.sectors m) → NoDup (types.regions m) → NoDup (types.projectStatuses m) →
  let bySector := Dashboard.sectorData projects (Some m) in
  let byRegion := Dashboard.regionData projects (Some m) in
  let byStatus := Dashboard.statusData projects (Some m) in
  let s := Dashboard.stats projects in
  sum_list (Dashboard.value <$> bySector)
  = length (filter (λ p, types.sector p ∈ types.sectors m) projects)
  ∧ foldr Z.add 0 (Dashboard.employees <$> bySector)
    = Dashboard.reduceSum types.employeesTotal
        (filter (λ p, types.sector p ∈ types.sectors m) projects)
  ∧ sum_list (Dashboard.value <$> byRegion)
    = length (filter (λ p, types.region p ∈ types.regions m) projects)
  ∧ foldr Z.add 0 (Dashboard.employees <$> byRegion)
    = Dashboard.reduceSum types.employeesTotal
        (filter (λ p, types.region p ∈ types.regions m) projects)
  ∧ sum_list (Dashboard.statusValue <$> byStatus)
    = length (filter (λ p, types.projectStatus p ∈ types.projectStatuses m) projects)
  ∧ ((∀ p, p ∈ projects → types.sector p ∈ types.sectors m) →
     sum_list (Dashboard.value <$> bySector) = types.totalProjects s
     ∧ foldr Z.add 0 (Dashboard.employees <$> bySector) = types.totalEmployees s).
Proof.
  intros Hsectors Hregions Hstatuses bySector byRegion byStatus s.
  assert (sum_list (Dashboard.value <$> bySector)
          = length (filter (λ p, types.sector p ∈ types.sectors m) projects)) as H1.
  { unfold bySector, Dashboard.sectorData. rewrite <- list_fmap_compose.
    by apply (breakdown_counts types.sector). }
  assert (foldr Z.add 0 (Dashboard.employees <$> bySector)
          = Dashboard.reduceSum types.employeesTotal
              (filter (λ p, types.sector p ∈ types.sectors m) projects)) as H2.
  { unfold bySector, Dashboard.sectorData. rewrite <- list_fmap_compose.
    by apply (breakdown_sums types.sector). }
  split_and!; [exact H1 | exact H2 | | | |].
  - unfold byRegion, Dashboard.regionData. rewrite <- list_fmap_compose.
    by apply (breakdown_counts types.region).
  - unfold byRegion, Dashboard.regionData. rewrite <- list_fmap_compose.
    by apply (breakdown_sums types.region).
  - unfold byStatus, Dashboard.statusData. rewrite <- list_fmap_compose.
    by apply (breakdown_counts types.projectStatus).
  - intros Hall. rewrite H1, H2.
    by rewrite (filter_all (λ p, types.sector p ∈ types.sectors m) projects Hall).
Qed.

Lemma breakdowns_account_witness :
  NoDup (types.sectors metadata) ∧ NoDup (types.regions metadata)
  ∧ NoDup (types.projectStatuses metadata)
  ∧ sum_list (Dashboard.value <$> Dashboard.sectorData [acmeCounted; noSector] (Some metadata))
    = 1%nat
  ∧ types.totalProjects (Dashboard.stats [acmeCounted; noSector]) = 2%nat.
Proof.
  assert (NoDup (types.sectors metadata)) as H1 by compute_done.
  assert (NoDup (types.regions metadata)) as H2 by compute_done.
  assert (NoDup (types.projectStatuses metadata)) as H3
    by compute_done.
  split_and!; [exact H1 | exact H2 | exact H3 | | reflexivity].
  rewrite (proj1 (breakdowns_account [acmeCounted; noSector] metadata H1 H2 H3)).
  reflexivity.
Defined.

(** Property X16.  A project added to the list of the application raises
    the statistics of the dashboard by itself: one project more, its three
    employee counts more, and one more completed or in-progress project when
    that is its status. *)
Theorem stats_handleProjectAdded (project : types.Project) (st : App.State) :
  let s := Dashboard.stats (App.projects st) in
  let s' := Dashboard.stats (App.projects (App.handleProjectAdded project st)) in
  types.totalProjects s' = S (types.totalProjects s)
  ∧ types.totalEmployees s' = types.totalEmployees s + types.employeesTotal project
  ∧ types.maleEmployees s' = types.maleEmployees s + types.employeesMale project
  ∧ types.femaleEmployees s' = types.femaleEmployees s + types.employeesFemale project
  ∧ types.completedProjects s'
    = (types.completedProjects s
       + if decide (types.projectStatus project = "Completed") then 1 else 0)%nat
  ∧ types.inProgressProjects s'
    = (types.inProgressProjects s
       + if decide (types.projectStatus project = "In Progress") then 1 else 0)%nat.
Proof.
  intros s s'. unfold s, s', Dashboard.stats, Dashboard.reduceSum.
  cbn [App.handleProjectAdded App.projects types.totalProjects types.totalEmployees
       types.maleEmployees types.femaleEmployees types.completedProjects
       types.inProgressProjects].
  rewrite !fold_left_app, !filter_app, !length_app, !filter_cons, !filter_nil.
  cbn [fold_left length].
  split_and!; [lia | done | done | done | by case_decide | by case_decide].
Qed.

(** *** Sorting with a comparator *)

Lemma insert_Permutation {A : Type} (compareFn : A → A → Z) (x : A) (l : list A) :
  Array.insert compareFn x l ≡ₚ x :: l.
Proof.
  induction l as [|y l IH]; [done|]. cbn [Array.insert].
  destruct (compareFn x y <=? 0); [done|]. rewrite IH. apply Permutation_swap.
Qed.

Lemma sort_Permutation {A : Type} (compareFn : A → A → Z) (l : list A) :
  Array.sort compareFn l ≡ₚ l.
Proof.
  induction l as [|x l IH]; [done|]. unfold Array.sort. cbn [foldr].
  fold (Array.sort compareFn l). by rewrite insert_Permutation, IH.
Qed.

(** On elements that the comparator orders consistently the result is
    sorted. *)
Lemma sort_StronglySorted {A : Type} (compareFn : A → A → Z) (P : A → Prop) (l : list A) :
  (∀ a b, P a → P b → 0 < compareFn a b → compareFn b a <= 0) →
  (∀ a b c, P a → P b → P c →
     compareFn a b <= 0 → compareFn b c <= 0 → compareFn a c <= 0) →
  Forall P l →
  StronglySorted (λ a b, compareFn a b <= 0) (Array.sort compareFn l).
Proof.
  intros Hconnex Htrans. induction 1 as [|x l Hx Hl IH]; [constructor|].
  unfold Array.sort. cbn [foldr]. fold (Array.sort compareFn l).
  assert (Forall P (Array.sort compareFn l)) as Hsorted.
  { by rewrite sort_Permutation. }
  revert IH Hsorted. generalize (Array.sort compareFn l). clear l Hl.
  intros s. induction 1 as [|y s Hs IHs Hy]; intros HP; cbn [Array.insert].
  - by repeat constructor.
  - apply Forall_cons in HP as [Py Ps].
    destruct (Z.leb_spec (compareFn x y) 0) as [Hle|Hgt].
    + constructor; [by constructor|].
      constructor; [done|]. rewrite Forall_forall in Hy |- *.
      intros z Hz. apply (Htrans x y z); try done.
      * rewrite Forall_forall in Ps. by apply Ps.
      * by apply Hy.
    + constructor; [by apply IHs|].
      rewrite insert_Permutation. constructor; [by apply Hconnex | done].
Qed.

(** Elements that tie with each other keep the order they had. *)
Lemma sort_stable {A : Type} (compareFn : A → A → Z) (C : A → Prop)
    `{∀ x, Decision (C x)} (l : list A) :
  (∀ a b, C a → C b → compareFn a b <= 0) →
  filter C (Array.sort compareFn l) = filter C l.
Proof.
  intros Htie. induction l as [|x l IH]; [done|].
  unfold Array.sort. cbn [foldr]. fold (Array.sort compareFn l).
  rewrite filter_cons, <- IH. generalize (Array.sort compareFn l). clear l IH.
  intros s. induction s as [|y s IHs]; cbn [Array.insert]; [by rewrite filter_cons|].
  destruct (Z.leb_spec (compareFn x y) 0) as [Hle|Hgt]; [by rewrite filter_cons|].
  rewrite (filter_cons C y), IHs, (filter_cons C y).
  destruct (decide (C y)) as [Cy|_]; [|done].
  destruct (decide (C x)) as [Cx|_]; [|done].
  specialize (Htie x y Cx Cy). lia.
Qed.

(** *** The list of projects: what is shown, and in which order *)

Lemma startsWith_empty (s : string) : Js.startsWith "" s = true.
Proof. by destruct s. Qed.

Lemma includes_empty (s : string) : Js.includes "" s = true.
Proof. destruct s; cbn [Js.includes]; by rewrite startsWith_empty. Qed.

Lemma filter_matches (filter field : string) :
  Js.falsy filter || bool_decide (field = filter) = true → filter ≠ "" → field = filter.
Proof.
  destruct filter as [|c filter]; [done|]. cbn [Js.falsy orb].
  by intros ?%bool_decide_eq_true.
Qed.

(** Property X17.  The projects shown are the projects of the list that
    pass the search and the four filters, each as often as it is in the
    list: sorting loses and repeats nothing, and the number shown is at most
    the number of projects.  Every project shown has the sector, the
    status, the region and the sub-sector of the filters that are set. *)
Theorem shown_projects (Date : string → option Z) (st : ProjectList.State)
    (projects : list types.Project) :
  let shown := ProjectList.filteredAndSortedProjects Date st projects in
  shown ≡ₚ filter (λ project, ProjectList.matches st project) projects
  ∧ (∀ p, p ∈ shown ↔ p ∈ projects ∧ ProjectList.matches st p = true)
  ∧ (length shown ≤ length projects)%nat
  ∧ (∀ p, p ∈ shown →
       (ProjectList.filterSector st ≠ "" → types.sector p = ProjectList.filterSector st)
       ∧ (ProjectList.filterStatus st ≠ ""
          → types.projectStatus p = ProjectList.filterStatus st)
       ∧ (ProjectList.filterRegion st ≠ "" → types.region p = ProjectList.filterRegion st)
       ∧ (ProjectList.filterSubSector st ≠ ""
          → types.subSector p = ProjectList.filterSubSector st)).
Proof.
  intros shown.
  assert (shown ≡ₚ filter (λ project, ProjectList.matches st project) projects) as Hperm.
  { apply sort_Permutation. }
  split_and!; [exact Hperm | | |].
  - intros p. rewrite Hperm, list_elem_of_filter.
    rewrite Is_true_true. tauto.
  - rewrite Hperm. apply length_filter.
  - intros p. rewrite Hperm, list_elem_of_filter, Is_true_true.
    unfold ProjectList.matches. rewrite !andb_true_iff.
    intros [[[[[_ H1] H2] H3] H4] _].
    split_and!; by apply filter_matches.
Qed.

Lemma matches_clearFilters (st : ProjectList.State) (p : types.Project) :
  ProjectList.matches (ProjectList.clearFilters st) p = true.
Proof.
  unfold ProjectList.matches, ProjectList.matchesSearch, ProjectList.clearFilters.
  cbn [ProjectList.searchTerm ProjectList.filterSector ProjectList.filterStatus
       ProjectList.filterRegion ProjectList.filterSubSector Js.toLowerCase Js.falsy].
  by rewrite includes_empty.
Qed.

(** Property X18.  After the filters are cleared every project of the list
    is shown, and [clearFilters] leaves the sort field and the direction as
    they are. *)
Theorem clearFilters_shows_all (Date : string → option Z) (st : ProjectList.State)
    (projects : list types.Project) :
  let st' := ProjectList.clearFilters st in
  ProjectList.filteredAndSortedProjects Date st' projects ≡ₚ projects
  ∧ length (ProjectList.filteredAndSortedProjects Date st' projects) = length projects
  ∧ ProjectList.sortField st' = ProjectList.sortField st
  ∧ ProjectList.sortDirection st' = ProjectList.sortDirection st.
Proof.
  intros st'.
  assert (ProjectList.filteredAndSortedProjects Date st' projects ≡ₚ projects) as Hperm.
  { unfold ProjectList.filteredAndSortedProjects. rewrite sort_Permutation.
    rewrite filter_all; [done|]. intros p _. apply Is_true_true.
    apply matches_clearFilters. }
  split_and!; [exact Hperm | by rewrite Hperm | done | done].
Qed.

Lemma ltb_leb (s1 s2 : string) : String.ltb s1 s2 = negb (String.leb s2 s1).
Proof.
  unfold String.ltb, String.leb. rewrite (String.compare_antisym s1 s2).
  by destruct (String.compare s2 s1).
Qed.

Lemma ltb_irrefl (s : string) : String.ltb s s = false.
Proof. unfold String.ltb. by rewrite string_compare_refl. Qed.

Lemma ltb_asym (s1 s2 : string) : String.ltb s1 s2 = true → String.ltb s2 s1 = false.
Proof.
  unfold String.ltb. rewrite (String.compare_antisym s1 s2).
  by destruct (String.compare s2 s1).
Qed.

Lemma ltb_false_trans (s1 s2 s3 : string) :
  String.ltb s2 s1 = false → String.ltb s3 s2 = false → String.ltb s3 s1 = false.
Proof.
  rewrite !ltb_leb, !negb_false_iff. intros H1%Is_true_true H2%Is_true_true.
  apply Is_true_true. exact (transitivity (R := String.le) H1 H2).
Qed.

Lemma lessThan_irrefl (v : ProjectList.sortValue) : ProjectList.lessThan v v = false.
Proof.
  destruct v as [s|n|[t|]]; cbn [ProjectList.lessThan];
    [apply ltb_irrefl | apply Z.ltb_irrefl | apply Z.ltb_irrefl | done].
Qed.

Lemma lessThan_asym (a b : ProjectList.sortValue) :
  ProjectList.lessThan a b = true → ProjectList.lessThan b a = false.
Proof.
  destruct a as [s1|n1|[t1|]], b as [s2|n2|[t2|]]; cbn [ProjectList.lessThan]; try done.
  - apply ltb_asym.
  - intros H%Z.ltb_lt. apply Z.ltb_ge. lia.
  - intros H%Z.ltb_lt. apply Z.ltb_ge. lia.
Qed.

Lemma lessThan_false_trans (Date : string → option Z) (field : ProjectList.SortField)
    (a b c : types.Project) :
  datesValid Date field a → datesValid Date field b → datesValid Date field c →
  ProjectList.lessThan (ProjectList.sortValueOf Date field b)
    (ProjectList.sortValueOf Date field a) = false →
  ProjectList.lessThan (ProjectList.sortValueOf Date field c)
    (ProjectList.sortValueOf Date field b) = false →
  ProjectList.lessThan (ProjectList.sortValueOf Date field c)
    (ProjectList.sortValueOf Date field a) = false.
Proof.
  unfold datesValid. intros Ha Hb Hc.
  destruct field; cbn [ProjectList.sortValueOf ProjectList.lessThan].
  - apply ltb_false_trans.
  - intros H1%Z.ltb_ge H2%Z.ltb_ge. apply Z.ltb_ge. lia.
  - destruct (Ha eq_refl) as [ta ->], (Hb eq_refl) as [tb ->], (Hc eq_refl) as [tc ->].
    intros H1%Z.ltb_ge H2%Z.ltb_ge. apply Z.ltb_ge. lia.
  - apply ltb_false_trans.
  - apply ltb_false_trans.
Qed.

(** The comparator puts [a] before or level with [b] exactly when, in the
    direction of the sort, the value of [b] is not less than that of [a]. *)
Lemma compare_nonpos (Date : string → option Z) (st : ProjectList.State)
    (a b : types.Project) :
  ProjectList.compare Date st a b <= 0 ↔
  match ProjectList.sortDirection st with
  | ProjectList.asc =>
      ProjectList.lessThan (ProjectList.sortValueOf Date (ProjectList.sortField st) b)
        (ProjectList.sortValueOf Date (ProjectList.sortField st) a) = false
  | ProjectList.desc =>
      ProjectList.lessThan (ProjectList.sortValueOf Date (ProjectList.sortField st) a)
        (ProjectList.sortValueOf Date (ProjectList.sortField st) b) = false
  end.
Proof.
  unfold ProjectList.compare.
  set (aValue := ProjectList.sortValueOf Date (ProjectList.sortField st) a).
  set (bValue := ProjectList.sortValueOf Date (ProjectList.sortField st) b).
  pose proof (lessThan_asym aValue bValue) as Hab.
  destruct (ProjectList.lessThan aValue bValue), (ProjectList.lessThan bValue aValue),
    (ProjectList.sortDirection st); split; try done; try lia.
  all: by specialize (Hab eq_refl).
Qed.

Lemma compare_connex (Date : string → option Z) (st : ProjectList.State)
    (a b : types.Project) :
  0 < ProjectList.compare Date st a b → ProjectList.compare Date st b a <= 0.
Proof.
  unfold ProjectList.compare.
  pose proof (lessThan_asym (ProjectList.sortValueOf Date (ProjectList.sortField st) a)
                (ProjectList.sortValueOf Date (ProjectList.sortField st) b)) as Hasym.
  destruct (ProjectList.lessThan (ProjectList.sortValueOf Date (ProjectList.sortField st) a)
              (ProjectList.sortValueOf Date (ProjectList.sortField st) b)),
    (ProjectList.lessThan (ProjectList.sortValueOf Date (ProjectList.sortField st) b)
       (ProjectList.sortValueOf Date (ProjectList.sortField st) a)),
    (ProjectList.sortDirection st); try lia.
  all: by specialize (Hasym eq_refl).
Qed.

Lemma compare_trans (Date : string → option Z) (st : ProjectList.State)
    (a b c : types.Project) :
  datesValid Date (ProjectList.sortField st) a →
  datesValid Date (ProjectList.sortField st) b →
  datesValid Date (ProjectList.sortField st) c →
  ProjectList.compare Date st a b <= 0 → ProjectList.compare Date st b c <= 0 →
  ProjectList.compare Date st a c <= 0.
Proof.
  intros Pa Pb Pc. rewrite !compare_nonpos.
  destruct (ProjectList.sortDirection st).
  - by apply lessThan_false_trans.
  - intros H1 H2. by apply (lessThan_false_trans Date _ c b a).
Qed.

(** Property X19.  When the list is sorted by a field other than the
    approval date, or every approval date is a date, the projects shown are
    in the order of the chosen field, ascending or descending as chosen
    (no project stands before one whose value comes first in that
    direction), and the projects that share a value keep the order they
    have in the list of projects. *)
Theorem shown_in_order (Date : string → option Z) (st : ProjectList.State)
    (projects : list types.Project) :
  (ProjectList.sortField st = ProjectList.approvalDate →
   ∀ p, p ∈ projects → is_Some (Date (types.approvalDate p))) →
  let shown := ProjectList.filteredAndSortedProjects Date st projects in
  let valueOf := ProjectList.sortValueOf Date (ProjectList.sortField st) in
  (∀ (i j : nat) (a b : types.Project),
     (i < j)%nat → shown !! i = Some a → shown !! j = Some b →
     match ProjectList.sortDirection st with
     | ProjectList.asc => ProjectList.lessThan (valueOf b) (valueOf a) = false
     | ProjectList.desc => ProjectList.lessThan (valueOf a) (valueOf b) = false
     end)
  ∧ (∀ v : ProjectList.sortValue,
       filter (λ p, valueOf p = v) shown
       = filter (λ p, valueOf p = v)
           (filter (λ project, ProjectList.matches st project) projects)).
Proof.
  intros Hdates shown valueOf. split.
  - intros i j a b Hij Ha Hb. apply compare_nonpos.
    refine (StronglySorted_before (λ a b, ProjectList.compare Date st a b <= 0)
              shown i j a b _ Hij Ha Hb).
    apply (sort_StronglySorted _ (datesValid Date (ProjectList.sortField st))).
    + intros x y _ _. apply compare_connex.
    + apply compare_trans.
    + apply Forall_forall. intros p [_ Hp]%list_elem_of_filter Hfield.
      by apply Hdates.
  - intros v. apply sort_stable. intros a b Ha Hb.
    apply compare_nonpos. fold valueOf. rewrite Ha, Hb.
    destruct (ProjectList.sortDirection st); apply lessThan_irrefl.
Qed.

Lemma shown_in_order_witness :
  ProjectList.filteredAndSortedProjects (λ _, None)
    (ProjectList.handleSort ProjectList.employeesTotal ProjectList.initialState)
    [acmeProject; noSector]
  = [noSector; acmeProject]
  ∧ ProjectList.lessThan (ProjectList.SNumber (types.employeesTotal acmeProject))
      (ProjectList.SNumber (types.employeesTotal noSector)) = false.
Proof.
  split; [reflexivity|].
  assert (ProjectList.sortField
            (ProjectList.handleSort ProjectList.employeesTotal ProjectList.initialState)
          = ProjectList.approvalDate →
          ∀ p, p ∈ [acmeProject; noSector] →
               is_Some ((λ _ : string, @None Z) (types.approvalDate p))) as Hdates.
  { intros Hfield. discriminate Hfield. }
  exact (proj1 (shown_in_order (λ _, None)
                  (ProjectList.handleSort ProjectList.employeesTotal
                     ProjectList.initialState)
                  [acmeProject; noSector] Hdates)
           0%nat 1%nat noSector acmeProject (Nat.lt_0_succ 0) eq_refl eq_refl).
Defined.

Lemma handleSort_field (field : ProjectList.SortField) (st : ProjectList.State) :
  ProjectList.sortField (ProjectList.handleSort field st) = field.
Proof. unfold ProjectList.handleSort. by case_decide. Qed.

Lemma handleSort_twice (field : ProjectList.SortField) (st : ProjectList.State) :
  ProjectList.sortField st = field →
  ProjectList.handleSort field (ProjectList.handleSort field st) = st.
Proof.
  destruct st as [term fs fst fr fss sf sd]. cbn [ProjectList.sortField]. intros ->.
  unfold ProjectList.handleSort at 2. cbn [ProjectList.sortField].
  rewrite decide_True by done.
  unfold ProjectList.handleSort. cbn [ProjectList.sortField].
  rewrite decide_True by done. cbn. by destruct sd.
Qed.

(** Property X20.  A click on the header of a column sorts by that column;
    on a new column the direction is ascending, on the current column it
    turns, and two further clicks on the same header come back to the same
    order.  The search and the filters are not touched. *)
Theorem handleSort_toggles (field : ProjectList.SortField) (st : ProjectList.State) :
  let st1 := ProjectList.handleSort field st in
  ProjectList.sortField st1 = field
  ∧ (ProjectList.sortField st ≠ field → ProjectList.sortDirection st1 = ProjectList.asc)
  ∧ (ProjectList.sortField st = field →
     ProjectList.sortDirection st1 ≠ ProjectList.sortDirection st)
  ∧ ProjectList.handleSort field (ProjectList.handleSort field st1) = st1
  ∧ ∀ p, ProjectList.matches st1 p = ProjectList.matches st p.
Proof.
  intros st1. split_and!.
  - apply handleSort_field.
  - intros Hne. unfold st1, ProjectList.handleSort. by rewrite decide_False.
  - intros Heq. unfold st1, ProjectList.handleSort. rewrite decide_True by done.
    cbn [ProjectList.sortDirection]. by destruct (ProjectList.sortDirection st).
  - apply handleSort_twice, handleSort_field.
  - intros p. unfold st1, ProjectList.handleSort. by case_decide.
Qed.

(** *** The options of the filters *)

Lemma newSet_from (xs acc : list string) :
  NoDup acc →
  let set := fold_left (λ set x, if decide (x ∈ set) then set else set ++ [x]) xs acc in
  NoDup set ∧ ∀ x, x ∈ set ↔ x ∈ acc ∨ x ∈ xs.
Proof.
  revert acc. induction xs as [|y xs IH]; intros acc Hacc; cbn [fold_left].
  - split; [done|]. intros x. rewrite elem_of_nil. tauto.
  - destruct (decide (y ∈ acc)) as [Hy|Hy].
    + destruct (IH acc Hacc) as [Hnd Hin]. split; [done|].
      intros x. rewrite Hin, elem_of_cons. split; [tauto|].
      intros [?|[->|?]]; tauto.
    + destruct (IH (acc ++ [y])) as [Hnd Hin].
      { apply NoDup_app. split_and!; [done | | apply NoDup_singleton].
        intros x Hx ->%list_elem_of_singleton. done. }
      split; [done|]. intros x.
      rewrite Hin, elem_of_app, list_elem_of_singleton, elem_of_cons. tauto.
Qed.

Lemma newSet_spec (xs : list string) :
  NoDup (Array.newSet xs) ∧ ∀ x, x ∈ Array.newSet xs ↔ x ∈ xs.
Proof.
  destruct (newSet_from xs [] (NoDup_nil_2 (A := string))) as [Hnd Hin]. split; [done|].
  intros x. unfold Array.newSet. rewrite Hin, elem_of_nil. tauto.
Qed.

Lemma newSet_fmap (f : types.Project → string) (projects : list types.Project) :
  NoDup (Array.newSet (f <$> projects))
  ∧ ∀ x, x ∈ Array.newSet (f <$> projects) ↔ ∃ p, p ∈ projects ∧ f p = x.
Proof.
  destruct (newSet_spec (f <$> projects)) as [Hnd Hin]. split; [done|].
  intros x. rewrite Hin, list_elem_of_fmap.
  split; intros (p & ? & ?); exists p; done.
Qed.

(** Property X21.  Each of the four filters offers every value that its
    field takes in the projects, once, and nothing else; and when only the
    sector filter is set, to any of the values it offers, at least one
    project is shown. *)
Theorem filter_options (Date : string → option Z) (st : ProjectList.State)
    (projects : list types.Project) :
  (NoDup (ProjectList.sectors projects)
   ∧ ∀ x, x ∈ ProjectList.sectors projects ↔ ∃ p, p ∈ projects ∧ types.sector p = x)
  ∧ (NoDup (ProjectList.statuses projects)
     ∧ ∀ x, x ∈ ProjectList.statuses projects
            ↔ ∃ p, p ∈ projects ∧ types.projectStatus p = x)
  ∧ (NoDup (ProjectList.regions projects)
     ∧ ∀ x, x ∈ ProjectList.regions projects ↔ ∃ p, p ∈ projects ∧ types.region p = x)
  ∧ (NoDup (ProjectList.subSectors projects)
     ∧ ∀ x, x ∈ ProjectList.subSectors projects
            ↔ ∃ p, p ∈ projects ∧ types.subSector p = x)
  ∧ (∀ x, x ∈ ProjectList.sectors projects →
          ProjectList.filteredAndSortedProjects Date
            (ProjectList.setFilterSector x (ProjectList.clearFilters st)) projects ≠ []).
Proof.
  split_and!; [apply newSet_fmap.. |].
  intros x (p & Hp & Hx)%(proj2 (newSet_fmap types.sector projects)) Hnil.
  assert (p ∈ ProjectList.filteredAndSortedProjects Date
                (ProjectList.setFilterSector x (ProjectList.clearFilters st)) projects) as Hshown.
  { unfold ProjectList.filteredAndSortedProjects. rewrite sort_Permutation.
    apply list_elem_of_filter. split; [|done]. apply Is_true_true.
    unfold ProjectList.matches, ProjectList.matchesSearch, ProjectList.setFilterSector,
      ProjectList.clearFilters.
    cbn [ProjectList.searchTerm ProjectList.filterSector ProjectList.filterStatus
         ProjectList.filterRegion ProjectList.filterSubSector Js.toLowerCase Js.falsy].
    rewrite !includes_empty. cbn [orb andb].
    rewrite (bool_decide_eq_true_2 _ Hx). by rewrite orb_true_r. }
  rewrite Hnil in Hshown. destruct (not_elem_of_nil p Hshown).
Qed.

(** *** The list of the application *)

(** Property X22.  An update of the list of the application keeps the
    number, the order and the ids of the projects; it leaves the projects
    with another id as they are, puts the updated project in the place of
    each project with its id, and changes nothing when no project has its
    id. *)
Theorem handleProjectUpdated_frame (updatedProject : types.Project) (st : App.State) :
  let projects' := App.projects (App.handleProjectUpdated updatedProject st) in
  types.id <$> projects' = types.id <$> App.projects st
  ∧ (∀ (i : nat) (p : types.Project),
       App.projects st !! i = Some p →
       projects' !! i
       = Some (if decide (types.id p = types.id updatedProject) then updatedProject else p))
  ∧ ((∀ p, p ∈ App.projects st → types.id p ≠ types.id updatedProject) →
     projects' = App.projects st).
Proof.
  intros projects'. unfold projects', App.handleProjectUpdated. cbn [App.projects].
  split_and!.
  - rewrite <- list_fmap_compose. apply list_fmap_ext. intros _ p _. cbn.
    by case_decide.
  - intros i p Hi. by rewrite list_lookup_fmap, Hi.
  - intros Hnone. rewrite <- (list_fmap_id (App.projects st)) at 2.
    apply list_fmap_ext. intros _ p Hp%list_elem_of_lookup_2.
    rewrite decide_False; [done|]. by apply Hnone.
Qed.

(** Property X23.  A project added to the list of the application and then
    deleted by its id leaves the list as it was, when no project of the list
    had that id; the form is closed by the addition. *)
Theorem handleProjectAdded_handleProjectDeleted (project : types.Project) (st : App.State) :
  (∀ p, p ∈ App.projects st → types.id p ≠ types.id project) →
  let st' := App.handleProjectDeleted (types.id project) (App.handleProjectAdded project st) in
  App.projects st' = App.projects st ∧ App.showProjectForm st' = false.
Proof.
  intros Hfresh st'. split; [|done].
  unfold st', App.handleProjectDeleted, App.handleProjectAdded. cbn [App.projects].
  rewrite filter_app, filter_cons, decide_False, filter_nil, app_nil_r by (intros H; by apply H).
  by apply (filter_all (λ p, types.id p ≠ types.id project)).
Qed.

Lemma handleProjectAdded_handleProjectDeleted_witness :
  App.projects
    (App.handleProjectDeleted "1000"
       (App.handleProjectAdded acmeProject
          (App.handleProjectAdded noSector App.initialState)))
  = [noSector].
Proof.
  assert (∀ p, p ∈ App.projects (App.handleProjectAdded noSector App.initialState) →
               types.id p ≠ types.id acmeProject) as Hfresh.
  { intros p ->%list_elem_of_singleton. discriminate. }
  exact (proj1 (handleProjectAdded_handleProjectDeleted acmeProject
                  (App.handleProjectAdded noSector App.initialState) Hfresh)).
Defined.

(** *** The list of the application follows the table *)

Lemma properties_columns (p : types.Project) : (properties p).*1 = dbOperations.columns.
Proof. reflexivity. Qed.

Lemma toObject_keys (p : types.Project) (k : string) :
  is_Some (toObject p !! k) → k ∈ dbOperations.columns.
Proof.
  intros Hk. destruct (decide (k ∈ dbOperations.columns)) as [|Hno]; [done|].
  rewrite <- (properties_columns p) in Hno.
  apply not_elem_of_list_to_map_1 in Hno. unfold toObject in Hk.
  rewrite Hno in Hk. by destruct Hk.
Qed.

(** The values of a project of the client have the types of their columns. *)
Lemma toObject_typed (p : types.Project) (k : string) (v : value) :
  toObject p !! k = Some v → hasColumnType k v.
Proof.
  intros Hk. apply elem_of_list_to_map_2 in Hk. revert Hk.
  assert (Forall (λ kv, hasColumnType kv.1 kv.2) (properties p)) as Hall.
  { unfold properties. repeat (apply Forall_cons; split; [cbn; compute_done|]).
    apply Forall_nil_2. }
  intros Hk. by apply (proj1 (Forall_forall _ _) Hall (k, v)).
Qed.

(** An object whose values have the types of their columns is stored as it
    is. *)
Lemma affinity_typed_lookup {sqlite : Sqlite} (o : object) (k : string) :
  (∀ v, o !! k = Some v → hasColumnType k v) → affinity k (o !! k) = o !! k.
Proof.
  intros Hty. destruct (o !! k) as [v|]; [|done]. by apply affinity_typed, Hty.
Qed.

Lemma toObject_id (p : types.Project) : toObject p !! "id" = Some (VStr (types.id p)).
Proof. reflexivity. Qed.

Lemma hasId_toObject (id : string) (p : types.Project) :
  dbOperations.hasId id (toObject p) ↔ types.id p = id.
Proof.
  unfold dbOperations.hasId. rewrite toObject_id. split; [congruence|by intros ->].
Qed.

Lemma represents_eq (o : object) (p : types.Project) :
  (∀ k, is_Some (o !! k) → k ∈ dbOperations.columns) → represents o p → o = toObject p.
Proof.
  intros Hkeys Hrep. apply map_eq. intros k.
  destruct (decide (k ∈ dbOperations.columns)) as [Hk|Hk]; [by apply Hrep|].
  destruct (o !! k) eqn:Ho; [destruct Hk; apply Hkeys; by rewrite Ho|].
  destruct (toObject p !! k) eqn:Hp; [|done].
  destruct Hk. apply (toObject_keys p). by rewrite Hp.
Qed.

Lemma updatedRow_keys {sqlite : Sqlite} (now : Z) (reqBody row : object) :
  (∀ k, is_Some (row !! k) → k ∈ dbOperations.columns) →
  ∀ k, is_Some (dbOperations.updatedRow now reqBody row !! k) → k ∈ dbOperations.columns.
Proof.
  intros Hkeys k. rewrite updatedRow_lookup.
  destruct (decide (k = "updatedAt")) as [->|_]; [intros _; compute_done|].
  destruct (decide (k ∈ dbOperations.updateColumns)) as [Hk|_].
  - intros _. by apply updateColumns_columns.
  - apply Hkeys.
Qed.

Lemma filter_fmap_toObject (id : string) (projects : list types.Project) :
  filter (λ r, ¬ dbOperations.hasId id r) (toObject <$> projects)
  = toObject <$> filter (λ p, types.id p ≠ id) projects.
Proof.
  induction projects as [|p rest IH]; [done|].
  rewrite fmap_cons, !filter_cons, IH.
  destruct (decide (types.id p = id)) as [Heq|Hne].
  - rewrite decide_False by (intros H; apply H; by apply hasId_toObject).
    by rewrite decide_False by (intros H; by apply H).
  - rewrite decide_True by (by rewrite hasId_toObject).
    by rewrite decide_True.
Qed.

(** In a keyed table two rows with the same id are the same row. *)
Lemma keyed_unique (id : string) (r1 r2 : object) (db : table) :
  keyed db → r1 ∈ db → r2 ∈ db →
  dbOperations.hasId id r1 → dbOperations.hasId id r2 → r1 = r2.
Proof.
  intros Hkey H1 H2 Hid1 Hid2.
  destruct (keyed_split id r1 db Hkey H1 Hid1) as (pre & post & -> & Hnone).
  apply elem_of_app in H2 as [H2|[->|H2]%elem_of_cons]; [|done|].
  - destruct (Hnone r2); [|done]. apply elem_of_app. by left.
  - destruct (Hnone r2); [|done]. apply elem_of_app. by right.
Qed.

(** Property X24.  When the list of the application holds the rows of the
    table, in some order, it still does after each of the three changes:
    after a DELETE and [handleProjectDeleted] of the same id; after a POST
    answered 201 and [handleProjectAdded] of the answer; and, in a table
    that satisfies the primary key, after a PUT answered with a row and
    [handleProjectUpdated] of that row. *)
Theorem list_follows_table {sqlite : Sqlite} (st : App.State) (db : table) :
  toObject <$> App.projects st ≡ₚ db →
  (∀ id,
     toObject <$> App.projects (App.handleProjectDeleted id st)
     ≡ₚ (routes.deleteProject id db).2)
  ∧ (∀ nowId nowCreated nowUpdated reqBody o db' p,
       routes.postProject nowId nowCreated nowUpdated reqBody db
       = ({| status := 201; body := JObject o |}, db') →
       represents o p →
       toObject <$> App.projects (App.handleProjectAdded p st) ≡ₚ db')
  ∧ (keyed db →
     ∀ now id reqBody o db' u,
       routes.putProject now id reqBody db
       = ({| status := 200; body := JObject o |}, db') →
       represents o u →
       toObject <$> App.projects (App.handleProjectUpdated u st) ≡ₚ db').
Proof.
  intros Hlist. split_and!.
  - intros id. unfold App.handleProjectDeleted, routes.deleteProject,
      dbOperations.deleteProject. cbn [App.projects snd].
    by rewrite <- filter_fmap_toObject, Hlist.
  - intros nowId nowCreated nowUpdated reqBody o db' p Hpost Hrep.
    destruct (postProject_cases nowId nowCreated nowUpdated reqBody db)
      as [(Heq & _ & _)|Heq]; rewrite Heq in Hpost.
    + pose proof (f_equal (λ x, body x.1) Hpost) as Hbody.
      pose proof (f_equal snd Hpost) as Hdb. cbn [fst snd body] in Hbody, Hdb.
      assert (o = routes.newProject nowId nowCreated nowUpdated reqBody) as Ho
        by congruence.
      rewrite <- Hdb. unfold App.handleProjectAdded. cbn [App.projects].
      rewrite fmap_app, Hlist. apply Permutation_app; [done|].
      rewrite <- Ho. cbn [fmap list_fmap].
      assert (toObject p = bind dbOperations.columns o ∅) as ->; [|done].
      symmetry. apply represents_eq.
      * intros k. rewrite bind_lookup. case_decide; [done|].
        rewrite lookup_empty. by intros [? ?].
      * intros k Hk. rewrite bind_lookup, decide_True by done. rewrite (Hrep k Hk).
        apply affinity_typed_lookup. intros v. apply toObject_typed.
    + pose proof (f_equal (λ x, status x.1) Hpost) as Hs. cbn in Hs. discriminate.
  - intros Hkey now id reqBody o db' u Hput Hrep.
    unfold routes.putProject, dbOperations.updateProject in Hput.
    destruct (forallb _ db) eqn:Hall.
    2:{ pose proof (f_equal (λ x, status x.1) Hput) as Hs. cbn in Hs. discriminate. }
    set (g := λ r : object, if decide (dbOperations.hasId id r)
                            then dbOperations.updatedRow now reqBody r else r) in *.
    destruct (head (filter (dbOperations.hasId id) (g <$> db))) as [o'|] eqn:Hhead.
    2:{ pose proof (f_equal (λ x, body x.1) Hput) as Hb. cbn in Hb. discriminate. }
    pose proof (f_equal (λ x, body x.1) Hput) as Hbody.
    pose proof (f_equal snd Hput) as Hdb. cbn [fst snd body] in Hbody, Hdb.
    assert (o' = o) as -> by congruence. rewrite <- Hdb. clear Hput Hbody Hdb db'.
    assert (o ∈ filter (dbOperations.hasId id) (g <$> db)) as Ho.
    { destruct (filter _ _) as [|x l]; [done|]. cbn in Hhead.
      assert (x = o) as -> by congruence. left. }
    apply list_elem_of_filter in Ho as [Hoid (r0 & Hor0 & Hr0)%list_elem_of_fmap].
    assert (dbOperations.hasId id r0 ∧ o = dbOperations.updatedRow now reqBody r0)
      as [Hr0id Hupd].
    { unfold g in Hor0. destruct (decide (dbOperations.hasId id r0)); [done|].
      by rewrite Hor0 in Hoid. }
    assert (r0 ∈ toObject <$> App.projects st) as Hr0' by by rewrite Hlist.
    apply list_elem_of_fmap in Hr0' as (p0 & Hp0 & _).
    assert (o = toObject u) as Hou.
    { apply represents_eq; [|done]. rewrite Hupd. apply updatedRow_keys.
      rewrite Hp0. apply toObject_keys. }
    assert (types.id u = id) as Hu.
    { apply hasId_toObject. by rewrite <- Hou. }
    unfold App.handleProjectUpdated. cbn [App.projects].
    rewrite <- Hlist, <- !list_fmap_compose.
    assert (∀ p, p ∈ App.projects st →
                 toObject (if decide (types.id p = types.id u) then u else p)
                 = g (toObject p)) as Hstep.
    { intros p Hp. unfold g. rewrite Hu.
      destruct (decide (types.id p = id)) as [Hpid|Hpid].
      - rewrite decide_True by by apply hasId_toObject.
        assert (toObject p = r0) as ->; [|by rewrite <- Hou, Hupd].
        apply (keyed_unique id _ _ db Hkey); [| done | by apply hasId_toObject | done].
        rewrite <- Hlist. apply list_elem_of_fmap. by exists p.
      - by rewrite decide_False by by rewrite hasId_toObject. }
    assert ((λ p, toObject (if decide (types.id p = types.id u) then u else p))
              <$> App.projects st
            = (λ p, g (toObject p)) <$> App.projects st) as Hmap.
    { apply list_fmap_ext. intros i p Hp%list_elem_of_lookup_2. by apply Hstep. }
    unfold compose. by rewrite Hmap.
Qed.

Lemma list_follows_table_witness :
  toObject <$> App.projects (App.handleProjectAdded acmeCounted App.initialState)
  ≡ₚ [toObject acmeCounted]
  ∧ toObject
      <$> App.projects
            (App.handleProjectDeleted "1000"
               (App.handleProjectAdded acmeCounted App.initialState))
    ≡ₚ (routes.deleteProject "1000" [toObject acmeCounted]).2.
Proof.
  assert (toObject <$> App.projects (App.handleProjectAdded acmeCounted App.initialState)
          ≡ₚ [toObject acmeCounted]) as Hlist by reflexivity.
  split; [exact Hlist|].
  exact (proj1 (list_follows_table _ _ Hlist) "1000").
Defined.

(** *** The server does not check what the form checks *)

Lemma bodyOf_supplies (data : ProjectForm.FormData) :
  supplies dbOperations.required (bodyOf data).
Proof.
  intros k Hk. unfold dbOperations.required in Hk.
  repeat (apply elem_of_cons in Hk as [->|Hk]; [split; [by eexists | done]|]).
  destruct (not_elem_of_nil k Hk).
Qed.

(** The values of the body of the form have the types of their columns. *)
Lemma bodyOf_typed (data : ProjectForm.FormData) (k : string) (v : value) :
  bodyOf data !! k = Some v → hasColumnType k v.
Proof.
  intros Hk. apply elem_of_list_to_map_2 in Hk. revert Hk.
  match goal with
  | |- (_, _) ∈ ?l → _ =>
      assert (Forall (λ kv, hasColumnType kv.1 kv.2) l) as Hall
  end.
  { repeat (apply Forall_cons; split; [cbn; compute_done|]). apply Forall_nil_2. }
  intros Hk. by apply (proj1 (Forall_forall _ _) Hall (k, v)).
Qed.

Lemma bodyOf_has_no_id (data : ProjectForm.FormData) : bodyOf data !! "id" = None.
Proof. reflexivity. Qed.

(** Property X25.  Whatever the form holds, the server takes it: a POST of
    the form data is answered 201 and stored under the id of the clock when
    no row has that id, and a PUT to a stored id of a keyed table is
    answered 200, also for the blank form that [validateForm] rejects.  The
    NOT NULL columns refuse a missing field, not an empty one. *)
Theorem server_accepts_form_data {sqlite : Sqlite} (data : ProjectForm.FormData) (db : table) :
  keyed db →
  (∀ nowId nowCreated nowUpdated,
     (∀ r, r ∈ db → r !! "id" ≠ Some (VStr (Js.toString nowId))) →
     ∃ row,
       routes.postProject nowId nowCreated nowUpdated (bodyOf data) db
       = ({| status := 201;
             body := JObject (routes.newProject nowId nowCreated nowUpdated (bodyOf data)) |},
          db ++ [row])
       ∧ row !! "id" = Some (VStr (Js.toString nowId))
       ∧ ∀ k, k ∈ dbOperations.updateColumns → row !! k = bodyOf data !! k)
  ∧ (∀ now id row,
       row ∈ db → dbOperations.hasId id row →
       ∃ row' db',
         routes.putProject now id (bodyOf data) db
         = ({| status := 200; body := JObject row' |}, db')
         ∧ row' ∈ db'
         ∧ ∀ k, k ∈ dbOperations.updateColumns → row' !! k = bodyOf data !! k).
Proof.
  intros Hkey. split.
  - intros nowId nowCreated nowUpdated Hfresh.
    assert (routes.newProject nowId nowCreated nowUpdated (bodyOf data) !! "id"
            = Some (VStr (Js.toString nowId))) as Hid.
    { by rewrite newProject_lookup, bodyOf_has_no_id. }
    eexists. split_and!.
    + apply (postProject_ok nowId nowCreated nowUpdated (bodyOf data)
               (VStr (Js.toString nowId)) db); [apply bodyOf_supplies | done | done].
    + by rewrite bind_id, Hid.
    + intros k Hk. rewrite bind_column by by apply updateColumns_columns.
      rewrite newProject_lookup.
      assert (k ≠ "updatedAt" ∧ k ≠ "createdAt" ∧ k ≠ "id") as (H1 & H2 & H3).
      { split_and!; intros ->; revert Hk; compute_done. }
      rewrite !decide_False by done.
      rewrite <- (affinity_typed_lookup (bodyOf data) k) at 2
        by (intros v; apply bodyOf_typed).
      by destruct (bodyOf data !! k).
  - intros now id row Hin Hid.
    destruct (keyed_split id row db Hkey Hin Hid) as (pre & post & -> & Hothers).
    pose proof (updateProject_one now id (bodyOf data) row pre post Hid Hothers
                  (bodyOf_supplies data)) as Hup.
    eexists _, _. split_and!.
    + unfold routes.putProject. rewrite Hup. reflexivity.
    + apply elem_of_app. right. left.
    + intros k Hk. rewrite updatedRow_assigned by done.
      apply affinity_typed_lookup. intros v. apply bodyOf_typed.
Qed.

Lemma server_accepts_form_data_witness :
  ∃ row,
    routes.postProject 1000 1000 1000 (bodyOf ProjectForm.initialFormData) []
    = ({| status := 201;
          body := JObject (routes.newProject 1000 1000 1000
                             (bodyOf ProjectForm.initialFormData)) |},
       [] ++ [row])
    ∧ row !! "id" = Some (VStr (Js.toString 1000))
    ∧ row !! "companyName" = Some (VStr "").
Proof.
  destruct (proj1 (server_accepts_form_data ProjectForm.initialFormData [] keyed_nil)
              1000 1000 1000) as (row & Hpost & Hid & Hcols).
  { intros r Hr. destruct (not_elem_of_nil r Hr). }
  exists row. split_and!; [exact Hpost | exact Hid |].
  rewrite Hcols by compute_done. reflexivity.
Defined.

(** *** The search narrows as the term grows *)

Lemma toLowerCase_app (s1 s2 : string) :
  Js.toLowerCase (s1 +:+ s2) = Js.toLowerCase s1 +:+ Js.toLowerCase s2.
Proof.
  induction s1 as [|c s1 IH]; [by rewrite !app_empty_l|].
  rewrite app_String. cbn [Js.toLowerCase]. by rewrite app_String, IH.
Qed.

Lemma startsWith_app (p q s : string) :
  Js.startsWith (p +:+ q) s = true → Js.startsWith p s = true.
Proof.
  revert s. induction p as [|a p IH]; intros s; [by rewrite startsWith_empty|].
  rewrite app_String. destruct s as [|b s]; cbn [Js.startsWith]; [done|].
  case_decide; [apply IH | done].
Qed.

Lemma includes_app (p q s : string) :
  Js.includes (p +:+ q) s = true → Js.includes p s = true.
Proof.
  induction s as [|b s IH]; cbn [Js.includes].
  - rewrite !orb_false_r. apply startsWith_app.
  - intros [H|H]%orb_true_iff; apply orb_true_iff.
    + left. by apply (startsWith_app p q).
    + right. by apply IH.
Qed.

(** Property X26.  For a search term and project fields of Latin-1
    characters (code units below 256, the strings of this development), a
    longer search term shows no more than a shorter one: every project shown
    for a term followed by further characters is shown for the term itself,
    the filters being the same. *)
Theorem search_narrows (Date : string → option Z) (st : ProjectList.State)
    (projects : list types.Project) (term more : string) (p : types.Project) :
  p ∈ ProjectList.filteredAndSortedProjects Date
        (ProjectList.setSearchTerm (term +:+ more) st) projects →
  p ∈ ProjectList.filteredAndSortedProjects Date
        (ProjectList.setSearchTerm term st) projects.
Proof.
  unfold ProjectList.filteredAndSortedProjects. rewrite !sort_Permutation.
  rewrite !list_elem_of_filter. intros [Hm Hp]. split; [|done].
  apply Is_true_true. apply Is_true_true in Hm. revert Hm.
  unfold ProjectList.matches, ProjectList.matchesSearch, ProjectList.setSearchTerm.
  cbn [ProjectList.searchTerm ProjectList.filterSector ProjectList.filterStatus
       ProjectList.filterRegion ProjectList.filterSubSector].
  rewrite toLowerCase_app. rewrite !andb_true_iff, !orb_true_iff.
  intros [[[[Hs ?] ?] ?] ?]. split_and!; try done.
  destruct Hs as [[[Hi|Hi]|Hi]|Hi]; apply includes_app in Hi; tauto.
Qed.

Lemma search_narrows_witness :
  acmeProject
  ∈ ProjectList.filteredAndSortedProjects (λ _, None)
      (ProjectList.setSearchTerm ("ac" +:+ "me") ProjectList.initialState)
      [acmeProject; noSector]
  ∧ acmeProject
    ∈ ProjectList.filteredAndSortedProjects (λ _, None)
        (ProjectList.setSearchTerm "ac" ProjectList.initialState)
        [acmeProject; noSector].
Proof.
  assert (acmeProject
          ∈ ProjectList.filteredAndSortedProjects (λ _, None)
              (ProjectList.setSearchTerm ("ac" +:+ "me") ProjectList.initialState)
              [acmeProject; noSector]) as H.
  { assert (ProjectList.filteredAndSortedProjects (λ _, None)
              (ProjectList.setSearchTerm ("ac" +:+ "me") ProjectList.initialState)
              [acmeProject; noSector]
            = [acmeProject; noSector]) as Heq by reflexivity.
    rewrite Heq. left. }
  split; [exact H|].
  exact (search_narrows (λ _, None) ProjectList.initialState [acmeProject; noSector]
           "ac" "me" acmeProject H).
Defined.

(** *** Submitting the form, seen from the application *)

(** Property X27.  The answer of the form changes the list by one project
    at most: while a project is being edited the answer takes the place of
    the projects with its id and the number of projects stays, otherwise it
    is added at the end; either way the form is closed.  After
    [handleEditProject] the answer is always treated as an update. *)
Theorem onSubmit_counts (result : types.Project) (st : App.State) :
  let st' := App.onSubmit result st in
  App.showProjectForm st' = false
  ∧ (∀ editing, App.editingProject st = Some editing →
       length (App.projects st') = length (App.projects st)
       ∧ App.editingProject st' = None
       ∧ ∀ p, p ∈ App.projects st' → p = result ∨ p ∈ App.projects st)
  ∧ (App.editingProject st = None → App.projects st' = App.projects st ++ [result])
  ∧ (∀ project, App.onSubmit result (App.handleEditProject project st)
                = App.handleProjectUpdated result st).
Proof.
  intros st'. unfold st', App.onSubmit.
  destruct (App.editingProject st) as [e|] eqn:He.
  - split_and!; [done | | done | done]. intros editing _.
    unfold App.handleProjectUpdated. cbn [App.projects App.editingProject].
    split_and!; [by rewrite length_fmap | done |].
    intros p (q & -> & Hq)%list_elem_of_fmap. case_decide; [by left | by right].
  - split_and!; [done | done | done | done].
Qed.

(** *** Deleting a project, seen in the list of projects *)

(** In a sorted list, the element to insert goes in front as soon as it
    does not compare greater than the first element. *)
Lemma insert_front {A : Type} (compareFn : A → A → Z) (x : A) (l : list A) :
  (∀ z, z ∈ l → compareFn x z <= 0) → Array.insert compareFn x l = x :: l.
Proof.
  destruct l as [|y l]; [done|]. intros Hall. cbn [Array.insert].
  rewrite (proj2 (Z.leb_le _ _)); [done|]. apply Hall. left.
Qed.

Lemma insert_filter {A : Type} (compareFn : A → A → Z) (Q P : A → Prop)
    `{∀ x, Decision (P x)} (x : A) (l : list A) :
  (∀ a b c, Q a → Q b → Q c →
     compareFn a b <= 0 → compareFn b c <= 0 → compareFn a c <= 0) →
  Q x → Forall Q l → StronglySorted (λ a b, compareFn a b <= 0) l →
  filter P (Array.insert compareFn x l)
  = if decide (P x) then Array.insert compareFn x (filter P l) else filter P l.
Proof.
  intros Htrans Qx HQ Hsorted. induction Hsorted as [|y l Hl IH Hy]; cbn [Array.insert].
  - rewrite filter_cons, filter_nil. by case_decide.
  - apply Forall_cons in HQ as [Qy HQ].
    destruct (Z.leb_spec (compareFn x y) 0) as [Hle|Hgt].
    + rewrite (filter_cons P x). destruct (decide (P x)) as [Px|Px]; [|done].
      rewrite insert_front; [done|].
      intros z [_ [->|Hz]%elem_of_cons]%list_elem_of_filter; [done|].
      rewrite Forall_forall in Hy, HQ.
      apply (Htrans x y z); [done | done | by apply HQ | done | by apply Hy].
    + rewrite (filter_cons P y), (IH HQ), (filter_cons P y).
      destruct (decide (P x)) as [Px|Px], (decide (P y)) as [Py|Py]; try done.
      cbn [Array.insert]. by rewrite (proj2 (Z.leb_gt _ _) Hgt).
Qed.

(** Filtering a list and sorting it can be done in either order, on
    elements that the comparator orders consistently. *)
Lemma sort_filter {A : Type} (compareFn : A → A → Z) (Q P : A → Prop)
    `{∀ x, Decision (P x)} (l : list A) :
  (∀ a b, Q a → Q b → 0 < compareFn a b → compareFn b a <= 0) →
  (∀ a b c, Q a → Q b → Q c →
     compareFn a b <= 0 → compareFn b c <= 0 → compareFn a c <= 0) →
  Forall Q l →
  filter P (Array.sort compareFn l) = Array.sort compareFn (filter P l).
Proof.
  intros Hconnex Htrans. induction 1 as [|x l Qx HQ IH]; [done|].
  unfold Array.sort at 1. cbn [foldr]. fold (Array.sort compareFn l).
  rewrite (insert_filter compareFn Q P); [|done | done | |].
  - rewrite IH, filter_cons. by case_decide.
  - by rewrite sort_Permutation.
  - by apply (sort_StronglySorted compareFn Q).
Qed.

Lemma filter_matches_others (st : ProjectList.State) (projectId : string)
    (projects : list types.Project) :
  filter (λ project, ProjectList.matches st project)
    (filter (λ p, types.id p ≠ projectId) projects)
  = filter (λ p, types.id p ≠ projectId)
      (filter (λ project, ProjectList.matches st project) projects).
Proof.
  induction projects as [|x l IH]; [done|].
  rewrite (filter_cons (λ p, types.id p ≠ projectId) x).
  rewrite (filter_cons (λ project, ProjectList.matches st project) x).
  destruct (decide (types.id x ≠ projectId)) as [H1|H1],
    (decide (ProjectList.matches st x)) as [H2|H2];
    rewrite ?filter_cons, ?decide_True, ?decide_False by done; by rewrite IH.
Qed.

(** Property X28.  When the list is sorted by a field other than the
    approval date, or every approval date is a date, a project deleted from
    the list of the application disappears from the projects shown and
    nothing else changes: the others are shown as before, in the same
    order. *)
Theorem shown_after_delete (Date : string → option Z) (st : ProjectList.State)
    (app : App.State) (projectId : string) :
  (ProjectList.sortField st = ProjectList.approvalDate →
   ∀ p, p ∈ App.projects app → is_Some (Date (types.approvalDate p))) →
  ProjectList.filteredAndSortedProjects Date st
    (App.projects (App.handleProjectDeleted projectId app))
  = filter (λ p, types.id p ≠ projectId)
      (ProjectList.filteredAndSortedProjects Date st (App.projects app)).
Proof.
  intros Hdates. unfold ProjectList.filteredAndSortedProjects, App.handleProjectDeleted.
  cbn [App.projects].
  rewrite (sort_filter _ (datesValid Date (ProjectList.sortField st))).
  - f_equal. apply filter_matches_others.
  - intros a b _ _. apply compare_connex.
  - apply compare_trans.
  - apply Forall_forall. intros p [_ Hp]%list_elem_of_filter Hfield. by apply Hdates.
Qed.

Lemma shown_after_delete_witness :
  ProjectList.filteredAndSortedProjects (λ _, None) ProjectList.initialState
    (App.projects
       (App.handleProjectDeleted "7"
          (App.handleProjectAdded noSector
             (App.handleProjectAdded acmeProject App.initialState))))
  = filter (λ p, types.id p ≠ "7")
      (ProjectList.filteredAndSortedProjects (λ _, None) ProjectList.initialState
         (App.projects
            (App.handleProjectAdded noSector
               (App.handleProjectAdded acmeProject App.initialState)))).
Proof.
  apply (shown_after_delete (λ _, None) ProjectList.initialState).
  intros Hfield. discriminate Hfield.
Defined.

(** *** The invariant of the employee counts beyond the form *)

(** Claim C1 as stated fails: the body [acme] counts one man, two women and
    a total of 99; the POST route stores the three numbers as they are, and
    the form opened on the project shows them as they are, also after a
    change of another field. *)
Lemma stored_total_is_not_recomputed :
  routes.postProject 1000 1000 1000 acme []
  = ({| status := 201; body := JObject (routes.newProject 1000 1000 1000 acme) |},
     [acmeRow])
  ∧ acmeRow !! "employeesMale" = Some (VNum 1)
  ∧ acmeRow !! "employeesFemale" = Some (VNum 2)
  ∧ acmeRow !! "employeesTotal" = Some (VNum 99)
  ∧ ¬ ProjectForm.totalIsSum (ProjectForm.formData acmeForm)
  ∧ ProjectForm.employeesTotal
      (ProjectForm.formData
         (ProjectForm.handleChange decimal "owner" "Sara" acmeForm)) = 99.
Proof.
  assert (acme !! "id" = None) as Hnoid by (vm_compute; reflexivity).
  split_and!.
  - apply (postProject_ok 1000 1000 1000 acme (VStr "1000") []).
    + apply acme_supplies_required.
    + rewrite newProject_lookup, Hnoid. reflexivity.
    + intros r Hr. destruct (not_elem_of_nil r Hr).
  - compute_done.
  - compute_done.
  - compute_done.
  - vm_compute. discriminate.
  - vm_compute. reflexivity.
Qed.

